(* ===== verification/_CoqProject ===== *)
-Q . S2P
Prelude.v
Heap.v
HeapFacts.v
HeapOrder.v
HeapScenarios.v
HeapSiftDown.v
Dispatcher.v
Layer.v
CsvLayer.v
Context.v
Legacy.v
Mqtt.v
LogicLayer.v
Datapoint.v
Codec.v
Packet.v
