(* ===== verification/Prelude.v ===== *)
(** * A verification development for libxively

    libxively is a device-side client for a cloud telemetry service.  The
    sources under [src/src/libxively] are:

    - [xi_datastructures/xi_heap.c]: a fixed-capacity, array-backed binary
      min-heap of pre-allocated element objects.  Each element object holds
      its current slot ([index]), a [key] (wake time) and a payload
      ([heap_value]).  The event dispatcher schedules continuations on it.
    - [xively.c]: the application API.  It creates and deletes contexts
      (with a reference-counted global dispatcher in the MQTT non-blocking
      build), drives the legacy request/response protocol through a chain
      of layers (io -> http -> csv) with the calls
      init/connect/data_ready/on_data_ready/close, and builds MQTT publish
      and subscribe tasks for the logic layer.
    - [mqtt/logic_layer/xi_mqtt_logic_layer.c]: the MQTT logic layer; in
      this revision most of its entry points are empty, [init] delegates to
      the layer below and [connect] schedules [on_connected], read from the
      layer's [user_data].
    - [mqtt/codec/parser.h]: the resumable MQTT parser's state record and
      its state and return-code enumerations (the parser's body is not in
      this repository).
    - [csv/xi_csv_layer.h]: declarations of the csv layer's entry points.

    ** Layout of the development

    Files are listed in dependency order ([_CoqProject]).  The claim ids
    (C1 to C37) are those of the theorems' doc comments.

    - [Prelude.v] (this file): the result type [xres] of operations whose C
      counterpart can hit undefined behaviour, its bind notation [let!] in
      [xively_scope], the [xively] hint databases, the [bool_cases] tactic
      and the list lemmas on slot swapping ([list_swap], [transp]).
    - [Heap.v], [Module Heap]: [xi_heap.c], one definition per function.
      The slot array holds pointers into a store of element objects, as the
      C code does, so the aliasing of handles is part of the model.  The two
      loops are fuel-bounded Fixpoints ([None] = fuel exhausted) under the
      C-named wrappers: [xi_heap_fix_order_up] gives the loop [index + 1]
      rounds and [xi_heap_fix_order_down] gives it [first_free + 1]; each
      round of the first moves to the parent and each round of the second
      to a live child, so [index + 1] and [first_free - index + 1] rounds
      suffice, which [HeapFacts.v] proves (C20, C21).  [xi_heap_create] is
      the function when every allocation succeeds; [xi_heap_create_alloc]
      is the whole function with its [err_handling], over a list saying
      which of its allocations (record, slot array, element objects in
      order) fail.
    - [HeapFacts.v]: index calculus against the textbook formulas (C19),
      termination (C20, C21), the structural invariant [heap_wf] (the slots
      form a permutation of the objects, every live object's [index] names
      its slot) kept by every operation (C22), so that [xi_heap_destroy]
      frees every element object exactly once (C18); the multiset of live
      entries, the checker [heap_wfb] and the scenario driver [run_heap_ops].
    - [HeapOrder.v]: the heap order.  Insertion restores it (C1); on an
      ordered heap, extraction returns a minimum (C2) and leaves the heap
      ordered except possibly above the last live slot when that slot is a
      lone left child (C3).
    - [HeapScenarios.v]: the defects of [xi_heap.c] as evaluated examples
      and theorems: extraction breaks the order (C4) and events then fire
      out of order (C5), insertion into a full heap reads past the array
      (C6), removal keeps the removed element (C7), [xi_heap_create]
      survives only the failure of its slot array's allocation and
      dereferences NULL on the others (C8), the extracted handle is reused
      by the next insertion (C23), a peek on an emptied heap returns the
      extracted handle (C24); and, without interleaving, exhaustively
      checked sorted extraction of seven keys.
    - [HeapSiftDown.v]: the check the specification (section 9) asks for
      of the sift-down's bounds guard.  [sink1] is one step of a
      sift-down that tests for missing children explicitly, [sift_down]
      its iteration by well-founded recursion ([Function] with the
      measure [first_free - i]).  On a heap with an odd number of live
      slots [xi_heap_fix_order_down] is [sift_down] from any slot (C28):
      clamping a child index to the parent is a correct guard; so an
      extraction from a heap with an even number of live slots is the
      guarded one, and the departure is the loop's exit test, which an
      example shows stopping above a lone left child.
    - [Dispatcher.v], [Module Dispatcher]: the event dispatcher, which is
      not in the repository, modelled from the specification on top of the
      heap.  The class [Scheduler] is its contract (continue, cancel, step,
      pending); [QueueScheduler], a list of handles and wake times fired in
      sorted order, is the reference, and [HeapScheduler] the dispatcher:
      [xi_evtd_continue] is an insertion keyed by [current_time +
      time_diff], [xi_evtd_cancel] a [xi_heap_element_remove], and
      [xi_evtd_step] a loop of [xi_heap_get_top] while the root is due,
      with fuel [first_free + 1] (one extraction per live element and a
      last emptiness test), which always suffices (C10).  [run_sched] runs
      a list of operations on any [Scheduler].  Theorems: when every
      pending continuation is due, a step of the dispatcher refines the
      reference's (C9); a continuation scheduled now on a heap with room
      is accepted and fired first by the next step (C11, liveness).
    - [Layer.v], [Module Layer]: the build configuration of [xively.c]
      ([LAYERS_ID], the connection schemes, [LAYER_TYPES_CONF] for every
      IO/MQTT build, and the factory table [FACTORY_CONF], which, unlike
      the type table, covers every scheme), the chain built from a scheme
      with the [user_data] each layer was created with ([UD_NULL] for a
      null pointer), entry point prototypes, and the calling convention: a
      layer call is recorded in a trace (the writer monad [drv]) and
      answered by an instance of the class [LayerEnv], the interface
      through which the drivers see the layers.  Theorem: the table covers
      the scheme only in the builds without MQTT and in the asynchronous
      POSIX MQTT build (C33).
    - [CsvLayer.v], [Module CsvLayer]: the prototypes of [xi_csv_layer.h],
      against which the table's CSV entry links; the header's [init] and
      [connect] are never registered.
    - [Context.v], [Module Context]: [xi_create_context] and
      [xi_delete_context] for every build, over a world with an allocator
      (a script decides which allocations fail, so every error path runs),
      the context objects and the dispatcher globals; the chain is built
      with the [user_datas] array of the protocol's branch
      ([protocol_user_datas]).  Theorems: failure leaves no partial state
      in the builds without MQTT (C25), create/delete round trip; the
      MQTT builds leak the context on an unsupported protocol (C26) and
      never count the first context in [xi_evtd_ref_count], so two
      contexts leave two dispatchers alive (C27).
    - [Legacy.v], [Module Legacy]: the nine blocking CRUD calls (one body,
      [legacy_request]) and the nine non-blocking ones ([nob_request], over
      the shared static request of each function).  Theorems hold for every
      [LayerEnv]: failure propagation (C29), no close after a connect
      failure (C30), a failed request still returns the response (C31),
      and the loss of a pending request when two contexts use the same
      call (C32).
    - [Mqtt.v], [Module Mqtt]: [xi_mqtt_publish] (C36) and the non-blocking
      connect/publish/subscribe with their allocations and [err_handling]
      statement by statement, subscribe pushing its handler through the
      logic layer's [user_data]: publish leaks the task (C34) or reads
      through the freed task (C35) on allocation failures.
    - [LogicLayer.v], [Module LogicLayer]: [xi_mqtt_logic_layer.c], its six
      entry points as functions of the layer's state (the global
      dispatcher of [Dispatcher.v] and the layer data, [None] for a null
      [user_data]) in the monad [drv], and [logic_layer_handle], the layer
      receiving a driver's calls.  Theorems: every context the MQTT
      builds create has a logic layer whose [user_data] is NULL
      ([user_datas] is [{ 0, 0, 0 }]), so [connect] and
      [xi_nob_mqtt_subscribe] dereference NULL on it (C12, composed from
      [xi_create_context], the chain and the two functions);
      [xi_nob_mqtt_connect] through the logic layer hands its handle to
      the MQTT layer and never to the data [connect] reads (C13).
    - [Datapoint.v], [Module Datapoint]: the datapoint accessors, with the
      value union kept as bytes so that its members overlay as in C:
      storing and reading an [int32_t] round-trips with 32-bit
      wrap-around; a failed [xi_set_value_str] has already overwritten the
      integer it was meant to leave alone (C37).
    - [Codec.v], [Module Codec]: the enums and record of [parser.h], and
      the parser's fixed header (first byte and remaining length) with the
      remaining-length encoder, modelled from the specification.  The
      [size_t] counters are [Z] and proved below [2^28].  Theorems:
      round trip of every length up to [268435455], resumability of the
      fixed-header stage across buffers, the counter invariant; an
      over-long length is an error, and the encoder writes the fewest
      bytes, at most four.
    - [Packet.v], [Module Packet]: the rest of [mqtt_parser_execute] and
      the serialiser, modelled from the specification (sections 4.3 and
      6; [parser.c], [serialiser.c] and [message.h] are not in the
      repository).  [mqtt_packet] has one constructor per control packet
      (CONNECT, CONNACK, PUBLISH, PUBACK, PUBREC, PUBREL, PUBCOMP) with the
      fields of the spec; [mqtt_serialise] writes the first byte, the
      remaining length computed from the fields and the body into a buffer
      of a given size or fails; [mqtt_parser_execute] runs the fixed
      header of [Codec.v], then gathers the body in the parser's [buffer],
      counting it in [data_length], until [remaining_length] bytes are in
      ([INCOMPLETE] when the input runs out) and decodes it field by
      field.  Theorems: every well-formed packet serialised parses back
      (C14), the whole parser resumes across buffers at any byte (C15), a
      declared length that disagrees with the fields is an error (C16),
      the serialiser needs at most five bytes beyond the body and refuses
      a buffer too small; every state the parser reaches over any
      sequence of buffers ([parser_reachable], an inductive step relation)
      holds [data_length] bytes in its [buffer], within the declared
      length, with counters below [2^28] (C17, by rule induction).

    ** Not modelled

    - The bodies of the io, http, csv and MQTT layers, the factory and
      [create_and_connect_layers] are not in the repository: the drivers
      are proved against [LayerEnv], and the chain is its two ends and
      the [user_data] of each layer.
    - The dispatcher ([xi_event_dispatcher_api.c]) is modelled from the
      specification ([Dispatcher.v]); in [Context.v] an instance is only
      an allocated block, since [xively.c] only creates and destroys it.
    - [parser.c], the serialiser and [message.h] are not in the
      repository: the packets are modelled from the specification's wire
      format.  [parser.h:61] declares [mqtt_parser_execute] returning
      [layer_state_t]; the model answers the [mqtt_parser_rc_t] the
      specification describes.  The [WANT_MEMORY] answer (caller-supplied
      storage for a long field) and the SUBSCRIBE, UNSUBSCRIBE and PING
      packets, which the specification does not describe, are not
      modelled; the parser keeps the whole body in its [buffer].
    - The byte overlay of the [connect] and [publish] members of
      [mqtt_message_t] (its layout is in [message.h]), so no theorem puts
      the messages [xi_mqtt_publish] builds on the wire; and the debug
      output [mqtt_message_dump].
    - [CALL_ON_SELF_CLOSE] is called by [xi_mqtt_publish] with one
      argument where every other call passes three; the macro is not in
      the repository, and the model records the close call alone.
*)

From stdpp Require Export base list options.
From Stdlib Require Export ZArith Lia.

(** ** Results of operations that may hit undefined behaviour *)

(** [XFault] marks a run on which the C code reads or writes outside an
    array or fails an [assert]: the model stops there. *)
Inductive xres (A : Type) : Type :=
  | XOk (a : A)
  | XFault.
Arguments XOk {A} a.
Arguments XFault {A}.

Definition xres_bind {A B} (m : xres A) (k : A -> xres B) : xres B :=
  match m with
  | XOk a => k a
  | XFault => XFault
  end.

Declare Scope xively_scope.
Delimit Scope xively_scope with xi.
Notation "'let!' x ':=' m 'in' k" := (xres_bind m (fun x => k))
  (at level 10, x name, m at level 100, k at level 200) : xively_scope.

Lemma xres_bind_ok {A B} (a : A) (k : A -> xres B) :
  xres_bind (XOk a) k = k a.
Proof. reflexivity. Qed.

(** ** Automation *)

Create HintDb xively discriminated.
Create Rewrite HintDb xively_rw.

(** Split every boolean comparison of the goal and hypotheses into its
    two cases, then let [lia] or [congruence] close what it can. *)
Ltac bool_cases :=
  repeat match goal with
  | |- context [Nat.eqb ?a ?b] => destruct (Nat.eqb_spec a b)
  | |- context [Nat.ltb ?a ?b] => destruct (Nat.ltb_spec a b)
  | |- context [Nat.leb ?a ?b] => destruct (Nat.leb_spec a b)
  | |- context [Z.ltb ?a ?b] => destruct (Z.ltb_spec a b)
  | |- context [Z.leb ?a ?b] => destruct (Z.leb_spec a b)
  | H : context [Nat.eqb ?a ?b] |- _ => destruct (Nat.eqb_spec a b)
  | H : context [Nat.ltb ?a ?b] |- _ => destruct (Nat.ltb_spec a b)
  | H : context [Nat.leb ?a ?b] |- _ => destruct (Nat.leb_spec a b)
  | H : context [Z.ltb ?a ?b] |- _ => destruct (Z.ltb_spec a b)
  end.

(** ** Slot swapping on arrays modelled as lists *)

(** The transposition of two slots, as a map on slot numbers. *)
Definition transp (i j k : nat) : nat :=
  if k =? i then j else if k =? j then i else k.

(** [*a = *b; *b = tmp] on two slots of an array: the write to slot [j]
    comes second, as in the C code. *)
Definition list_swap {A} (l : list A) (i j : nat) : list A :=
  match l !! i, l !! j with
  | Some a, Some b => <[j:=a]> (<[i:=b]> l)
  | _, _ => l
  end.

Section ListSwap.
Context {A : Type}.
Implicit Types (l : list A).

Lemma length_list_swap l i j : length (list_swap l i j) = length l.
Proof.
  unfold list_swap.
  destruct (l !! i), (l !! j); rewrite ?length_insert; done.
Qed.

Lemma lookup_list_swap l i j k :
  i < length l -> j < length l ->
  list_swap l i j !! k = l !! transp i j k.
Proof.
  intros Hi Hj. unfold list_swap, transp.
  destruct (lookup_lt_is_Some_2 l i Hi) as [a Ha].
  destruct (lookup_lt_is_Some_2 l j Hj) as [b Hb].
  rewrite Ha, Hb.
  destruct (Nat.eqb_spec k i) as [->|Hki].
  - destruct (decide (j = i)) as [->|Hji].
    + rewrite list_lookup_insert_eq by (rewrite length_insert; lia). congruence.
    + rewrite list_lookup_insert_ne by done.
      by rewrite list_lookup_insert_eq by lia.
  - destruct (Nat.eqb_spec k j) as [->|Hkj].
    + by rewrite list_lookup_insert_eq by (rewrite length_insert; lia).
    + rewrite !list_lookup_insert_ne by done. done.
Qed.

Lemma list_swap_perm l i j : list_swap l i j ≡ₚ l.
Proof.
  unfold list_swap.
  destruct (l !! i) as [a|] eqn:Ha, (l !! j) as [b|] eqn:Hb; try done.
  by apply Permutation_insert_swap.
Qed.
End ListSwap.

Lemma transp_lt i j k n : i < n -> j < n -> k < n -> transp i j k < n.
Proof. unfold transp. bool_cases; lia. Qed.

Lemma transp_invol i j k : transp i j (transp i j k) = k.
Proof. unfold transp. bool_cases; lia. Qed.

Lemma transp_l i j : transp i j i = j.
Proof. unfold transp. bool_cases; lia. Qed.

Lemma transp_r i j : transp i j j = i.
Proof. unfold transp. bool_cases; lia. Qed.

Lemma transp_other i j k : k <> i -> k <> j -> transp i j k = k.
Proof. unfold transp. bool_cases; lia. Qed.

#[export] Hint Resolve transp_lt : xively.
#[export] Hint Rewrite transp_l transp_r : xively_rw.
#[export] Hint Rewrite transp_invol : xively_rw.

(** Permuting the slot numbers [0 .. n) by a transposition inside the range
    permutes any slot-wise view of an array. *)
Lemma map_transp_seq_perm {B} (f : nat -> B) a b n :
  a < n -> b < n -> map (fun k => f (transp a b k)) (seq 0 n) ≡ₚ map f (seq 0 n).
Proof.
  intros Ha Hb. rewrite <- (map_map (transp a b) f). apply Permutation_map.
  apply Permutation_map_same_l.
  - apply NoDup_map_NoDup_ForallPairs; [|apply seq_NoDup].
    intros x y _ _ E. rewrite <- (transp_invol a b x), <- (transp_invol a b y). by rewrite E.
  - intros x. rewrite in_map_iff, in_seq. intros (y & <- & Hy). apply in_seq in Hy.
    pose proof (transp_lt a b y n Ha Hb ltac:(lia)). lia.
Qed.
