(* ===== verification/Heap.v ===== *)
(** * The binary min-heap of [xi_datastructures/xi_heap.c]

    The C heap keeps an array [elements] of [capacity] pointers to element
    objects allocated once by [xi_heap_create]; an element object carries
    its current slot [index], its [key] and a [heap_value] union.  Slots
    [0 .. first_free) are live.  Swapping two slots exchanges the pointers
    and then the [index] fields of the two objects.

    The model keeps the pointers and the objects apart, as the C code does:
    a pointer is a [nat] naming an object of [store], and [elements] maps a
    slot to a pointer.  A handle returned by an insertion or by
    [xi_heap_get_top] is such a pointer, so that the aliasing of the C code
    (the object returned by [xi_heap_get_top] is the one the next insertion
    overwrites) is part of the model.

    Both loops are fuel-bounded Fixpoints returning [None] when the fuel is
    exhausted; the C-named wrappers give them a fuel that [HeapFacts.v]
    proves sufficient. *)

From S2P Require Import Prelude.

Module Heap.

(** ** Data *)

(** [union heap_value { void* void_value; xi_heap_value_type_t type_value; }] *)
Inductive heap_value : Type :=
  | void_value (p : nat)
  | type_value (v : nat).

(** [struct xi_heap_element_t] *)
Record xi_heap_element : Type := mk_element {
  index : nat;
  key : Z;
  heap_value_of : heap_value
}.

(** An element object after [memset( ..., 0, ... )]. *)
Definition zero_element : xi_heap_element := mk_element 0 0%Z (void_value 0).

(** [struct xi_heap_t]: the slot array of pointers, the objects the pointers
    name, the capacity and the first free slot. *)
Record xi_heap : Type := mk_heap {
  elements : list nat;
  store : list xi_heap_element;
  capacity : nat;
  first_free : nat
}.

Definition set_first_free (h : xi_heap) (n : nat) : xi_heap :=
  mk_heap (elements h) (store h) (capacity h) n.

Definition set_index (e : xi_heap_element) (i : nat) : xi_heap_element :=
  mk_element i (key e) (heap_value_of e).

Definition set_key (k : Z) (e : xi_heap_element) : xi_heap_element :=
  mk_element (index e) k (heap_value_of e).

(** [p->index] and [p->key] for a pointer [p]. *)
Definition obj_index (h : xi_heap) (p : nat) : nat :=
  default 0 (index <$> store h !! p).

Definition obj_key (h : xi_heap) (p : nat) : Z :=
  default 0%Z (key <$> store h !! p).

(** [xi_heap->elements[ i ]->key] *)
Definition key_at (h : xi_heap) (i : nat) : Z :=
  match elements h !! i with
  | Some p => obj_key h p
  | None => 0%Z
  end.

(** ** Creation *)

(** [xi_heap_create] when every allocation succeeds: the
    [assert( capacity != 0 )] is a fault; object [i] is allocated for slot
    [i] and zeroed. *)
Definition xi_heap_create (capacity : nat) : xres xi_heap :=
  if capacity =? 0 then XFault
  else XOk (mk_heap (seq 0 capacity) (replicate capacity zero_element) capacity 0).

(** The allocations of [xi_heap_create], in order: the heap record, the
    slot array, then one element object per slot.  [allocs] says which of
    them fail ([true], as in the allocator script of [Context]); an
    allocation past its end succeeds. *)
Definition alloc_fails (allocs : list bool) (i : nat) : bool := default false (allocs !! i).

(** The loop [for( i = 0; i < capacity; ++i )]: the element is allocated,
    then [XI_CHECK_MEMORY( ret->elements )] tests the slot array, not the
    element, and passes; [memset( ret->elements[ i ], 0, ... )] on a failed
    allocation writes through NULL. *)
Fixpoint create_elements_loop (allocs : list bool) (i n : nat) : xres unit :=
  match n with
  | O => XOk tt
  | S n' => if alloc_fails allocs (2 + i) then XFault else create_elements_loop allocs (S i) n'
  end.

(** [xi_heap_create] with its allocation failures.  A failed allocation of
    the record jumps to [err_handling], whose first test reads
    [ret->elements] through the null [ret]; a failed allocation of the
    array jumps there with [ret->elements] null, frees [ret] and returns
    [0] ([XOk None]). *)
Definition xi_heap_create_alloc (allocs : list bool) (capacity : nat) : xres (option xi_heap) :=
  if capacity =? 0 then XFault
  else if alloc_fails allocs 0 then XFault
  else if alloc_fails allocs 1 then XOk None
  else
    match create_elements_loop allocs 0 capacity with
    | XOk _ => XOk (Some (mk_heap (seq 0 capacity) (replicate capacity zero_element) capacity 0))
    | XFault => XFault
    end.

(** [xi_heap_destroy]: [XI_SAFE_FREE( xi_heap->elements[ i ] )] for every
    slot [i < capacity], then the array and the heap.  The result is the
    sequence of element objects freed; [assert( capacity != 0 )] and a
    read past the array are faults. *)
Definition xi_heap_destroy (h : xi_heap) : xres (list nat) :=
  if capacity h =? 0 then XFault
  else if length (elements h) <? capacity h then XFault
  else XOk (take (capacity h) (elements h)).

(** ** Index calculus: the macros [LEFT], [RIGHT], [PARENT] *)

Definition LEFT (i : nat) : nat := Nat.shiftl (i + 1) 1 - 1.
Definition RIGHT (i : nat) : nat := Nat.shiftl (i + 1) 1 + 1 - 1.
Definition PARENT (i : nat) : nat := Nat.shiftr (i + 1) 1 - 1.

(** ** [xi_heap_elements_swap] on the slots [a] and [b] *)

Definition xi_heap_elements_swap (h : xi_heap) (a b : nat) : xi_heap :=
  match elements h !! a, elements h !! b with
  | Some pa, Some pb =>
      (* swap elements: after this *a is pb and *b is pa *)
      let els := list_swap (elements h) a b in
      (* swap indexes *)
      let tmp_index := obj_index h pb in
      let st1 := alter (fun e => set_index e (obj_index h pa)) pb (store h) in
      let st2 := alter (fun e => set_index e tmp_index) pa st1 in
      mk_heap els st2 (capacity h) (first_free h)
  | _, _ => h
  end.

(** ** [xi_heap_fix_order_up]: walk to the root, swapping with the parent
    whenever the key is smaller; the loop never stops early. *)

Fixpoint fix_order_up_loop (fuel : nat) (h : xi_heap) (index : nat)
    : option xi_heap :=
  match fuel with
  | O => None
  | S fuel' =>
      if index =? 0 then Some h
      else
        let h' :=
          if (key_at h index <? key_at h (PARENT index))%Z
          then xi_heap_elements_swap h index (PARENT index) else h in
        fix_order_up_loop fuel' h' (PARENT index)
  end.

Definition xi_heap_fix_order_up (h : xi_heap) (index : nat) : xi_heap :=
  default h (fix_order_up_loop (S index) h index).

(** ** [xi_heap_fix_order_down] *)

(** [li = li >= xi_heap->first_free ? index : li] *)
Definition bound_guard (h : xi_heap) (c index : nat) : nat :=
  if first_free h <=? c then index else c.

(** One pass of the [do] body: either [return], or a swap with the chosen
    child and the new [index]. *)
Inductive down_step : Type :=
  | DownReturn
  | DownMoved (h : xi_heap) (index : nat).

Definition fix_order_down_body (h : xi_heap) (index li ri : nat) : down_step :=
  if (key_at h li <? key_at h ri)%Z then
    if (key_at h li <? key_at h index)%Z
    then DownMoved (xi_heap_elements_swap h index li) li
    else DownReturn
  else
    if (key_at h ri <? key_at h index)%Z
    then DownMoved (xi_heap_elements_swap h index ri) ri
    else DownReturn.

(** The [do { ... } while( index != li && index != ri )] loop. *)
Fixpoint fix_order_down_loop (fuel : nat) (h : xi_heap) (index li ri : nat)
    : option xi_heap :=
  match fuel with
  | O => None
  | S fuel' =>
      match fix_order_down_body h index li ri with
      | DownReturn => Some h
      | DownMoved h' index' =>
          let li' := bound_guard h' (LEFT index') index' in
          let ri' := bound_guard h' (RIGHT index') index' in
          if (index' =? li') || (index' =? ri') then Some h'
          else fix_order_down_loop fuel' h' index' li' ri'
      end
  end.

Definition xi_heap_fix_order_down (h : xi_heap) (index : nat) : xi_heap :=
  let li := bound_guard h (LEFT index) index in
  let ri := bound_guard h (RIGHT index) index in
  default h (fix_order_down_loop (S (first_free h)) h index li ri).

(** ** Insertion: [xi_heap_element_add] and [xi_heap_element_add_void]

    [XOk None] is the C [return 0] of the capacity check; [XFault] is the
    read of [elements[ first_free ]] past the end of the array, which the
    check [first_free > capacity] lets through when
    [first_free = capacity]. *)
Definition xi_heap_element_add_value (h : xi_heap) (key : Z) (v : heap_value)
    : xres (option (xi_heap * nat)) :=
  if capacity h <? first_free h then XOk None
  else
    match elements h !! first_free h with
    | None => XFault
    | Some p =>
        let e := mk_element (first_free h) key v in
        let h1 := mk_heap (elements h) (<[p:=e]> (store h)) (capacity h)
                    (first_free h + 1) in
        XOk (Some (xi_heap_fix_order_up h1 (index e), p))
    end.

Definition xi_heap_element_add (h : xi_heap) (key : Z) (value : nat)
    : xres (option (xi_heap * nat)) :=
  xi_heap_element_add_value h key (type_value value).

Definition xi_heap_element_add_void (h : xi_heap) (key : Z) (value : nat)
    : xres (option (xi_heap * nat)) :=
  xi_heap_element_add_value h key (void_value value).

(** ** [xi_heap_element_remove] of the element object [elem]

    With [first_free = 0] the unsigned [first_free - 1] wraps and the slot
    read is out of range: a fault.  Note the order of the C code: the
    swap and both repairs run while [first_free] still counts the removed
    element, and [first_free] is decremented last. *)
Definition xi_heap_element_remove (h : xi_heap) (elem : nat) : xres xi_heap :=
  if first_free h =? 0 then XFault
  else
    let last_i := first_free h - 1 in
    if negb (last_i =? obj_index h elem) then
      match elements h !! obj_index h elem with
      | None => XFault
      | Some q =>
          let e_i := obj_index h q in
          let h1 := xi_heap_elements_swap h (obj_index h elem) last_i in
          let h2 := xi_heap_fix_order_down h1 e_i in
          let h3 := xi_heap_fix_order_up h2 e_i in
          XOk (set_first_free h3 (first_free h3 - 1))
      end
    else XOk (set_first_free h (first_free h - 1)).

(** ** [xi_heap_element_update_key] *)
Definition xi_heap_element_update_key (h : xi_heap) (elem : nat) (new_key : Z)
    : xres xi_heap :=
  let h1 := mk_heap (elements h) (alter (set_key new_key) elem (store h))
              (capacity h) (first_free h) in
  match elements h1 !! obj_index h1 elem with
  | None => XFault
  | Some q =>
      let e_i := obj_index h1 q in
      XOk (xi_heap_fix_order_up (xi_heap_fix_order_down h1 e_i) e_i)
  end.

(** ** [xi_heap_get_top]: extract the root.  The returned pointer is read
    from slot [last_i] after the repair, as [return *last_e] does. *)
Definition xi_heap_get_top (h : xi_heap) : xi_heap * option nat :=
  if first_free h =? 0 then (h, None)
  else
    let last_i := first_free h - 1 in
    let h1 := set_first_free h last_i in
    if negb (last_i =? 0) then
      let h2 := xi_heap_elements_swap h1 0 last_i in
      let h3 := xi_heap_fix_order_down h2 0 in
      (h3, elements h3 !! last_i)
    else (h1, elements h1 !! 0).

(** [xi_heap_peek_top]: [return xi_heap->elements[ 0 ]], with no check. *)
Definition xi_heap_peek_top (h : xi_heap) : option nat := elements h !! 0.

(** [xi_heap_is_empty] *)
Definition xi_heap_is_empty (h : xi_heap) : nat :=
  if first_free h =? 0 then 1 else 0.

(** ** Derived views used by the specifications *)

(** The key and payload held by slot [i] (those of a zeroed object when
    the slot names no object, which the invariant rules out). *)
Definition obj_at (h : xi_heap) (i : nat) : option xi_heap_element :=
  p ← elements h !! i; store h !! p.

Definition slot_kv (h : xi_heap) (i : nat) : Z * heap_value :=
  let e := default zero_element (obj_at h i) in (key e, heap_value_of e).

(** The live contents of slots [0 .. first_free), in slot order. *)
Definition live (h : xi_heap) : list (Z * heap_value) :=
  map (slot_kv h) (seq 0 (first_free h)).

End Heap.
