(* ===== verification/HeapFacts.v ===== *)
(** * Structural facts about the heap model

    The index calculus of the [LEFT]/[RIGHT]/[PARENT] macros, the effect of
    [xi_heap_elements_swap] on slots, keys and the live contents, the
    structural invariant [heap_wf] (the slot array is a permutation of the
    element objects and every object's [index] names its slot), the
    termination of both loops with the fuel the wrappers give them, and a
    generic principle: every property closed under swaps of live slots is
    kept by both loops. *)

From S2P Require Import Prelude Heap.
Import Heap.

(** ** Index calculus *)

Lemma LEFT_eq i : LEFT i = 2 * i + 1.
Proof. unfold LEFT. rewrite Nat.shiftl_mul_pow2. simpl. lia. Qed.

Lemma RIGHT_eq i : RIGHT i = 2 * i + 2.
Proof. unfold RIGHT. rewrite Nat.shiftl_mul_pow2. simpl. lia. Qed.

Lemma PARENT_eq i : PARENT i = (i + 1) / 2 - 1.
Proof. unfold PARENT. rewrite Nat.shiftr_div_pow2. reflexivity. Qed.

(** A non-root slot is the left or the right child of its parent. *)
Lemma PARENT_spec i : 0 < i -> i = 2 * PARENT i + 1 \/ i = 2 * PARENT i + 2.
Proof.
  rewrite PARENT_eq. intros Hi.
  pose proof (Nat.div_mod_eq (i + 1) 2).
  pose proof (Nat.mod_upper_bound (i + 1) 2 ltac:(lia)).
  destruct ((i + 1) mod 2) as [|[|]]; lia.
Qed.

Lemma PARENT_lt i : 0 < i -> PARENT i < i.
Proof. intros Hi. pose proof (PARENT_spec i Hi). lia. Qed.

Lemma PARENT_LEFT j : PARENT (LEFT j) = j.
Proof.
  rewrite LEFT_eq. pose proof (PARENT_spec (2 * j + 1) ltac:(lia)). lia.
Qed.

Lemma PARENT_RIGHT j : PARENT (RIGHT j) = j.
Proof.
  rewrite RIGHT_eq. pose proof (PARENT_spec (2 * j + 2) ltac:(lia)). lia.
Qed.

(** The slots whose parent is [j] are exactly [LEFT j] and [RIGHT j]. *)
Lemma PARENT_child i j : 0 < i -> PARENT i = j <-> i = LEFT j \/ i = RIGHT j.
Proof.
  intros Hi. rewrite LEFT_eq, RIGHT_eq. split.
  - intros <-. by apply PARENT_spec.
  - intros [-> | ->]; [rewrite <- LEFT_eq; apply PARENT_LEFT | rewrite <- RIGHT_eq; apply PARENT_RIGHT].
Qed.

#[export] Hint Resolve PARENT_lt : xively.

(** ** The structural invariant *)

(** The objects of slots [0 .. m) record their slot.  [xi_heap_create]
    zeroes every object, so only slots that have been live are in sync. *)
Definition synced_upto (h : xi_heap) (m : nat) : Prop :=
  forall i p, i < m -> elements h !! i = Some p -> obj_index h p = i.

Record heap_wf (h : xi_heap) : Prop := {
  wf_cap : 0 < capacity h;
  wf_elements_len : length (elements h) = capacity h;
  wf_store_len : length (store h) = capacity h;
  wf_nodup : NoDup (elements h);
  wf_ptr : Forall (fun p => p < capacity h) (elements h);
  wf_index : synced_upto h (first_free h);
  wf_first_free : first_free h <= capacity h
}.

(** ** Lookups after a swap *)

Section Swap.
Variables (h : xi_heap) (a b : nat).
Hypotheses (Ha : a < length (elements h)) (Hb : b < length (elements h)).

Lemma swap_elements k :
  elements (xi_heap_elements_swap h a b) !! k = elements h !! transp a b k.
Proof using Ha Hb.
  unfold xi_heap_elements_swap.
  destruct (lookup_lt_is_Some_2 _ _ Ha) as [pa ->].
  destruct (lookup_lt_is_Some_2 _ _ Hb) as [pb ->].
  by apply lookup_list_swap.
Qed.

(** Keys and payloads of the objects are untouched: only [index] moves. *)
Lemma swap_store_proj p :
  (fun e => (key e, heap_value_of e)) <$> store (xi_heap_elements_swap h a b) !! p
  = (fun e => (key e, heap_value_of e)) <$> store h !! p.
Proof using Ha Hb.
  unfold xi_heap_elements_swap.
  destruct (lookup_lt_is_Some_2 _ _ Ha) as [pa ->].
  destruct (lookup_lt_is_Some_2 _ _ Hb) as [pb ->]. simpl.
  destruct (decide (p = pa)), (decide (p = pb)); subst;
    rewrite ?list_lookup_alter_eq, ?list_lookup_alter_ne by done;
    rewrite ?list_lookup_alter_eq, ?list_lookup_alter_ne by done;
    rewrite <- ?option_fmap_compose; done.
Qed.

Lemma swap_obj_key p : obj_key (xi_heap_elements_swap h a b) p = obj_key h p.
Proof using Ha Hb.
  unfold obj_key. pose proof (swap_store_proj p) as E.
  destruct (store (xi_heap_elements_swap h a b) !! p),
    (store h !! p); simpl in *; congruence.
Qed.

Lemma swap_key_at k : key_at (xi_heap_elements_swap h a b) k = key_at h (transp a b k).
Proof using Ha Hb. unfold key_at. rewrite swap_elements. destruct (elements h !! _); auto using swap_obj_key. Qed.

Lemma swap_slot_kv k : slot_kv (xi_heap_elements_swap h a b) k = slot_kv h (transp a b k).
Proof using Ha Hb.
  unfold slot_kv, obj_at. rewrite swap_elements.
  destruct (elements h !! transp a b k) as [p|]; simpl; [|done].
  pose proof (swap_store_proj p) as E.
  destruct (store (xi_heap_elements_swap h a b) !! p),
    (store h !! p); simpl in *; congruence.
Qed.

Lemma swap_first_free : first_free (xi_heap_elements_swap h a b) = first_free h.
Proof. unfold xi_heap_elements_swap. destruct (elements h !! a), (elements h !! b); reflexivity. Qed.

Lemma swap_capacity : capacity (xi_heap_elements_swap h a b) = capacity h.
Proof. unfold xi_heap_elements_swap. destruct (elements h !! a), (elements h !! b); reflexivity. Qed.

Lemma swap_elements_len : length (elements (xi_heap_elements_swap h a b)) = length (elements h).
Proof.
  unfold xi_heap_elements_swap.
  destruct (elements h !! a), (elements h !! b); simpl; auto using length_list_swap.
Qed.
End Swap.

(** ** The invariant is kept by a swap of two slots in range *)

Lemma wf_store_some h i p :
  heap_wf h -> elements h !! i = Some p -> exists e, store h !! p = Some e.
Proof.
  intros Hwf Hi. apply lookup_lt_is_Some_2. rewrite (wf_store_len _ Hwf).
  eapply (Forall_lookup_1 _ _ _ _ (wf_ptr _ Hwf) Hi).
Qed.

Lemma wf_slot_some h i : heap_wf h -> i < capacity h -> exists p, elements h !! i = Some p.
Proof. intros Hwf Hi. apply lookup_lt_is_Some_2. by rewrite (wf_elements_len _ Hwf). Qed.

(** A swap of two slots below [m] keeps the slots below [m] in sync. *)
Lemma swap_synced h m a b :
  heap_wf h -> synced_upto h m -> a < m -> b < m -> m <= capacity h ->
  synced_upto (xi_heap_elements_swap h a b) m.
Proof.
  intros Hwf Hsync Ha Hb Hm.
  pose proof (wf_elements_len _ Hwf) as Hlen.
  destruct (wf_slot_some h a Hwf ltac:(lia)) as [pa Hpa].
  destruct (wf_slot_some h b Hwf ltac:(lia)) as [pb Hpb].
  destruct (wf_store_some h a pa Hwf Hpa) as [ea Hea].
  destruct (wf_store_some h b pb Hwf Hpb) as [eb Heb].
  assert (Hia := Hsync _ _ Ha Hpa). assert (Hib := Hsync _ _ Hb Hpb).
  unfold obj_index in Hia, Hib. rewrite Hea in Hia. rewrite Heb in Hib. simpl in *.
  pose proof (swap_elements h a b ltac:(lia) ltac:(lia)) as Hel.
  intros i p Hi Hip. rewrite Hel in Hip.
  unfold xi_heap_elements_swap. rewrite Hpa, Hpb. unfold obj_index. simpl.
  unfold obj_index. rewrite Hea, Heb. simpl.
  destruct (decide (i = a)) as [->|Hna].
  { rewrite transp_l, Hpb in Hip. injection Hip as <-.
    destruct (decide (pa = pb)) as [->|Hne].
    - rewrite list_lookup_alter_eq, list_lookup_alter_eq, Heb. simpl.
      assert (a = b) by (eapply NoDup_lookup; eauto using wf_nodup). lia.
    - rewrite list_lookup_alter_ne, list_lookup_alter_eq, Heb by done. simpl.
      congruence. }
  destruct (decide (i = b)) as [->|Hnb].
  { rewrite transp_r, Hpa in Hip. injection Hip as <-.
    rewrite list_lookup_alter_eq. destruct (decide (pa = pb)) as [->|].
    - rewrite list_lookup_alter_eq, Heb. simpl. lia.
    - rewrite list_lookup_alter_ne, Hea by done. simpl. lia. }
  rewrite transp_other in Hip by done.
  assert (p <> pa) by (intros ->; apply Hna; eapply NoDup_lookup; eauto using wf_nodup).
  assert (p <> pb) by (intros ->; apply Hnb; eapply NoDup_lookup; eauto using wf_nodup).
  rewrite !list_lookup_alter_ne by done.
  apply (Hsync _ _ Hi Hip).
Qed.

(** The structural part of the invariant survives any swap in range. *)
Lemma swap_wf_gen h m a b :
  heap_wf h -> synced_upto h m -> first_free h <= m -> m <= capacity h ->
  a < m -> b < m -> heap_wf (xi_heap_elements_swap h a b).
Proof.
  intros Hwf Hsync Hff Hm Ha Hb.
  pose proof (wf_elements_len _ Hwf) as Hlen.
  pose proof (swap_synced h m a b Hwf Hsync Ha Hb Hm) as Hs.
  unfold xi_heap_elements_swap in *.
  destruct (wf_slot_some h a Hwf ltac:(lia)) as [pa Hpa].
  destruct (wf_slot_some h b Hwf ltac:(lia)) as [pb Hpb].
  rewrite Hpa, Hpb in *. constructor; simpl.
  - apply Hwf.
  - rewrite length_list_swap. apply Hwf.
  - rewrite !length_alter. apply Hwf.
  - rewrite list_swap_perm. apply Hwf.
  - rewrite list_swap_perm. apply Hwf.
  - intros i p Hi. apply Hs. lia.
  - apply Hwf.
Qed.

Lemma swap_wf h a b :
  heap_wf h -> a < first_free h -> b < first_free h -> heap_wf (xi_heap_elements_swap h a b).
Proof.
  intros Hwf Ha Hb. eapply (swap_wf_gen h (first_free h)); eauto using wf_index, wf_first_free.
Qed.

#[export] Hint Resolve swap_wf : xively.

(** ** Termination of [xi_heap_fix_order_up]

    Every round moves [index] to [PARENT index], which is smaller, and the
    loop stops at the root: [index + 1] rounds suffice, and more fuel gives
    the same result. *)

Lemma fix_order_up_loop_enough fuel h index :
  index < fuel -> is_Some (fix_order_up_loop fuel h index).
Proof.
  revert h index. induction fuel as [|fuel IH]; intros h index Hlt; [lia|]. simpl.
  destruct (Nat.eqb_spec index 0); [by eauto|].
  apply IH. pose proof (PARENT_lt index). lia.
Qed.

Lemma fix_order_up_loop_mono fuel fuel' h index r :
  fuel <= fuel' -> fix_order_up_loop fuel h index = Some r ->
  fix_order_up_loop fuel' h index = Some r.
Proof.
  revert fuel' h index. induction fuel as [|fuel IH]; intros fuel' h index Hle; [done|].
  destruct fuel' as [|fuel']; [lia|]. simpl.
  destruct (index =? 0); [done|]. apply IH. lia.
Qed.

(** ** Termination of [xi_heap_fix_order_down] *)

(** A round that does not [return] swaps [index] with one of its two
    children, which is live. *)
Lemma down_body_moved h index h' index' :
  fix_order_down_body h index (bound_guard h (LEFT index) index)
    (bound_guard h (RIGHT index) index) = DownMoved h' index' ->
  (index' = LEFT index \/ index' = RIGHT index) /\ index' < first_free h /\
  h' = xi_heap_elements_swap h index index'.
Proof.
  unfold fix_order_down_body, bound_guard.
  destruct (Nat.leb_spec (first_free h) (LEFT index)),
    (Nat.leb_spec (first_free h) (RIGHT index));
    repeat match goal with |- context [Z.ltb ?x ?y] => destruct (Z.ltb_spec x y) end;
    intros Hm; inversion Hm; subst; try lia; auto.
Qed.

Lemma fix_order_down_loop_enough fuel h index :
  first_free h - index < fuel ->
  is_Some (fix_order_down_loop fuel h index (bound_guard h (LEFT index) index)
             (bound_guard h (RIGHT index) index)).
Proof.
  revert h index. induction fuel as [|fuel IH]; intros h index Hlt; [lia|]. simpl.
  destruct (fix_order_down_body _ _ _ _) as [|h' index'] eqn:Hb; [by eauto|].
  apply down_body_moved in Hb as ([-> | ->] & Hff & ->);
    (case_match; [by eauto|]); apply IH; rewrite swap_first_free;
    rewrite ?LEFT_eq, ?RIGHT_eq in *; lia.
Qed.

Lemma fix_order_down_loop_mono fuel fuel' h index li ri r :
  fuel <= fuel' -> fix_order_down_loop fuel h index li ri = Some r ->
  fix_order_down_loop fuel' h index li ri = Some r.
Proof.
  revert fuel' h index li ri. induction fuel as [|fuel IH]; intros fuel' h index li ri Hle; [done|].
  destruct fuel' as [|fuel']; [lia|]. simpl.
  destruct (fix_order_down_body _ _ _ _); [done|].
  case_match; [done|]. apply IH. lia.
Qed.

(** ** Properties closed under swaps of live slots are kept by both loops *)

Section Preserve.
Variable P : xi_heap -> Prop.
Hypothesis P_swap : forall h a b,
  P h -> a < first_free h -> b < first_free h -> P (xi_heap_elements_swap h a b).

Lemma fix_order_up_loop_preserves fuel h index r :
  P h -> index < first_free h -> fix_order_up_loop fuel h index = Some r -> P r.
Proof using P_swap.
  revert h index. induction fuel as [|fuel IH]; intros h index HP Hi; simpl; [done|].
  destruct (Nat.eqb_spec index 0); [congruence|].
  pose proof (PARENT_lt index ltac:(lia)).
  case_match; apply IH; rewrite ?swap_first_free; auto with lia.
Qed.

Lemma fix_order_up_preserves h index :
  P h -> index < first_free h -> P (xi_heap_fix_order_up h index).
Proof using P_swap.
  intros HP Hi. unfold xi_heap_fix_order_up.
  destruct (fix_order_up_loop _ _ _) eqn:E; eauto using fix_order_up_loop_preserves.
Qed.

Lemma fix_order_down_loop_preserves fuel h index r :
  P h -> index < first_free h ->
  fix_order_down_loop fuel h index (bound_guard h (LEFT index) index)
    (bound_guard h (RIGHT index) index) = Some r -> P r.
Proof using P_swap.
  revert h index. induction fuel as [|fuel IH]; intros h index HP Hi; simpl; [done|].
  destruct (fix_order_down_body _ _ _ _) as [|h' index'] eqn:Hb; [congruence|].
  apply down_body_moved in Hb as (_ & Hff & ->).
  case_match; [intros [= <-]; auto|].
  apply IH; rewrite ?swap_first_free; auto.
Qed.

Lemma fix_order_down_preserves h index :
  P h -> index < first_free h -> P (xi_heap_fix_order_down h index).
Proof using P_swap.
  intros HP Hi. unfold xi_heap_fix_order_down.
  destruct (fix_order_down_loop _ _ _ _ _) eqn:E; eauto using fix_order_down_loop_preserves.
Qed.
End Preserve.

(** ** Swap-closed properties used by the operations *)

Lemma wf_swap_closed h a b :
  heap_wf h -> a < first_free h -> b < first_free h -> heap_wf (xi_heap_elements_swap h a b).
Proof. apply swap_wf. Qed.

(** The live contents of a heap, as a multiset. *)
Lemma live_swap_perm h a b :
  heap_wf h -> a < first_free h -> b < first_free h ->
  live (xi_heap_elements_swap h a b) ≡ₚ live h.
Proof.
  intros Hwf Ha Hb. pose proof (wf_first_free _ Hwf). pose proof (wf_elements_len _ Hwf).
  unfold live. rewrite swap_first_free.
  rewrite (map_ext _ (fun k => slot_kv h (transp a b k))).
  - apply map_transp_seq_perm; lia.
  - intros k. apply swap_slot_kv; lia.
Qed.

(** Slots at or past [first_free], and the keys and payloads of all
    objects, are left alone by swaps of live slots. *)
Definition frozen (h0 h : xi_heap) : Prop :=
  heap_wf h /\ first_free h = first_free h0 /\
  (forall k, first_free h0 <= k -> elements h !! k = elements h0 !! k) /\
  (forall p, (fun e => (key e, heap_value_of e)) <$> store h !! p =
             (fun e => (key e, heap_value_of e)) <$> store h0 !! p).

Lemma frozen_swap_closed h0 h a b :
  frozen h0 h -> a < first_free h -> b < first_free h -> frozen h0 (xi_heap_elements_swap h a b).
Proof.
  intros (Hwf & Hff & Hel & Hst) Ha Hb. pose proof (wf_first_free _ Hwf).
  pose proof (wf_elements_len _ Hwf).
  split_and!; [by apply wf_swap_closed|by rewrite swap_first_free| |].
  - intros k Hk. rewrite swap_elements, transp_other by lia. auto.
  - intros p. rewrite swap_store_proj by lia. auto.
Qed.

Lemma frozen_refl h : heap_wf h -> frozen h h.
Proof. intros Hwf. by split_and!. Qed.

Lemma fix_order_up_frozen h index :
  heap_wf h -> index < first_free h -> frozen h (xi_heap_fix_order_up h index).
Proof.
  intros Hwf Hi. apply (fix_order_up_preserves (frozen h)); auto using frozen_refl.
  intros ???. apply frozen_swap_closed.
Qed.

Lemma fix_order_down_frozen h index :
  heap_wf h -> index < first_free h -> frozen h (xi_heap_fix_order_down h index).
Proof.
  intros Hwf Hi. apply (fix_order_down_preserves (frozen h)); auto using frozen_refl.
  intros ???. apply frozen_swap_closed.
Qed.

Lemma fix_order_up_live h index :
  heap_wf h -> index < first_free h -> live (xi_heap_fix_order_up h index) ≡ₚ live h.
Proof.
  intros Hwf Hi.
  apply (fix_order_up_preserves (fun h' => heap_wf h' /\ live h' ≡ₚ live h)); auto.
  intros h' a b [Hwf' Hl] Ha Hb. split; [by apply wf_swap_closed|].
  by rewrite live_swap_perm.
Qed.

Lemma fix_order_down_live h index :
  heap_wf h -> index < first_free h -> live (xi_heap_fix_order_down h index) ≡ₚ live h.
Proof.
  intros Hwf Hi.
  apply (fix_order_down_preserves (fun h' => heap_wf h' /\ live h' ≡ₚ live h)); auto.
  intros h' a b [Hwf' Hl] Ha Hb. split; [by apply wf_swap_closed|].
  by rewrite live_swap_perm.
Qed.

(** ** Insertion, before the repair: the element written to the first free
    slot's object *)

Section AddStore.
Variables (h : xi_heap) (k : Z) (v : heap_value) (p : nat).
Hypotheses (Hwf : heap_wf h) (Hff : first_free h < capacity h)
  (Hp : elements h !! first_free h = Some p).

Definition add_store : xi_heap :=
  mk_heap (elements h) (<[p:=mk_element (first_free h) k v]> (store h))
    (capacity h) (first_free h + 1).

Lemma add_store_other i q : elements h !! i = Some q -> i <> first_free h -> p <> q.
Proof using Hwf Hff Hp. intros Hi Hne <-. apply Hne. eapply NoDup_lookup; eauto using wf_nodup. Qed.

Lemma add_store_wf : heap_wf add_store.
Proof using Hwf Hff Hp.
  destruct (wf_store_some h _ _ Hwf Hp) as [e He].
  constructor; simpl; try apply Hwf.
  - rewrite length_insert. apply Hwf.
  - intros i q Hlt Hi. unfold add_store, obj_index in *. simpl in *.
    destruct (decide (i = first_free h)) as [->|Hne].
    + rewrite Hp in Hi. injection Hi as <-.
      rewrite list_lookup_insert_eq; [done|]. apply lookup_lt_is_Some_1. eauto.
    + rewrite list_lookup_insert_ne by (eapply add_store_other; eauto).
      assert (i < first_free h) by lia. by apply (wf_index _ Hwf).
  - pose proof (wf_first_free _ Hwf). lia.
Qed.

Lemma add_store_live : live add_store = live h ++ [(k, v)].
Proof using Hwf Hff Hp.
  destruct (wf_store_some h _ _ Hwf Hp) as [e He].
  unfold live. simpl. rewrite seq_app, map_app. simpl. f_equal.
  - apply map_ext_in. intros i Hi. apply in_seq in Hi.
    unfold slot_kv, obj_at. simpl.
    destruct (elements h !! i) as [q|] eqn:Hq; simpl; [|done].
    rewrite list_lookup_insert_ne by (eapply add_store_other; eauto; lia). done.
  - unfold slot_kv, obj_at. simpl. rewrite Hp. simpl.
    rewrite list_lookup_insert_eq; [done|]. apply lookup_lt_is_Some_1. eauto.
Qed.

Lemma add_store_key_at i : i < first_free h -> key_at add_store i = key_at h i.
Proof using Hwf Hff Hp.
  intros Hi. unfold key_at, obj_key. simpl.
  destruct (elements h !! i) as [q|] eqn:Hq; [|done].
  rewrite list_lookup_insert_ne by (eapply add_store_other; eauto; lia). done.
Qed.

Lemma add_store_key_last : key_at add_store (first_free h) = k.
Proof using Hwf Hff Hp.
  destruct (wf_store_some h _ _ Hwf Hp) as [e He].
  unfold key_at, obj_key. simpl. rewrite Hp.
  rewrite list_lookup_insert_eq; [done|]. apply lookup_lt_is_Some_1. eauto.
Qed.
End AddStore.

Lemma add_value_unfold h k v :
  heap_wf h -> first_free h < capacity h ->
  exists p, elements h !! first_free h = Some p /\
    xi_heap_element_add_value h k v =
      XOk (Some (xi_heap_fix_order_up (add_store h k v p) (first_free h), p)).
Proof.
  intros Hwf Hff. destruct (wf_slot_some h (first_free h) Hwf Hff) as [p Hp].
  exists p. split; [done|]. unfold xi_heap_element_add_value.
  destruct (Nat.ltb_spec (capacity h) (first_free h)); [lia|]. by rewrite Hp.
Qed.

(** Structure after an insertion with room left: the invariant holds, one
    more slot is live, the live contents gained exactly [(k, v)], and the
    returned pointer names an object holding [(k, v)]. *)
Lemma add_structure h k v :
  heap_wf h -> first_free h < capacity h ->
  exists h' p, xi_heap_element_add_value h k v = XOk (Some (h', p)) /\
    heap_wf h' /\ first_free h' = first_free h + 1 /\
    live h' ≡ₚ (k, v) :: live h /\
    (fun e => (key e, heap_value_of e)) <$> store h' !! p = Some (k, v).
Proof.
  intros Hwf Hff. destruct (add_value_unfold h k v Hwf Hff) as (p & Hp & ->).
  pose proof (add_store_wf h k v p Hwf Hff Hp) as Hwf1.
  assert (first_free h < first_free (add_store h k v p)) by (simpl; lia).
  destruct (fix_order_up_frozen _ _ Hwf1 H) as (Hwf' & Hff' & _ & Hst).
  eexists _, p. split_and!; [done|done| |..].
  - rewrite Hff'. simpl. lia.
  - rewrite fix_order_up_live, add_store_live by done.
    rewrite Permutation_app_comm. done.
  - rewrite Hst. simpl. destruct (wf_store_some h _ _ Hwf Hp) as [e He].
    rewrite list_lookup_insert_eq; [done|]. apply lookup_lt_is_Some_1. eauto.
Qed.

(** ** Extraction of the root, structure *)

Lemma set_first_free_wf h n : heap_wf h -> n <= first_free h -> heap_wf (set_first_free h n).
Proof.
  intros Hwf Hn. pose proof (wf_first_free _ Hwf).
  destruct Hwf as [? ? ? ? ? Hs ?]; constructor; simpl; auto; [|lia].
  intros i p Hi. apply Hs. simpl in Hi. lia.
Qed.

Lemma set_first_free_synced h n m : synced_upto h m -> synced_upto (set_first_free h n) m.
Proof. done. Qed.

(** The repaired heap of a non-trivial extraction. *)
Definition get_top_repaired (h : xi_heap) (n : nat) : xi_heap :=
  xi_heap_fix_order_down (xi_heap_elements_swap (set_first_free h n) 0 n) 0.

Lemma get_top_unfold h n :
  first_free h = S n -> n <> 0 ->
  xi_heap_get_top h = (get_top_repaired h n, elements (get_top_repaired h n) !! n).
Proof.
  intros Hff Hn. unfold xi_heap_get_top, get_top_repaired. rewrite Hff. simpl.
  rewrite Nat.sub_0_r. destruct (Nat.eqb_spec n 0); [lia|]. done.
Qed.

Lemma get_top_single h :
  first_free h = 1 -> xi_heap_get_top h = (set_first_free h 0, elements h !! 0).
Proof. intros Hff. unfold xi_heap_get_top. by rewrite Hff. Qed.

(** Structure after extracting from a non-empty heap: the pointer of slot 0
    is returned, the invariant holds, one slot fewer is live, and the live
    contents lost exactly the root's key and payload. *)
Lemma get_top_structure h :
  heap_wf h -> 0 < first_free h ->
  exists h' p, xi_heap_get_top h = (h', Some p) /\ elements h !! 0 = Some p /\
    heap_wf h' /\ first_free h' = first_free h - 1 /\
    live h ≡ₚ slot_kv h 0 :: live h' /\
    (forall q, (fun e => (key e, heap_value_of e)) <$> store h' !! q =
               (fun e => (key e, heap_value_of e)) <$> store h !! q).
Proof.
  intros Hwf Hpos. pose proof (wf_first_free _ Hwf). pose proof (wf_elements_len _ Hwf).
  destruct (wf_slot_some h 0 Hwf ltac:(lia)) as [p Hp].
  destruct (first_free h) as [|n] eqn:Hff; [lia|].
  destruct (decide (n = 0)) as [->|Hn].
  - rewrite get_top_single by done. exists (set_first_free h 0), p.
    split_and!; try done; try (by rewrite Hp).
    + apply set_first_free_wf; [done|lia].
    + unfold live. simpl. rewrite Hff. done.
  - rewrite (get_top_unfold h n) by done. unfold get_top_repaired.
    remember (set_first_free h n) as h1 eqn:Eh1.
    assert (Hc1 : capacity h1 = capacity h) by (by subst).
    assert (He1 : elements h1 = elements h) by (by subst).
    assert (Hf1 : first_free h1 = n) by (by subst).
    assert (Hwf1 : heap_wf h1) by (subst; apply set_first_free_wf; [done|lia]).
    assert (Hwf2 : heap_wf (xi_heap_elements_swap h1 0 n)).
    { apply (swap_wf_gen h1 (S n)); [done| |lia..].
      subst h1. rewrite <- Hff. apply set_first_free_synced, wf_index, Hwf. }
    assert (Hff2 : first_free (xi_heap_elements_swap h1 0 n) = n) by (by rewrite swap_first_free).
    destruct (fix_order_down_frozen (xi_heap_elements_swap h1 0 n) 0 Hwf2 ltac:(lia))
      as (Hwf3 & Hff3 & Hel3 & Hst3).
    exists (xi_heap_fix_order_down (xi_heap_elements_swap h1 0 n) 0), p.
    split_and!; [|done|done|..].
    + f_equal. rewrite Hel3 by lia. rewrite swap_elements by (rewrite He1; lia).
      rewrite transp_r, He1. done.
    + rewrite Hff3. lia.
    + rewrite fix_order_down_live by (done || lia).
      unfold live at 1. rewrite Hff.
      rewrite <- (map_transp_seq_perm (slot_kv h) 0 n (S n)) by lia.
      rewrite (map_ext _ (slot_kv (xi_heap_elements_swap h1 0 n)))
        by (intros k; rewrite swap_slot_kv by (rewrite He1; lia); subst h1; reflexivity).
      rewrite seq_S, map_app. simpl.
      rewrite swap_slot_kv, transp_r by (rewrite He1; lia).
      unfold live. rewrite Hff2, Permutation_app_comm. by subst h1.
    + intros q. rewrite Hst3, swap_store_proj by (rewrite He1; lia). by subst h1.
Qed.

(** The pointer [xi_heap_get_top] returns is the one left in the slot just
    past the live region, as [return *last_e] reads it. *)
Lemma get_top_returns_last_slot h h' p :
  xi_heap_get_top h = (h', Some p) -> elements h' !! first_free h' = Some p.
Proof.
  unfold xi_heap_get_top.
  destruct (Nat.eqb_spec (first_free h) 0); [congruence|].
  destruct (Nat.eqb_spec (first_free h - 1) 0) as [E|E]; simpl.
  - intros [= <- <-]. simpl. by rewrite E.
  - intros [= <- <-]. f_equal.
    apply (fix_order_down_preserves (fun h2 => first_free h2 = first_free h - 1)).
    + intros ???? _ _. by rewrite swap_first_free.
    + by rewrite swap_first_free.
    + rewrite swap_first_free. simpl. lia.
Qed.

(** A freshly created heap satisfies the invariant and is empty. *)
Lemma xi_heap_create_wf cap h :
  xi_heap_create cap = XOk h -> heap_wf h /\ live h = [].
Proof.
  unfold xi_heap_create. destruct (Nat.eqb_spec cap 0); [done|]. intros [= <-].
  split; [|done]. constructor; simpl.
  - lia.
  - apply length_seq.
  - apply length_replicate.
  - apply NoDup_seq.
  - apply Forall_forall. intros x Hx. apply list_elem_of_In, in_seq in Hx. lia.
  - intros i p Hi. lia.
  - lia.
Qed.

(** ** Removal and key update keep the invariant for live handles *)

Lemma fix_order_up_wf h index :
  heap_wf h -> index < first_free h -> heap_wf (xi_heap_fix_order_up h index).
Proof. intros. apply (fix_order_up_preserves heap_wf); auto using wf_swap_closed. Qed.

Lemma fix_order_down_wf h index :
  heap_wf h -> index < first_free h -> heap_wf (xi_heap_fix_order_down h index).
Proof. intros. apply (fix_order_down_preserves heap_wf); auto using wf_swap_closed. Qed.

Lemma fix_order_up_loop_first_free fuel h index r :
  fix_order_up_loop fuel h index = Some r -> first_free r = first_free h.
Proof.
  revert h index. induction fuel as [|fuel IH]; intros h index; simpl; [done|].
  case_match; [by intros [= <-]|]. intros E. rewrite (IH _ _ E).
  case_match; auto using swap_first_free.
Qed.

Lemma fix_order_up_first_free h index :
  first_free (xi_heap_fix_order_up h index) = first_free h.
Proof.
  unfold xi_heap_fix_order_up. destruct (fix_order_up_loop _ _ _) as [r|] eqn:E; [|done].
  simpl. eauto using fix_order_up_loop_first_free.
Qed.

Lemma fix_order_down_first_free h index :
  first_free (xi_heap_fix_order_down h index) = first_free h.
Proof.
  destruct (Nat.lt_ge_cases index (first_free h)) as [Hi|Hi].
  - apply (fix_order_down_preserves (fun h' => first_free h' = first_free h)); auto.
    intros ???? _ _. by rewrite swap_first_free.
  - unfold xi_heap_fix_order_down. destruct (fix_order_down_loop _ _ _ _ _) eqn:E; [|done].
    simpl in E. unfold fix_order_down_body, bound_guard in E.
    destruct (Nat.leb_spec (first_free h) (LEFT index)); [|rewrite LEFT_eq in *; lia].
    destruct (Nat.leb_spec (first_free h) (RIGHT index)); [|rewrite RIGHT_eq in *; lia].
    rewrite Z.ltb_irrefl in E. by injection E as <-.
Qed.

Lemma remove_live_unfold h i elem :
  heap_wf h -> i < first_free h -> elements h !! i = Some elem ->
  xi_heap_element_remove h elem =
    XOk (if first_free h - 1 =? i then set_first_free h (first_free h - 1)
         else let h3 := xi_heap_fix_order_up
                          (xi_heap_fix_order_down (xi_heap_elements_swap h i (first_free h - 1)) i) i in
              set_first_free h3 (first_free h3 - 1)).
Proof.
  intros Hwf Hi Hel. assert (Hidx := wf_index _ Hwf _ _ Hi Hel).
  unfold xi_heap_element_remove. rewrite Hidx.
  destruct (Nat.eqb_spec (first_free h) 0); [lia|].
  destruct (Nat.eqb_spec (first_free h - 1) i); simpl; [done|]. by rewrite Hel, Hidx.
Qed.

Lemma remove_live_wf h i elem h' :
  heap_wf h -> i < first_free h -> elements h !! i = Some elem ->
  xi_heap_element_remove h elem = XOk h' -> heap_wf h'.
Proof.
  intros Hwf Hi Hel. rewrite (remove_live_unfold h i elem Hwf Hi Hel). intros [= <-].
  case_match; [apply set_first_free_wf; [done|lia]|].
  assert (Hwf1 : heap_wf (xi_heap_elements_swap h i (first_free h - 1))) by (apply swap_wf; [done|lia..]).
  pose proof (swap_first_free h i (first_free h - 1)).
  apply set_first_free_wf; [|lia]. apply fix_order_up_wf.
  - apply fix_order_down_wf; [done|lia].
  - rewrite fix_order_down_first_free. lia.
Qed.

Lemma update_key_live_wf h i elem k h' :
  heap_wf h -> i < first_free h -> elements h !! i = Some elem ->
  xi_heap_element_update_key h elem k = XOk h' -> heap_wf h'.
Proof.
  intros Hwf Hi Hel. unfold xi_heap_element_update_key.
  set (h1 := mk_heap (elements h) (alter (set_key k) elem (store h)) (capacity h) (first_free h)).
  assert (Hix : forall q, obj_index h1 q = obj_index h q).
  { intros q. unfold obj_index. simpl. destruct (decide (q = elem)) as [->|].
    - rewrite list_lookup_alter_eq. by destruct (store h !! elem).
    - by rewrite list_lookup_alter_ne. }
  assert (Hwf1 : heap_wf h1).
  { destruct Hwf; constructor; simpl; rewrite ?length_alter; auto.
    intros j q Hj Hq. rewrite Hix. auto. }
  rewrite !Hix, (wf_index _ Hwf _ _ Hi Hel). simpl. rewrite Hel. rewrite Hix, (wf_index _ Hwf _ _ Hi Hel).
  intros [= <-]. apply fix_order_up_wf.
  - by apply fix_order_down_wf.
  - rewrite fix_order_down_first_free. done.
Qed.

(** ** An executable check of the invariant *)

Definition heap_wfb (h : xi_heap) : bool :=
  (0 <? capacity h) && (length (elements h) =? capacity h) &&
  (length (store h) =? capacity h) && bool_decide (NoDup (elements h)) &&
  forallb (fun p => p <? capacity h) (elements h) &&
  forallb (fun i => match elements h !! i with
                    | Some p => obj_index h p =? i
                    | None => true
                    end) (seq 0 (first_free h)) &&
  (first_free h <=? capacity h).

Lemma heap_wfb_sound h : heap_wfb h = true -> heap_wf h.
Proof.
  unfold heap_wfb. intros H. rewrite !andb_true_iff in H.
  destruct H as [[[[[[H1 H2] H3] H4] H5] H6] H7].
  constructor.
  - by apply Nat.ltb_lt.
  - by apply Nat.eqb_eq.
  - by apply Nat.eqb_eq.
  - by apply bool_decide_eq_true in H4.
  - apply Forall_forall. intros p Hp. apply Nat.ltb_lt.
    rewrite forallb_forall in H5. apply H5, list_elem_of_In, Hp.
  - intros i p Hi Hp. rewrite forallb_forall in H6.
    specialize (H6 i ltac:(apply in_seq; lia)). rewrite Hp in H6. by apply Nat.eqb_eq.
  - by apply Nat.leb_le.
Qed.

(** ** A driver for sequences of operations *)

Inductive heap_op : Type :=
  | OpAdd (k : Z)
  | OpGetTop.

(** Runs the operations in order; an extraction records the key of the
    returned element at once, as the dispatcher reads it before the next
    operation. *)
Fixpoint run_heap_ops (h : xi_heap) (ops : list heap_op) : xres (xi_heap * list Z) :=
  match ops with
  | [] => XOk (h, [])
  | OpAdd k :: ops' =>
      match xi_heap_element_add h k 0 with
      | XOk (Some (h', _)) => run_heap_ops h' ops'
      | XOk None => run_heap_ops h ops'
      | XFault => XFault
      end
  | OpGetTop :: ops' =>
      match xi_heap_get_top h with
      | (h', Some p) =>
          match run_heap_ops h' ops' with
          | XOk (h'', ks) => XOk (h'', obj_key h' p :: ks)
          | XFault => XFault
          end
      | (h', None) => run_heap_ops h' ops'
      end
  end.

Definition run_from_create (cap : nat) (ops : list heap_op) : xres (xi_heap * list Z) :=
  match xi_heap_create cap with
  | XOk h => run_heap_ops h ops
  | XFault => XFault
  end.

(** The heap after a run (an empty one-slot heap when the run faults). *)
Definition heap_after (cap : nat) (ops : list heap_op) : xi_heap :=
  match run_from_create cap ops with
  | XOk (h, _) => h
  | XFault => mk_heap [0] [zero_element] 1 0
  end.

Definition live_keys (h : xi_heap) : list Z := map fst (live h).

(** ** Properties of the heap component *)

(** C19. The [LEFT], [RIGHT] and [PARENT] macros, written with shifts and
    the [+1]/[-1] rearrangement of the source, equal the textbook 0-based
    formulas [2i+1], [2i+2] and [(i-1)/2], and [PARENT] inverts both child
    formulas. *)
Theorem heap_index_calculus i :
  LEFT i = 2 * i + 1 /\ RIGHT i = 2 * i + 2 /\ PARENT (i + 1) = i / 2 /\
  PARENT (LEFT i) = i /\ PARENT (RIGHT i) = i.
Proof.
  split_and!; [apply LEFT_eq|apply RIGHT_eq| |apply PARENT_LEFT|apply PARENT_RIGHT].
  pose proof (PARENT_spec (i + 1) ltac:(lia)) as [E|E].
  - replace i with (PARENT (i + 1) * 2) at 2 by lia. by rewrite Nat.div_mul.
  - replace i with (1 + PARENT (i + 1) * 2) at 2 by lia.
    rewrite Nat.div_add by lia. simpl. lia.
Qed.

(** C20. The loop of [xi_heap_fix_order_up] started at slot [index] ends
    within [index + 1] rounds, the wrapper returns its result, and any
    larger fuel gives the same result. *)
Theorem xi_heap_fix_order_up_terminates h index :
  exists r, fix_order_up_loop (S index) h index = Some r /\
    xi_heap_fix_order_up h index = r /\
    forall fuel, index < fuel -> fix_order_up_loop fuel h index = Some r.
Proof.
  destruct (fix_order_up_loop_enough (S index) h index ltac:(lia)) as [r Hr].
  exists r. split_and!; [done|unfold xi_heap_fix_order_up; by rewrite Hr|].
  intros fuel Hfuel. destruct (fix_order_up_loop_enough fuel h index Hfuel) as [r' Hr'].
  pose proof (fix_order_up_loop_mono (S index) (S index + fuel) h index r ltac:(lia) Hr).
  pose proof (fix_order_up_loop_mono fuel (S index + fuel) h index r' ltac:(lia) Hr'). congruence.
Qed.

(** C21. The [do ... while] loop of [xi_heap_fix_order_down] started at
    slot [index] ends within [first_free - index + 1] rounds (each round
    moves [index] to a live child), the wrapper's fuel [first_free + 1]
    suffices, and any larger fuel gives the same result. *)
Theorem xi_heap_fix_order_down_terminates h index :
  let li := bound_guard h (LEFT index) index in
  let ri := bound_guard h (RIGHT index) index in
  exists r, fix_order_down_loop (S (first_free h - index)) h index li ri = Some r /\
    xi_heap_fix_order_down h index = r /\
    forall fuel, first_free h - index < fuel -> fix_order_down_loop fuel h index li ri = Some r.
Proof.
  cbv zeta.
  destruct (fix_order_down_loop_enough (S (first_free h - index)) h index ltac:(lia)) as [r Hr].
  assert (Hall : forall fuel, first_free h - index < fuel ->
            fix_order_down_loop fuel h index (bound_guard h (LEFT index) index)
              (bound_guard h (RIGHT index) index) = Some r).
  { intros fuel Hfuel. destruct (fix_order_down_loop_enough fuel h index Hfuel) as [r' Hr'].
    pose proof Hr as Hr1. pose proof Hr' as Hr1'.
    apply (fix_order_down_loop_mono _ (S (first_free h - index) + fuel)) in Hr1; [|lia].
    apply (fix_order_down_loop_mono _ (S (first_free h - index) + fuel)) in Hr1'; [|lia].
    congruence. }
  exists r. split_and!; [exact Hr| |exact Hall].
  unfold xi_heap_fix_order_down. rewrite (Hall (S (first_free h))) by lia. done.
Qed.

(** C22. Every operation that changes the heap keeps the structural
    invariant: insertion, extraction of the root, and removal and key
    update of an element that is live. *)
Theorem xi_heap_ops_preserve_wf h :
  heap_wf h ->
  (forall k v h' p, xi_heap_element_add_value h k v = XOk (Some (h', p)) -> heap_wf h') /\
  heap_wf (fst (xi_heap_get_top h)) /\
  (forall i elem h', i < first_free h -> elements h !! i = Some elem ->
     xi_heap_element_remove h elem = XOk h' -> heap_wf h') /\
  (forall i elem k h', i < first_free h -> elements h !! i = Some elem ->
     xi_heap_element_update_key h elem k = XOk h' -> heap_wf h').
Proof.
  intros Hwf. pose proof (wf_first_free _ Hwf). split_and!.
  - intros k v h' p Hadd. destruct (Nat.lt_ge_cases (first_free h) (capacity h)).
    + destruct (add_structure h k v Hwf ltac:(done)) as (h'' & p' & Hadd' & Hwf'' & _).
      rewrite Hadd in Hadd'. by injection Hadd' as -> ->.
    + unfold xi_heap_element_add_value in Hadd.
      rewrite (proj2 (lookup_ge_None _ _)) in Hadd by (rewrite (wf_elements_len _ Hwf); lia).
      by destruct (Nat.ltb_spec (capacity h) (first_free h)).
  - destruct (decide (first_free h = 0)) as [E|E].
    + unfold xi_heap_get_top. rewrite E. done.
    + destruct (get_top_structure h Hwf ltac:(lia)) as (h' & p & -> & _ & Hwf' & _). done.
  - intros i elem h' Hi Hel. by apply (remove_live_wf h i elem h').
  - intros i elem k h' Hi Hel. by apply (update_key_live_wf h i elem k h').
Qed.

Lemma xi_heap_ops_preserve_wf_witness :
  heap_wf (heap_after 8 (map OpAdd [3; 1; 2]%Z)) /\
  heap_wf (fst (xi_heap_get_top (heap_after 8 (map OpAdd [3; 1; 2]%Z)))).
Proof.
  assert (Hwf : heap_wf (heap_after 8 (map OpAdd [3; 1; 2]%Z)))
    by (apply heap_wfb_sound; vm_compute; reflexivity).
  split; [exact Hwf|]. exact (proj1 (proj2 (xi_heap_ops_preserve_wf _ Hwf))).
Defined.

(** [xi_heap_create] with a non-zero capacity gives a heap that
    satisfies the invariant and has no live element; capacity 0 fails the
    precondition [assert( capacity != 0 )]. *)
Theorem xi_heap_create_correct cap :
  (cap = 0 -> xi_heap_create cap = XFault) /\
  (cap <> 0 -> exists h, xi_heap_create cap = XOk h /\ heap_wf h /\ live h = [] /\
                          capacity h = cap).
Proof.
  split.
  - intros ->. done.
  - intros Hcap. destruct (xi_heap_create cap) as [h|] eqn:E.
    + exists h. destruct (xi_heap_create_wf cap h E) as [Hwf Hl]. split_and!; try done.
      unfold xi_heap_create in E. destruct (Nat.eqb_spec cap 0); [lia|]. by injection E as <-.
    + unfold xi_heap_create in E. destruct (Nat.eqb_spec cap 0); [lia|done].
Qed.

Lemma xi_heap_create_correct_witness :
  exists h, xi_heap_create 4 = XOk h /\ heap_wf h /\ live h = [] /\ capacity h = 4.
Proof. exact (proj2 (xi_heap_create_correct 4) ltac:(lia)). Defined.

(** The slots of a well-formed heap hold every element object exactly once. *)
Lemma elements_perm_seq h : heap_wf h -> elements h ≡ₚ seq 0 (capacity h).
Proof.
  intros Hwf. apply NoDup_Permutation; [apply Hwf|apply NoDup_seq|].
  assert (Hin : forall x, x ∈ elements h -> x ∈ seq 0 (capacity h)).
  { intros x Hx. apply list_elem_of_In, in_seq. split; [lia|].
    pose proof (wf_ptr h Hwf) as Hp. rewrite Forall_forall in Hp. by apply Hp. }
  assert (Hincl : incl (seq 0 (capacity h)) (elements h)).
  { apply NoDup_length_incl; [apply NoDup_ListNoDup, Hwf| |].
    - rewrite length_seq, (wf_elements_len h Hwf). lia.
    - intros y Hy. apply list_elem_of_In, Hin, list_elem_of_In, Hy. }
  intros x. split; [apply Hin|]. intros Hx. apply list_elem_of_In, Hincl. by apply list_elem_of_In.
Qed.

(** C18. [xi_heap_destroy] of a well-formed heap (every heap the
    operations reach from [xi_heap_create], by C22) frees every element
    object exactly once: no object is freed twice and none is leaked,
    whatever the operations did to the slots. *)
Theorem xi_heap_destroy_frees_all h :
  heap_wf h ->
  exists freed, xi_heap_destroy h = XOk freed /\ freed ≡ₚ seq 0 (capacity h) /\ NoDup freed.
Proof.
  intros Hwf. pose proof (wf_cap h Hwf). pose proof (wf_elements_len h Hwf) as Hl.
  unfold xi_heap_destroy. rewrite (proj2 (Nat.eqb_neq _ _)) by lia.
  rewrite (proj2 (Nat.ltb_ge _ _)) by lia. rewrite take_ge by lia.
  eexists. split_and!; [reflexivity|by apply elements_perm_seq|apply Hwf].
Qed.

Lemma xi_heap_destroy_frees_all_witness :
  exists freed, xi_heap_destroy (fst (xi_heap_get_top (heap_after 8 (map OpAdd [3; 1; 2]%Z)))) = XOk freed /\
    freed ≡ₚ seq 0 (capacity (fst (xi_heap_get_top (heap_after 8 (map OpAdd [3; 1; 2]%Z))))) /\ NoDup freed.
Proof. apply xi_heap_destroy_frees_all. apply heap_wfb_sound. vm_compute. reflexivity. Defined.
