(* ===== verification/HeapOrder.v ===== *)
(** * Heap order: what the two repair loops establish

    The order is stated on a key function [f : nat -> Z] over the slots
    [0 .. n): every non-root slot's key is at least its parent's.  The
    sift-up invariant [up_inv] and the sift-down invariant [down_inv] are
    the usual "ordered except around one slot, with the grandparent
    condition", stated pointwise; both are [Proper] for pointwise equality
    of key functions, which is how a swap of two slots (a transposition of
    the key function, [swap_key_at]) is rewritten.

    The results: [xi_heap_fix_order_up] restores the order after an
    insertion; [xi_heap_fix_order_down] establishes the order everywhere
    except possibly on the edge into the last slot when the live size is
    even (the slot [n - 1] is then a left child without a sibling, and the
    loop's exit test [index != li && index != ri] stops at its parent
    before comparing them). *)

From S2P Require Import Prelude Heap HeapFacts.
From Stdlib Require Import Morphisms.
Import Heap.

(** ** Order predicates on key functions *)

Definition ordered_except (f : nat -> Z) (n x : nat) : Prop :=
  forall i, 0 < i < n -> i <> x -> (f (PARENT i) <= f i)%Z.

Definition ordered (f : nat -> Z) (n : nat) : Prop := ordered_except f n n.

Definition heap_ordered (h : xi_heap) : Prop := ordered (key_at h) (first_free h).

(** The slot whose edge to its parent the code's sift-down may leave
    unordered: [n - 1] when [n] is even, none ([n]) when [n] is odd. *)
Definition lone_child (n : nat) : nat := if Nat.even n then n - 1 else n.

Definition up_inv (f : nat -> Z) (n j : nat) : Prop :=
  (forall i, 0 < i < n -> i <> j -> (f (PARENT i) <= f i)%Z) /\
  (forall c, 0 < c < n -> PARENT c = j -> 0 < j -> (f (PARENT j) <= f c)%Z).

Definition down_inv (f : nat -> Z) (n j : nat) : Prop :=
  (forall i, 0 < i < n -> PARENT i <> j -> (f (PARENT i) <= f i)%Z) /\
  (forall c, 0 < c < n -> PARENT c = j -> 0 < j -> (f (PARENT j) <= f c)%Z).

#[export] Instance ordered_except_proper :
  Proper (pointwise_relation nat eq ==> eq ==> eq ==> iff) ordered_except.
Proof. intros f g Hfg ? n -> ? x ->. unfold ordered_except. by setoid_rewrite Hfg. Qed.

#[export] Instance up_inv_proper :
  Proper (pointwise_relation nat eq ==> eq ==> eq ==> iff) up_inv.
Proof. intros f g Hfg ? n -> ? j ->. unfold up_inv. by setoid_rewrite Hfg. Qed.

#[export] Instance down_inv_proper :
  Proper (pointwise_relation nat eq ==> eq ==> eq ==> iff) down_inv.
Proof. intros f g Hfg ? n -> ? j ->. unfold down_inv. by setoid_rewrite Hfg. Qed.

Lemma ordered_ordered_except f n x : ordered f n -> ordered_except f n x.
Proof. intros Ho i Hi _. apply Ho; lia. Qed.

(** The root holds a minimal key. *)
Lemma ordered_root_min f n i : ordered f n -> i < n -> (f 0%nat <= f i)%Z.
Proof.
  intros Ho. induction i as [i IH] using lt_wf_ind. intros Hi.
  destruct (decide (i = 0)) as [->|Hne]; [lia|].
  pose proof (PARENT_lt i ltac:(lia)).
  specialize (IH (PARENT i) ltac:(done) ltac:(lia)). specialize (Ho i ltac:(lia) ltac:(lia)). lia.
Qed.

(** ** Sift-up *)

Lemma ordered_up_inv f n j : ordered f n -> up_inv f n j.
Proof.
  intros Ho. split; [intros i Hi _; apply Ho; lia|].
  intros c Hc Hcj Hj. pose proof (PARENT_lt c ltac:(lia)).
  pose proof (Ho j ltac:(lia) ltac:(lia)). pose proof (Ho c ltac:(lia) ltac:(lia)). subst. lia.
Qed.

Lemma up_inv_root f n : up_inv f n 0 -> ordered f n.
Proof. intros [H _] i Hi _. apply H; lia. Qed.

Lemma up_inv_stop f n j : up_inv f n j -> ~ (f j < f (PARENT j))%Z -> ordered f n.
Proof. intros [H _] Hn i Hi _. destruct (decide (i = j)) as [->|]; [lia|]. apply H; lia. Qed.

(** Swapping slot [j] with its parent when its key is smaller moves the
    invariant one level up. *)
Lemma up_inv_swap f n j :
  up_inv f n j -> 0 < j < n -> (f j < f (PARENT j))%Z ->
  up_inv (fun k => f (transp j (PARENT j) k)) n (PARENT j).
Proof.
  intros [Hord Hgp] Hj Hlt. set (p := PARENT j) in *.
  assert (p < j) by (apply PARENT_lt; lia).
  split.
  - intros i Hi Hip. destruct (decide (i = j)) as [->|Hij].
    { rewrite transp_l. fold p. rewrite transp_r. lia. }
    rewrite (transp_other j p i) by done.
    destruct (decide (PARENT i = j)) as [Hpj|Hpj].
    { rewrite Hpj, transp_l. apply Hgp; lia. }
    destruct (decide (PARENT i = p)) as [Hpp|Hpp].
    { rewrite Hpp, transp_r. specialize (Hord i Hi Hij). rewrite Hpp in Hord. lia. }
    rewrite transp_other by done. apply Hord; lia.
  - intros c Hc Hcp Hp. pose proof (PARENT_lt p Hp).
    rewrite (transp_other j p (PARENT p)) by lia.
    destruct (decide (c = j)) as [->|Hcj].
    + rewrite transp_l. apply Hord; lia.
    + pose proof (PARENT_lt c ltac:(lia)). rewrite transp_other by lia.
      pose proof (Hord c Hc Hcj). pose proof (Hord p ltac:(lia) ltac:(lia)).
      rewrite Hcp in *. lia.
Qed.

(** ** Swaps on the concrete heap transpose its key function *)

Lemma swap_key_at_pw h a b :
  heap_wf h -> a < capacity h -> b < capacity h ->
  pointwise_relation nat eq (key_at (xi_heap_elements_swap h a b))
    (fun k => key_at h (transp a b k)).
Proof.
  intros Hwf Ha Hb k. pose proof (wf_elements_len _ Hwf). apply swap_key_at; lia.
Qed.

(** ** [xi_heap_fix_order_up] restores the order *)

Lemma fix_order_up_loop_ordered fuel h j r :
  heap_wf h -> j < first_free h -> up_inv (key_at h) (first_free h) j ->
  fix_order_up_loop fuel h j = Some r -> heap_ordered r.
Proof.
  revert h j. induction fuel as [|fuel IH]; intros h j Hwf Hj Hinv; simpl; [done|].
  pose proof (wf_first_free _ Hwf).
  destruct (Nat.eqb_spec j 0) as [->|Hj0].
  { intros [= <-]. by apply up_inv_root. }
  pose proof (PARENT_lt j ltac:(lia)).
  destruct (Z.ltb_spec (key_at h j) (key_at h (PARENT j))) as [Hlt|Hge].
  - apply IH; rewrite ?swap_first_free; [apply wf_swap_closed; [done|lia..]|lia|].
    rewrite swap_key_at_pw by (done || lia). by apply up_inv_swap; [|lia|].
  - apply IH; [done|lia|]. apply ordered_up_inv. eapply up_inv_stop; [done|lia].
Qed.

Lemma fix_order_up_ordered h j :
  heap_wf h -> j < first_free h -> up_inv (key_at h) (first_free h) j ->
  heap_ordered (xi_heap_fix_order_up h j).
Proof.
  intros Hwf Hj Hinv. unfold xi_heap_fix_order_up.
  destruct (fix_order_up_loop_enough (S j) h j ltac:(lia)) as [r Hr].
  rewrite Hr. simpl. eauto using fix_order_up_loop_ordered.
Qed.

(** An ordered heap with one element appended at [first_free] satisfies
    the sift-up invariant at that slot. *)
Lemma add_store_up_inv h k v p :
  heap_wf h -> heap_ordered h -> first_free h < capacity h ->
  elements h !! first_free h = Some p ->
  up_inv (key_at (add_store h k v p)) (first_free h + 1) (first_free h).
Proof.
  intros Hwf Ho Hff Hp. split.
  - intros i Hi Hne. pose proof (PARENT_lt i ltac:(lia)).
    rewrite !add_store_key_at by (done || lia). apply Ho; lia.
  - intros c Hc Hcp _. pose proof (proj1 (PARENT_child c _ ltac:(lia)) Hcp) as Hch.
    rewrite LEFT_eq, RIGHT_eq in Hch. lia.
Qed.

(** ** Insertion *)

(** Insertion into an ordered heap leaves it ordered. *)
Lemma add_value_ordered h k v h' p :
  heap_wf h -> heap_ordered h -> first_free h < capacity h ->
  xi_heap_element_add_value h k v = XOk (Some (h', p)) -> heap_ordered h'.
Proof.
  intros Hwf Ho Hff Hadd.
  destruct (add_value_unfold h k v Hwf Hff) as (p' & Hp' & Hadd').
  rewrite Hadd in Hadd'. injection Hadd' as -> ->.
  apply fix_order_up_ordered.
  - by apply add_store_wf.
  - simpl. lia.
  - simpl. by apply add_store_up_inv.
Qed.

(** C1. [xi_heap_element_add] (and [_add_void]) into a well-formed, ordered
    heap with a free slot succeeds; the result is well formed and ordered,
    has one more live slot, its live contents are the old ones plus the new
    (key, payload), and the returned handle names an object holding them. *)
Theorem xi_heap_element_add_correct h k v :
  heap_wf h -> heap_ordered h -> first_free h < capacity h ->
  exists h' p, xi_heap_element_add_value h k v = XOk (Some (h', p)) /\
    heap_wf h' /\ heap_ordered h' /\ first_free h' = first_free h + 1 /\
    live h' ≡ₚ (k, v) :: live h /\
    (fun e => (key e, heap_value_of e)) <$> store h' !! p = Some (k, v).
Proof.
  intros Hwf Ho Hff.
  destruct (add_structure h k v Hwf Hff) as (h' & p & Hadd & Hwf' & Hff' & Hlive & Hst).
  exists h', p. split_and!; try done. exact (add_value_ordered h k v h' p Hwf Ho Hff Hadd).
Qed.

(** ** Sift-down *)

Lemma PARENT_2j1 j : PARENT (2 * j + 1) = j.
Proof. rewrite <- LEFT_eq. apply PARENT_LEFT. Qed.

Lemma PARENT_2j2 j : PARENT (2 * j + 2) = j.
Proof. rewrite <- RIGHT_eq. apply PARENT_RIGHT. Qed.

Lemma child_cases c j : 0 < c -> PARENT c = j -> c = 2 * j + 1 \/ c = 2 * j + 2.
Proof. intros Hc Hp. apply PARENT_child in Hp; [|done]. by rewrite LEFT_eq, RIGHT_eq in Hp. Qed.

(** One round of the [do] body, on the key function: it returns only when
    no live child has a smaller key, and otherwise swaps with a live child
    whose key is smaller than the parent's and minimal among the children
    (ties go right). *)
Lemma down_body_order h j :
  j < first_free h ->
  match fix_order_down_body h j (bound_guard h (LEFT j) j) (bound_guard h (RIGHT j) j) with
  | DownReturn => forall c, 0 < c < first_free h -> PARENT c = j ->
      (key_at h j <= key_at h c)%Z
  | DownMoved h' m => PARENT m = j /\ 0 < m < first_free h /\
      (key_at h m < key_at h j)%Z /\
      (forall c, 0 < c < first_free h -> PARENT c = j -> (key_at h m <= key_at h c)%Z) /\
      h' = xi_heap_elements_swap h j m
  end.
Proof.
  intros Hj. unfold fix_order_down_body, bound_guard. rewrite LEFT_eq, RIGHT_eq.
  destruct (Nat.leb_spec (first_free h) (2 * j + 1)),
    (Nat.leb_spec (first_free h) (2 * j + 2));
    repeat match goal with |- context [Z.ltb ?x ?y] => destruct (Z.ltb_spec x y) end;
    try lia;
    try (intros c Hc Hcp; destruct (child_cases c j ltac:(lia) Hcp); subst c; lia);
    split_and!; first [apply PARENT_2j1 | apply PARENT_2j2 | lia | done |
      intros c Hc Hcp; destruct (child_cases c j ltac:(lia) Hcp); subst c; lia].
Qed.

Lemma down_inv_stop f n j :
  down_inv f n j -> (forall c, 0 < c < n -> PARENT c = j -> (f j <= f c)%Z) -> ordered f n.
Proof.
  intros [H _] Hc i Hi _. destruct (decide (PARENT i = j)) as [<-|]; [apply Hc; lia|].
  apply H; lia.
Qed.

(** Swapping [j] with the chosen child [m] moves the invariant to [m]. *)
Lemma down_inv_swap f n j m :
  down_inv f n j -> PARENT m = j -> 0 < m < n -> (f m < f j)%Z ->
  (forall c, 0 < c < n -> PARENT c = j -> (f m <= f c)%Z) ->
  down_inv (fun k => f (transp j m k)) n m.
Proof.
  intros [Hord Hgp] Hmj Hm Hlt Hmin.
  assert (j < m) by (rewrite <- Hmj; apply PARENT_lt; lia).
  split.
  - intros i Hi Hpi. destruct (decide (i = m)) as [->|Him].
    { rewrite Hmj, transp_l, transp_r. lia. }
    destruct (decide (i = j)) as [->|Hij].
    { pose proof (PARENT_lt j ltac:(lia)).
      rewrite transp_l, transp_other by lia. apply Hgp; lia. }
    rewrite (transp_other j m i) by done.
    destruct (decide (PARENT i = j)) as [Hpj|Hpj].
    { rewrite Hpj, transp_l. apply Hmin; lia. }
    rewrite transp_other by done. apply Hord; lia.
  - intros c Hc Hcm _. pose proof (PARENT_lt c ltac:(lia)).
    rewrite Hmj, transp_l, transp_other by lia.
    specialize (Hord c Hc ltac:(lia)). rewrite Hcm in Hord. lia.
Qed.

(** The loop's exit test fires at [m] when [m] has no right child: the
    only edge it can leave unordered is the one into the lone left child,
    which exists exactly when [n] is even. *)
Lemma down_inv_exit f n m :
  down_inv f n m -> n <= RIGHT m -> ordered_except f n (lone_child n).
Proof.
  intros [Hord _] Hn i Hi Hlone. rewrite RIGHT_eq in Hn.
  destruct (decide (PARENT i = m)) as [Hp|]; [|apply Hord; lia].
  destruct (child_cases i m ltac:(lia) Hp); [|lia].
  exfalso. apply Hlone. unfold lone_child.
  replace n with (2 * (m + 1)) by lia. rewrite Nat.even_mul. simpl. lia.
Qed.

Lemma fix_order_down_loop_ordered fuel h j r :
  heap_wf h -> j < first_free h -> down_inv (key_at h) (first_free h) j ->
  fix_order_down_loop fuel h j (bound_guard h (LEFT j) j) (bound_guard h (RIGHT j) j) = Some r ->
  ordered_except (key_at r) (first_free r) (lone_child (first_free r)).
Proof.
  revert h j. induction fuel as [|fuel IH]; intros h j Hwf Hj Hinv; simpl; [done|].
  pose proof (wf_first_free _ Hwf).
  pose proof (down_body_order h j Hj) as Hbody.
  destruct (fix_order_down_body _ _ _ _) as [|h' m].
  { intros [= <-]. apply ordered_ordered_except. by eapply down_inv_stop. }
  destruct Hbody as (Hmj & Hm & Hlt & Hmin & ->).
  assert (Hwf' : heap_wf (xi_heap_elements_swap h j m)) by (apply wf_swap_closed; [done|lia..]).
  assert (Hinv' : down_inv (key_at (xi_heap_elements_swap h j m))
                    (first_free (xi_heap_elements_swap h j m)) m).
  { rewrite swap_first_free, swap_key_at_pw by (done || lia). by apply down_inv_swap. }
  unfold bound_guard. rewrite swap_first_free in *. rewrite LEFT_eq, RIGHT_eq.
  destruct (Nat.leb_spec (first_free h) (2 * m + 1)), (Nat.leb_spec (first_free h) (2 * m + 2));
    simpl; rewrite ?Nat.eqb_refl; bool_cases; try lia; simpl.
  - intros [= <-]. rewrite swap_first_free. apply (down_inv_exit _ _ m); [done|].
    rewrite RIGHT_eq. lia.
  - intros [= <-]. rewrite swap_first_free. apply (down_inv_exit _ _ m); [done|].
    rewrite RIGHT_eq. lia.
  - intros Hr. apply (IH _ m Hwf'); rewrite ?swap_first_free; [lia|done|].
    unfold bound_guard. rewrite swap_first_free, LEFT_eq, RIGHT_eq.
    bool_cases; try lia. done.
Qed.

Lemma fix_order_down_ordered h j :
  heap_wf h -> j < first_free h -> down_inv (key_at h) (first_free h) j ->
  ordered_except (key_at (xi_heap_fix_order_down h j))
    (first_free (xi_heap_fix_order_down h j))
    (lone_child (first_free (xi_heap_fix_order_down h j))).
Proof.
  intros Hwf Hj Hinv. unfold xi_heap_fix_order_down.
  destruct (fix_order_down_loop_enough (S (first_free h)) h j ltac:(lia)) as [r Hr].
  rewrite Hr. simpl. eauto using fix_order_down_loop_ordered.
Qed.

(** ** Extraction of the root *)

Lemma key_at_slot_kv h i : key_at h i = fst (slot_kv h i).
Proof.
  unfold key_at, slot_kv, obj_at, obj_key.
  destruct (elements h !! i); simpl; [|done]. by destruct (store h !! _).
Qed.

(** Swapping the root with the last live slot and shrinking the heap by one
    leaves the sift-down invariant at the root. *)
Lemma get_top_down_inv h n :
  heap_wf h -> heap_ordered h -> first_free h = S n -> n <> 0 ->
  down_inv (key_at (xi_heap_elements_swap (set_first_free h n) 0 n))
    (first_free (xi_heap_elements_swap (set_first_free h n) 0 n)) 0.
Proof.
  intros Hwf Ho Hff Hn. pose proof (wf_first_free _ Hwf).
  assert (Hwf1 : heap_wf (set_first_free h n)) by (apply set_first_free_wf; [done|lia]).
  rewrite swap_first_free, swap_key_at_pw by (done || simpl; lia). simpl.
  split; [|lia]. intros i Hi Hpi. pose proof (PARENT_lt i ltac:(lia)).
  rewrite !transp_other by lia. apply Ho; lia.
Qed.

(** C2. [xi_heap_get_top] on a well-formed, ordered, non-empty heap returns
    the handle of an element whose key is minimal among the live keys; the
    result is well formed, one slot smaller, and its live contents are the
    old ones minus exactly that element. *)
Theorem xi_heap_get_top_min h :
  heap_wf h -> heap_ordered h -> 0 < first_free h ->
  exists h' p kv, xi_heap_get_top h = (h', Some p) /\
    heap_wf h' /\ first_free h' = first_free h - 1 /\
    (fun e => (key e, heap_value_of e)) <$> store h' !! p = Some kv /\
    live h ≡ₚ kv :: live h' /\
    Forall (fun x => (fst kv <= fst x)%Z) (live h).
Proof.
  intros Hwf Ho Hpos.
  destruct (get_top_structure h Hwf Hpos) as (h' & p & Htop & Hp & Hwf' & Hff' & Hlive & Hst).
  exists h', p, (slot_kv h 0). split_and!; try done.
  - rewrite Hst. destruct (wf_store_some h 0 p Hwf Hp) as [e He].
    unfold slot_kv, obj_at. rewrite Hp. simpl. by rewrite He.
  - apply Forall_forall. intros x Hx. unfold live in Hx.
    apply list_elem_of_In, in_map_iff in Hx as (i & <- & Hi). apply in_seq in Hi.
    rewrite <- !key_at_slot_kv. apply (ordered_root_min _ (first_free h)); [done|lia].
Qed.

Lemma get_top_ordered_except h :
  heap_wf h -> heap_ordered h ->
  let h' := fst (xi_heap_get_top h) in
  ordered_except (key_at h') (first_free h') (lone_child (first_free h')).
Proof.
  intros Hwf Ho h'. subst h'. pose proof (wf_first_free _ Hwf).
  destruct (first_free h) as [|n] eqn:Hff.
  { unfold xi_heap_get_top. rewrite Hff. simpl. rewrite Hff. intros i Hi. lia. }
  destruct (decide (n = 0)) as [->|Hn].
  { rewrite get_top_single by done. intros i Hi. simpl in Hi. lia. }
  rewrite (get_top_unfold h n) by done. simpl. unfold get_top_repaired.
  apply fix_order_down_ordered.
  - apply (swap_wf_gen _ (S n)); simpl; try lia.
    + apply set_first_free_wf; [done|lia].
    + rewrite <- Hff. apply set_first_free_synced, wf_index, Hwf.
  - rewrite swap_first_free. simpl. lia.
  - by apply get_top_down_inv.
Qed.

(** C3. After [xi_heap_get_top] on a well-formed, ordered heap, every edge
    of the heap is ordered except possibly the edge into the last live slot
    when the live size is even. *)
Theorem xi_heap_get_top_order h :
  heap_wf h -> heap_ordered h ->
  let h' := fst (xi_heap_get_top h) in
  ordered_except (key_at h') (first_free h') (lone_child (first_free h')).
Proof. apply get_top_ordered_except. Qed.


(** When the heap left by [xi_heap_get_top] has an odd number of live
    slots, it is fully ordered. *)
Corollary xi_heap_get_top_order_odd h :
  heap_wf h -> heap_ordered h ->
  Nat.odd (first_free (fst (xi_heap_get_top h))) = true ->
  heap_ordered (fst (xi_heap_get_top h)).
Proof.
  intros Hwf Ho Hodd. pose proof (get_top_ordered_except h Hwf Ho) as Hord. simpl in Hord.
  unfold lone_child in Hord. rewrite <- Nat.negb_odd, Hodd in Hord. exact Hord.
Qed.

(** ** An executable check of the order *)

Definition heap_orderedb (h : xi_heap) : bool :=
  forallb (fun i => (key_at h (PARENT i) <=? key_at h i)%Z) (seq 1 (first_free h - 1)).

Lemma heap_orderedb_spec h : heap_orderedb h = true <-> heap_ordered h.
Proof.
  unfold heap_orderedb, heap_ordered, ordered, ordered_except.
  rewrite forallb_forall. split.
  - intros H i Hi _. apply Z.leb_le, H, in_seq. lia.
  - intros H i Hi. apply in_seq in Hi. apply Z.leb_le, H; lia.
Qed.


(** ** Witnesses on concrete heaps *)

(** The heap the dispatcher builds by scheduling keys 1, 2, 5, 6, 10. *)
Definition heap_fixture_5 : xi_heap := heap_after 8 (map OpAdd [1; 2; 5; 6; 10]%Z).
Definition heap_fixture_4 : xi_heap := heap_after 8 (map OpAdd [1; 2; 5; 6]%Z).

Lemma heap_fixture_5_wf : heap_wf heap_fixture_5.
Proof. apply heap_wfb_sound. vm_compute. reflexivity. Defined.

Lemma heap_fixture_5_ordered : heap_ordered heap_fixture_5.
Proof. apply heap_orderedb_spec. vm_compute. reflexivity. Defined.

Lemma heap_fixture_4_wf : heap_wf heap_fixture_4.
Proof. apply heap_wfb_sound. vm_compute. reflexivity. Defined.

Lemma heap_fixture_4_ordered : heap_ordered heap_fixture_4.
Proof. apply heap_orderedb_spec. vm_compute. reflexivity. Defined.

Lemma xi_heap_element_add_correct_witness :
  first_free heap_fixture_5 < capacity heap_fixture_5 /\
  exists h' p, xi_heap_element_add_value heap_fixture_5 3 (type_value 7) = XOk (Some (h', p)) /\
    heap_wf h' /\ heap_ordered h' /\ first_free h' = first_free heap_fixture_5 + 1 /\
    live h' ≡ₚ (3%Z, type_value 7) :: live heap_fixture_5 /\
    (fun e => (key e, heap_value_of e)) <$> store h' !! p = Some (3%Z, type_value 7).
Proof.
  assert (Hlt : first_free heap_fixture_5 < capacity heap_fixture_5) by (vm_compute; lia).
  split; [exact Hlt|].
  exact (xi_heap_element_add_correct heap_fixture_5 3 (type_value 7)
           heap_fixture_5_wf heap_fixture_5_ordered Hlt).
Defined.

Lemma xi_heap_get_top_min_witness :
  0 < first_free heap_fixture_5 /\
  exists h' p kv, xi_heap_get_top heap_fixture_5 = (h', Some p) /\
    heap_wf h' /\ first_free h' = first_free heap_fixture_5 - 1 /\
    (fun e => (key e, heap_value_of e)) <$> store h' !! p = Some kv /\
    live heap_fixture_5 ≡ₚ kv :: live h' /\
    Forall (fun x => (fst kv <= fst x)%Z) (live heap_fixture_5).
Proof.
  assert (Hpos : 0 < first_free heap_fixture_5) by (vm_compute; lia).
  split; [exact Hpos|].
  exact (xi_heap_get_top_min heap_fixture_5 heap_fixture_5_wf heap_fixture_5_ordered Hpos).
Defined.

Lemma xi_heap_get_top_order_witness :
  let h' := fst (xi_heap_get_top heap_fixture_5) in
  ordered_except (key_at h') (first_free h') (lone_child (first_free h')).
Proof.
  exact (xi_heap_get_top_order heap_fixture_5 heap_fixture_5_wf heap_fixture_5_ordered).
Defined.

Lemma xi_heap_get_top_order_odd_witness :
  Nat.odd (first_free (fst (xi_heap_get_top heap_fixture_4))) = true /\
  heap_ordered (fst (xi_heap_get_top heap_fixture_4)).
Proof.
  assert (Hodd : Nat.odd (first_free (fst (xi_heap_get_top heap_fixture_4))) = true)
    by (vm_compute; reflexivity).
  split; [exact Hodd|].
  exact (xi_heap_get_top_order_odd heap_fixture_4 heap_fixture_4_wf heap_fixture_4_ordered Hodd).
Defined.
