(* ===== verification/HeapScenarios.v ===== *)
(** * The heap on concrete runs: checkers, scenarios and the defects found

    Executable checkers for the invariant and the order ([heap_wfb],
    [heap_orderedb]) with their soundness lemmas, a driver that runs a
    sequence of insertions and extractions as the event dispatcher would
    ([run_heap_ops]), and the behaviours of [xi_heap.c] that depart from
    its specification, each as a theorem: an insertion into a full heap
    reads past the slot array, an extraction can break the heap order and
    a later extraction then returns a key larger than one still queued,
    [xi_heap_element_remove] can keep the removed element and drop another,
    [xi_heap_peek_top] on an emptied heap returns the handle just
    extracted, the handle returned by an extraction is the object the
    next insertion overwrites, and [xi_heap_create] dereferences NULL when
    any allocation but the slot array's fails. *)

From S2P Require Import Prelude Heap HeapFacts HeapOrder.
Import Heap.


(** ** Insertion into a full heap *)

(** C6. The capacity check of [xi_heap_element_add] is [first_free >
    capacity]: with every slot live ([first_free = capacity]) it passes, and
    the code reads [elements[ capacity ]], one past the array. *)
Theorem xi_heap_element_add_full_fault h k v :
  heap_wf h -> first_free h = capacity h -> xi_heap_element_add_value h k v = XFault.
Proof.
  intros Hwf Hff. unfold xi_heap_element_add_value.
  rewrite Hff, Nat.ltb_irrefl.
  rewrite (proj2 (lookup_ge_None _ _)); [done|]. rewrite (wf_elements_len _ Hwf). lia.
Qed.

Definition heap_fixture_full : xi_heap := heap_after 2 (map OpAdd [4; 9]%Z).

Lemma xi_heap_element_add_full_fault_witness :
  heap_wf heap_fixture_full /\ first_free heap_fixture_full = capacity heap_fixture_full /\
  xi_heap_element_add heap_fixture_full 1 0 = XFault.
Proof.
  assert (Hwf : heap_wf heap_fixture_full) by (apply heap_wfb_sound; vm_compute; reflexivity).
  assert (Hff : first_free heap_fixture_full = capacity heap_fixture_full)
    by (vm_compute; reflexivity).
  split; [exact Hwf|]. split; [exact Hff|].
  exact (xi_heap_element_add_full_fault heap_fixture_full 1 (type_value 0) Hwf Hff).
Defined.

(** ** Allocation failures in [xi_heap_create] *)

Lemma create_elements_loop_fault allocs i n :
  (exists j, j < n /\ alloc_fails allocs (2 + i + j) = true) ->
  create_elements_loop allocs i n = XFault.
Proof.
  revert i. induction n as [|n IH]; intros i (j & Hj & Hf); [lia|]. simpl.
  destruct (alloc_fails allocs (S (S i))) eqn:E; [done|].
  destruct j as [|j]; [rewrite Nat.add_0_r in Hf; simpl in Hf; congruence|].
  apply IH. exists j. split; [lia|]. replace (2 + S i + j) with (2 + i + S j) by lia. exact Hf.
Qed.

Lemma create_elements_loop_ok allocs i n :
  (forall j, j < n -> alloc_fails allocs (2 + i + j) = false) ->
  create_elements_loop allocs i n = XOk tt.
Proof.
  revert i. induction n as [|n IH]; intros i Hok; [done|]. simpl.
  replace (S (S i)) with (2 + i + 0) by lia. rewrite (Hok 0 ltac:(lia)).
  apply IH. intros j Hj. replace (2 + S i + j) with (2 + i + S j) by lia. apply Hok. lia.
Qed.

Lemma alloc_fails_prefix allocs m k :
  Forall (eq false) (take m allocs) -> k < m -> alloc_fails allocs k = false.
Proof.
  intros Hf Hk. unfold alloc_fails.
  destruct (allocs !! k) as [b|] eqn:E; [|done]. simpl.
  assert (take m allocs !! k = Some b) by (rewrite lookup_take_lt; done).
  by eapply Forall_lookup_1 in Hf; [|done].
Qed.

(** C8. [xi_heap_create] survives only one allocation failure, the
    slot array's, for which [err_handling] frees the record and returns
    [0].  When the record's allocation fails, [err_handling] reads
    [ret->elements] through the null [ret]; when an element's allocation
    fails, the check after it tests [ret->elements] instead of the
    element, which passes, and the [memset] writes through NULL.  When
    every allocation succeeds it gives the heap of [xi_heap_create]. *)
Theorem xi_heap_create_alloc_failures allocs capacity :
  capacity <> 0 ->
  (alloc_fails allocs 0 = true -> xi_heap_create_alloc allocs capacity = XFault) /\
  (alloc_fails allocs 0 = false -> alloc_fails allocs 1 = true ->
   xi_heap_create_alloc allocs capacity = XOk None) /\
  (alloc_fails allocs 0 = false -> alloc_fails allocs 1 = false ->
   (exists i, i < capacity /\ alloc_fails allocs (2 + i) = true) ->
   xi_heap_create_alloc allocs capacity = XFault) /\
  (Forall (eq false) (take (2 + capacity) allocs) ->
   exists h, xi_heap_create capacity = XOk h /\ xi_heap_create_alloc allocs capacity = XOk (Some h)).
Proof.
  intros Hcap. unfold xi_heap_create_alloc, xi_heap_create.
  rewrite (proj2 (Nat.eqb_neq _ _) Hcap). split_and!.
  - by intros ->.
  - by intros -> ->.
  - intros -> -> Hi. by rewrite create_elements_loop_fault.
  - intros Hf. rewrite !(alloc_fails_prefix allocs (2 + capacity)) by (done || lia).
    rewrite create_elements_loop_ok; [by eexists|].
    intros j Hj. apply (alloc_fails_prefix allocs (2 + capacity)); [done|lia].
Qed.

(** ** Extraction can break the order *)

(** C4. From the ordered heap built by scheduling 1, 2, 5, 6, 10, one
    extraction leaves 10 above 6: the sift-down stops at slot 1, whose only
    child is the last live slot. *)
Example xi_heap_get_top_breaks_order :
  heap_wf heap_fixture_5 /\ heap_ordered heap_fixture_5 /\
  ~ heap_ordered (fst (xi_heap_get_top heap_fixture_5)) /\
  live_keys (fst (xi_heap_get_top heap_fixture_5)) = [2; 10; 5; 6]%Z.
Proof.
  split_and!; [apply heap_fixture_5_wf|apply heap_fixture_5_ordered| |vm_compute; reflexivity].
  rewrite <- heap_orderedb_spec. vm_compute. discriminate.
Qed.

(** C5. The broken edge is then observable: schedule 1, 2, 5, 3, 10, fire
    one event, schedule 100, fire two more: the third event fired has key
    5 while the event with key 3 is still queued. *)
Example xi_heap_extract_out_of_order :
  exists h, run_from_create 8 [OpAdd 1; OpAdd 2; OpAdd 5; OpAdd 3; OpAdd 10;
                               OpGetTop; OpAdd 100; OpGetTop; OpGetTop]%Z
            = XOk (h, [1; 2; 5]%Z) /\ live_keys h = [3; 10; 100]%Z.
Proof. eexists. split; vm_compute; reflexivity. Qed.

(** Without interleaved insertions the defect does not show on small
    heaps: for every order of the seven keys 1..7, inserting all of them
    and extracting seven times returns them sorted (checked exhaustively
    over the 5040 orders). *)
Theorem xi_heap_sorted_extraction_7 l :
  l ≡ₚ [1; 2; 3; 4; 5; 6; 7]%Z ->
  exists h, run_from_create 8 (map OpAdd l ++ repeat OpGetTop 7) = XOk (h, [1; 2; 3; 4; 5; 6; 7]%Z).
Proof.
  intros Hl. symmetry in Hl. apply permutations_Permutation in Hl.
  assert (Hall : forallb (fun l => match run_from_create 8 (map OpAdd l ++ repeat OpGetTop 7) with
                                   | XOk (_, ks) => bool_decide (ks = [1; 2; 3; 4; 5; 6; 7]%Z)
                                   | XFault => false
                                   end) (permutations [1; 2; 3; 4; 5; 6; 7]%Z) = true)
    by (vm_compute; reflexivity).
  rewrite forallb_forall in Hall. specialize (Hall l (proj1 (list_elem_of_In _ _) Hl)).
  destruct (run_from_create _ _) as [[h ks]|]; [|done].
  apply bool_decide_eq_true in Hall. subst. by eexists.
Qed.

Lemma xi_heap_sorted_extraction_7_witness :
  exists h, run_from_create 8 (map OpAdd [7; 3; 5; 1; 6; 2; 4]%Z ++ repeat OpGetTop 7)
            = XOk (h, [1; 2; 3; 4; 5; 6; 7]%Z).
Proof.
  apply (xi_heap_sorted_extraction_7 [7; 3; 5; 1; 6; 2; 4]%Z).
  apply (proj1 (bool_decide_eq_true _)). vm_compute. reflexivity.
Defined.

(** ** Removal keeps the removed element *)

Definition heap_fixture_3 : xi_heap := heap_after 4 (map OpAdd [1; 5; 3]%Z).

(** C7. [xi_heap_element_remove] swaps the element with the last live slot
    and repairs while [first_free] still counts it: removing the element of
    key 1 (object 0, at the root) from the heap 1, 5, 3 sifts it back to the
    root, and the decrement then drops the element of key 3 instead. *)
Example xi_heap_element_remove_keeps_removed :
  elements heap_fixture_3 !! 0 = Some 0 /\ obj_key heap_fixture_3 0 = 1%Z /\
  live_keys heap_fixture_3 = [1; 5; 3]%Z /\
  exists h', xi_heap_element_remove heap_fixture_3 0 = XOk h' /\
    heap_wf h' /\ elements h' !! 0 = Some 0 /\ live_keys h' = [1; 5]%Z.
Proof.
  split_and!; try (vm_compute; reflexivity).
  eexists. split_and!; [vm_compute; reflexivity| |vm_compute; reflexivity..].
  apply heap_wfb_sound. vm_compute. reflexivity.
Qed.

(** ** Peeking at an emptied heap *)

(** C24. [xi_heap_peek_top] does not look at [first_free]: once the last
    element has been extracted, the heap reports itself empty and yet
    [xi_heap_peek_top] returns the handle that was just extracted. *)
Theorem xi_heap_peek_top_after_last h h' p :
  first_free h = 1 -> xi_heap_get_top h = (h', Some p) ->
  xi_heap_is_empty h' = 1 /\ xi_heap_peek_top h' = Some p.
Proof.
  intros Hff. rewrite get_top_single by done. intros [= <- Hp].
  unfold xi_heap_is_empty, xi_heap_peek_top. simpl. done.
Qed.

Definition heap_fixture_1 : xi_heap := heap_after 4 [OpAdd 5%Z].

Lemma xi_heap_peek_top_after_last_witness :
  first_free heap_fixture_1 = 1 /\
  xi_heap_is_empty (fst (xi_heap_get_top heap_fixture_1)) = 1 /\
  xi_heap_peek_top (fst (xi_heap_get_top heap_fixture_1)) = Some 0.
Proof.
  assert (Hff : first_free heap_fixture_1 = 1) by (vm_compute; reflexivity).
  assert (Htop : xi_heap_get_top heap_fixture_1 = (fst (xi_heap_get_top heap_fixture_1), Some 0))
    by (vm_compute; reflexivity).
  split; [exact Hff|]. exact (xi_heap_peek_top_after_last _ _ _ Hff Htop).
Defined.

(** ** The handle returned by an extraction is reused *)

(** C23. The object whose handle [xi_heap_get_top] returns stays in the slot
    just past the live region, so the very next insertion writes its key and
    payload into that object and returns the same handle: a caller that
    keeps the extracted handle sees it change under it. *)
Theorem xi_heap_get_top_handle_reused h h' p k v :
  heap_wf h -> xi_heap_get_top h = (h', Some p) ->
  exists h'', xi_heap_element_add_value h' k v = XOk (Some (h'', p)) /\
    (fun e => (key e, heap_value_of e)) <$> store h'' !! p = Some (k, v).
Proof.
  intros Hwf Htop.
  assert (Hpos : 0 < first_free h).
  { unfold xi_heap_get_top in Htop. destruct (Nat.eqb_spec (first_free h) 0); [congruence|lia]. }
  destruct (get_top_structure h Hwf Hpos) as (h1 & p1 & Htop1 & _ & Hwf' & _).
  rewrite Htop in Htop1. injection Htop1 as <- <-.
  pose proof (get_top_returns_last_slot _ _ _ Htop) as Hlast.
  assert (Hlt : first_free h' < capacity h').
  { rewrite <- (wf_elements_len _ Hwf'). by eapply lookup_lt_Some. }
  destruct (add_structure h' k v Hwf' Hlt) as (h'' & p' & Hadd & _ & _ & _ & Hst).
  destruct (add_value_unfold h' k v Hwf' Hlt) as (p'' & Hp'' & Hadd').
  rewrite Hadd in Hadd'. injection Hadd' as -> ->.
  rewrite Hlast in Hp''. injection Hp'' as <-. eauto.
Qed.

Lemma xi_heap_get_top_handle_reused_witness :
  exists h'', xi_heap_element_add_value (fst (xi_heap_get_top heap_fixture_5)) 42 (void_value 9)
              = XOk (Some (h'', 0)) /\
    (fun e => (key e, heap_value_of e)) <$> store h'' !! 0 = Some (42%Z, void_value 9).
Proof.
  assert (Htop : xi_heap_get_top heap_fixture_5 = (fst (xi_heap_get_top heap_fixture_5), Some 0))
    by (vm_compute; reflexivity).
  exact (xi_heap_get_top_handle_reused _ _ _ 42 (void_value 9) heap_fixture_5_wf Htop).
Defined.

Lemma xi_heap_create_alloc_failures_witness :
  (alloc_fails [false; false; false; true] 0 = true ->
   xi_heap_create_alloc [false; false; false; true] 3 = XFault) /\
  (alloc_fails [false; false; false; true] 0 = false -> alloc_fails [false; false; false; true] 1 = true ->
   xi_heap_create_alloc [false; false; false; true] 3 = XOk None) /\
  (alloc_fails [false; false; false; true] 0 = false -> alloc_fails [false; false; false; true] 1 = false ->
   (exists i, i < 3 /\ alloc_fails [false; false; false; true] (2 + i) = true) ->
   xi_heap_create_alloc [false; false; false; true] 3 = XFault) /\
  (Forall (eq false) (take (2 + 3) [false; false; false; true]) ->
   exists h, xi_heap_create 3 = XOk h /\ xi_heap_create_alloc [false; false; false; true] 3 = XOk (Some h)).
Proof. apply xi_heap_create_alloc_failures. lia. Defined.
