(* ===== verification/HeapSiftDown.v ===== *)
(** * The sift-down of [xi_heap.c] against a sift-down with explicit guards

    [xi_heap_fix_order_down] guards the array bounds by clamping an
    out-of-range child index back to the parent's own index
    ([li = li >= first_free ? index : li]), and its [do ... while] loop
    stops as soon as one of the two clamped indices equals [index].  The
    specification (section 9) asks for the clamping to be checked against
    a sift-down that branches on "no such child".  [sink1] is that step,
    written as the textbook does (with the lone-left-child corner case of
    a heap of even size), and [sift_down] its iteration, by well-founded
    recursion on [first_free - i].

    The clamping is sound: when [first_free] is odd no slot has a lone
    left child, and the code's sift-down is the reference one from every
    slot.  When [first_free] is even the loop's exit test stops above the
    lone left child without comparing it, and the two differ. *)

From S2P Require Import Prelude Heap HeapFacts HeapOrder.
From Stdlib Require Import Recdef.
Import Heap.

(** ** The reference step and its iteration *)

(** One step from slot [i]: stop when [i] has no child; otherwise take the
    smaller child (the right one on equal keys, as the code does; the left
    one when it is alone) and swap it up when it is smaller than [i]. *)
Definition sink1 (h : xi_heap) (i : nat) : xi_heap * option nat :=
  let l := 2 * i + 1 in
  let r := 2 * i + 2 in
  if first_free h <=? l then (h, None)
  else
    let c := if (r <? first_free h) && (key_at h r <=? key_at h l)%Z then r else l in
    if (key_at h c <? key_at h i)%Z then (xi_heap_elements_swap h i c, Some c)
    else (h, None).

Lemma sink1_inc h i h' j :
  sink1 h i = (h', Some j) -> i < j < first_free h' /\ first_free h' = first_free h.
Proof.
  unfold sink1.
  destruct (Nat.leb_spec (first_free h) (2 * i + 1)); [discriminate|].
  destruct (Nat.ltb_spec (2 * i + 2) (first_free h)), (Z.leb _ _); simpl;
    (case_match; [|discriminate]); intros [= <- <-]; rewrite swap_first_free; lia.
Qed.

Lemma sink1_stop h i h' : sink1 h i = (h', None) -> h' = h.
Proof. unfold sink1. repeat case_match; congruence. Qed.

Function sift_down (hi : xi_heap * nat) {measure (fun hi => first_free hi.1 - hi.2) hi}
    : xi_heap :=
  match sink1 hi.1 hi.2 with
  | (h', None) => h'
  | (h', Some j) => sift_down (h', j)
  end.
Proof.
  intros [h i] ? h' j ? E. apply sink1_inc in E. simpl in *. lia.
Defined.

(** [xi_heap_get_top] with the guarded sift-down in place of
    [xi_heap_fix_order_down]. *)
Definition get_top_guarded (h : xi_heap) : xi_heap * option nat :=
  if first_free h =? 0 then (h, None)
  else
    let last_i := first_free h - 1 in
    let h1 := set_first_free h last_i in
    if negb (last_i =? 0) then
      let h3 := sift_down (xi_heap_elements_swap h1 0 last_i, 0) in
      (h3, elements h3 !! last_i)
    else (h1, elements h1 !! 0).

(** ** The clamped loop is the reference on heaps of odd size *)

Section OddSize.
Variable n : nat.
Hypothesis Hodd : Nat.odd n = true.

(** No slot has a lone left child. *)
Lemma odd_no_lone_left i : n <= 2 * i + 2 -> n <= 2 * i + 1.
Proof using Hodd.
  intros Hr. destruct (proj1 (Nat.odd_spec n) Hodd) as [k Hk]. lia.
Qed.

(** One pass of the [do] body is one reference step. *)
Lemma down_body_sink1 h i :
  first_free h = n ->
  fix_order_down_body h i (bound_guard h (LEFT i) i) (bound_guard h (RIGHT i) i) =
    match sink1 h i with
    | (_, None) => DownReturn
    | (h', Some j) => DownMoved h' j
    end.
Proof using Hodd.
  intros Hff. unfold fix_order_down_body, sink1, bound_guard. rewrite LEFT_eq, RIGHT_eq, Hff.
  destruct (Nat.leb_spec n (2 * i + 1)).
  - rewrite (proj2 (Nat.leb_le _ _)) by lia. rewrite !Z.ltb_irrefl. done.
  - pose proof (odd_no_lone_left i).
    rewrite (proj2 (Nat.leb_gt n (2 * i + 2))) by lia.
    rewrite (proj2 (Nat.ltb_lt (2 * i + 2) n)) by lia. cbn [andb].
    destruct (Z.ltb_spec (key_at h (2 * i + 1)) (key_at h (2 * i + 2))).
    + rewrite (proj2 (Z.leb_gt _ _)) by lia. by destruct (Z.ltb _ _).
    + rewrite (proj2 (Z.leb_le _ _)) by lia. by destruct (Z.ltb _ _).
Qed.

(** The loop's exit test after a move: a clamped child means no child. *)
Lemma down_exit_test h j :
  first_free h = n ->
  (j =? bound_guard h (LEFT j) j) || (j =? bound_guard h (RIGHT j) j) = (n <=? 2 * j + 1).
Proof using Hodd.
  intros Hff. unfold bound_guard. rewrite LEFT_eq, RIGHT_eq, Hff.
  pose proof (odd_no_lone_left j).
  destruct (Nat.leb_spec n (2 * j + 1)); [by rewrite Nat.eqb_refl|].
  rewrite (proj2 (Nat.leb_gt n (2 * j + 2))) by lia.
  rewrite !(proj2 (Nat.eqb_neq _ _)) by lia. done.
Qed.

Lemma fix_order_down_loop_sift_down fuel h i :
  first_free h = n -> first_free h - i < fuel ->
  fix_order_down_loop fuel h i (bound_guard h (LEFT i) i) (bound_guard h (RIGHT i) i) =
    Some (sift_down (h, i)).
Proof using Hodd.
  revert h i. induction fuel as [|fuel IH]; intros h i Hff Hlt; [lia|].
  rewrite sift_down_equation. simpl. rewrite (down_body_sink1 h i Hff).
  destruct (sink1 h i) as [h' [j|]] eqn:E; [|by rewrite (sink1_stop h i h' E)].
  destruct (sink1_inc h i h' j E) as [Hj Hff'].
  rewrite (down_exit_test h' j) by congruence.
  destruct (Nat.leb_spec n (2 * j + 1)).
  - rewrite sift_down_equation. simpl. unfold sink1.
    by rewrite (proj2 (Nat.leb_le _ _)) by lia.
  - apply IH; lia.
Qed.

End OddSize.

(** ** Properties *)

(** C28. Equivalence of the clamped sift-down with the guarded one: on a
    heap whose number of live slots is odd, [xi_heap_fix_order_down] from
    any slot gives exactly the heap [sift_down] gives, the sift-down that
    tests for missing children explicitly and compares a lone left child:
    the clamping of child indices to the parent is a correct bounds guard,
    and the wrapper's fuel [first_free + 1] is enough. *)
Theorem xi_heap_fix_order_down_guarded h index :
  Nat.odd (first_free h) = true ->
  xi_heap_fix_order_down h index = sift_down (h, index).
Proof.
  intros Hodd. unfold xi_heap_fix_order_down.
  by rewrite (fix_order_down_loop_sift_down (first_free h) Hodd) by lia.
Qed.

(** An extraction from a heap with an even number of live slots leaves an
    odd number, so it is the guarded extraction: the defect of C4 needs an
    odd number of events queued. *)
Theorem xi_heap_get_top_even h :
  Nat.even (first_free h) = true -> xi_heap_get_top h = get_top_guarded h.
Proof.
  intros Hev. unfold xi_heap_get_top, get_top_guarded.
  destruct (first_free h) as [|m] eqn:Hff; [done|]. cbn [Nat.eqb]. rewrite Nat.sub_succ, Nat.sub_0_r.
  destruct (Nat.eqb_spec m 0) as [->|Hm]; [done|]. cbn [negb].
  assert (Hodd : Nat.odd m = true) by (rewrite Nat.even_succ in Hev; exact Hev).
  unfold xi_heap_fix_order_down.
  rewrite (fix_order_down_loop_sift_down m Hodd); [done| |]; rewrite swap_first_free; cbn; lia.
Qed.

(** With an even number of live slots the exit test of the [do ... while]
    stops above the lone left child without comparing it: after the
    first extraction from the heap of 1, 2, 5, 6, 10, the code leaves 10
    above 6 where the guarded sift-down moves it below. *)
Example xi_heap_fix_order_down_lone_left :
  let h := xi_heap_elements_swap (set_first_free heap_fixture_5 4) 0 4 in
  live_keys (xi_heap_fix_order_down h 0) = [2; 10; 5; 6]%Z /\
  live_keys (sift_down (h, 0)) = [2; 6; 5; 10]%Z.
Proof. split; vm_compute; reflexivity. Qed.

(** ** Witnesses *)

Lemma xi_heap_fix_order_down_guarded_witness :
  xi_heap_fix_order_down heap_fixture_5 0 = sift_down (heap_fixture_5, 0).
Proof. apply xi_heap_fix_order_down_guarded. vm_compute. reflexivity. Defined.
