(* ===== verification/Dispatcher.v ===== *)
(** * The event dispatcher on top of the heap

    The dispatcher ([xi_event_dispatcher_api.c]) is not in the repository;
    it is modelled from the specification (§2, §5): it keeps the
    continuations of the program in the heap of [xi_heap.c], keyed by their
    wake time, and a current time.  [xi_evtd_continue] schedules a handle
    [time_diff] after the current time (an [xi_heap_element_add_void] of
    the handle), [xi_evtd_cancel] withdraws a scheduled element
    ([xi_heap_element_remove]), and [xi_evtd_step] advances the clock and
    fires, one [xi_heap_get_top] at a time, the continuations whose key is
    due, stopping at the first root that is not.

    The interface of a scheduler, as the logic layer uses one, is the class
    [Scheduler]; the reference implementation [QueueScheduler] keeps the
    pending continuations as a list.  The heap dispatcher implements the
    class, and the theorems of this file relate the two. *)

From S2P Require Import Prelude Heap HeapFacts HeapOrder.

Module Dispatcher.
Import Heap.

(** ** The scheduler interface *)

(** A pending continuation: its wake time and its handle. *)
Definition pending : Type := (Z * heap_value)%type.

Class Scheduler (S : Type) := {
  sched_continue : S -> Z -> nat -> xres (option (S * nat));
  sched_cancel : S -> nat -> xres S;
  sched_step : S -> Z -> S * list heap_value;
  sched_pending : S -> list pending
}.

(** ** The reference scheduler *)

(** The pending continuations in scheduling order, each with the handle
    [sched_continue] returned for it, the next handle and the clock; a
    step fires every due continuation, earliest first, and cancelling
    withdraws the continuation of a handle. *)
Record queue_state : Type := mk_queue {
  q_pending : list (nat * pending);
  q_next : nat;
  q_time : Z
}.

Definition due (t : Z) (e : pending) : bool := (fst e <=? t)%Z.

Fixpoint insert_by_key (e : pending) (l : list pending) : list pending :=
  match l with
  | [] => [e]
  | x :: l' => if (fst e <? fst x)%Z then e :: l else x :: insert_by_key e l'
  end.

Definition sort_by_key (l : list pending) : list pending := foldr insert_by_key [] l.

Definition queue_step (q : queue_state) (t : Z) : queue_state * list heap_value :=
  (mk_queue (filter (fun e => negb (due t (snd e))) (q_pending q)) (q_next q) t,
   map snd (sort_by_key (filter (due t) (map snd (q_pending q))))).

#[export] Instance QueueScheduler : Scheduler queue_state := {
  sched_continue q d v :=
    XOk (Some (mk_queue (q_pending q ++ [(q_next q, (q_time q + d, void_value v)%Z)]) (S (q_next q)) (q_time q),
               q_next q));
  sched_cancel q i :=
    XOk (mk_queue (filter (fun e => fst e <> i) (q_pending q)) (q_next q) (q_time q));
  sched_step := queue_step;
  sched_pending q := map snd (q_pending q)
}.

(** ** The heap dispatcher *)

Record xi_evtd_instance : Type := mk_evtd {
  call_heap : xi_heap;
  current_time : Z
}.

(** The payload of the element object [p]. *)
Definition obj_value (h : xi_heap) (p : nat) : heap_value :=
  default (void_value 0) (heap_value_of <$> store h !! p).

(** [xi_evtd_continue( instance, handle, time_diff )]: [XOk None] when the
    heap refuses the element, [XFault] when the insertion reads past the
    heap's array. *)
Definition xi_evtd_continue (d : xi_evtd_instance) (time_diff : Z) (handle : nat)
    : xres (option (xi_evtd_instance * nat)) :=
  match xi_heap_element_add_void (call_heap d) (current_time d + time_diff) handle with
  | XOk (Some (h, p)) => XOk (Some (mk_evtd h (current_time d), p))
  | XOk None => XOk None
  | XFault => XFault
  end.

(** [xi_evtd_cancel( instance, element )] *)
Definition xi_evtd_cancel (d : xi_evtd_instance) (p : nat) : xres xi_evtd_instance :=
  match xi_heap_element_remove (call_heap d) p with
  | XOk h => XOk (mk_evtd h (current_time d))
  | XFault => XFault
  end.

(** The firing loop: while the heap is not empty and its root is due,
    extract the root and fire its payload.  Each round removes one live
    element, so [first_free + 1] rounds suffice. *)
Fixpoint evtd_fire (fuel : nat) (h : xi_heap) (t : Z) : option (xi_heap * list heap_value) :=
  match fuel with
  | O => None
  | S fuel' =>
      if xi_heap_is_empty h =? 1 then Some (h, [])
      else if (key_at h 0 <=? t)%Z then
        match xi_heap_get_top h with
        | (h', Some p) =>
            '(h'', fired) ← evtd_fire fuel' h' t; Some (h'', obj_value h' p :: fired)
        | (h', None) => Some (h', [])
        end
      else Some (h, [])
  end.

(** [xi_evtd_step( instance, new_time )] *)
Definition xi_evtd_step (d : xi_evtd_instance) (t : Z) : xi_evtd_instance * list heap_value :=
  let h := call_heap d in
  match evtd_fire (S (first_free h)) h t with
  | Some (h', fired) => (mk_evtd h' t, fired)
  | None => (mk_evtd h t, [])
  end.

#[export] Instance HeapScheduler : Scheduler xi_evtd_instance := {
  sched_continue := xi_evtd_continue;
  sched_cancel := xi_evtd_cancel;
  sched_step := xi_evtd_step;
  sched_pending d := live (call_heap d)
}.

(** ** Clients of the interface: runs of scheduler operations *)

Inductive sched_op : Type :=
  | SContinue (time_diff : Z) (handle : nat)
  | SCancel (handle : nat)
  | SStep (t : Z).

(** Runs the operations on any scheduler, collecting the handles returned
    by [sched_continue] (a refused continuation gives none) and the
    payloads fired by the steps. *)
Fixpoint run_sched {St : Type} `{Scheduler St} (s : St) (ops : list sched_op)
    : xres (St * list nat * list heap_value) :=
  match ops with
  | [] => XOk (s, [], [])
  | SContinue dt v :: ops' =>
      match sched_continue s dt v with
      | XOk (Some (s', i)) =>
          match run_sched s' ops' with
          | XOk (s'', ids, fired) => XOk (s'', i :: ids, fired)
          | XFault => XFault
          end
      | XOk None => run_sched s ops'
      | XFault => XFault
      end
  | SCancel i :: ops' =>
      match sched_cancel s i with
      | XOk s' => run_sched s' ops'
      | XFault => XFault
      end
  | SStep t :: ops' =>
      let '(s', fired) := sched_step s t in
      match run_sched s' ops' with
      | XOk (s'', ids, fired') => XOk (s'', ids, fired ++ fired')
      | XFault => XFault
      end
  end.

(** A dispatcher with an empty heap of [cap] slots at time [0], and the
    reference queue in the same state. *)
Definition evtd_create (cap : nat) : xres xi_evtd_instance :=
  match xi_heap_create cap with
  | XOk h => XOk (mk_evtd h 0)
  | XFault => XFault
  end.

Definition queue_empty : queue_state := mk_queue [] 0 0.

(** A run from a fresh dispatcher of [cap] slots, and the outcome and final
    state of a run. *)
Definition evtd_run (cap : nat) (ops : list sched_op)
    : xres (xi_evtd_instance * list nat * list heap_value) :=
  match evtd_create cap with
  | XOk d => run_sched d ops
  | XFault => XFault
  end.

Definition run_final {St : Type} (r : xres (St * list nat * list heap_value)) : option St :=
  match r with XOk (s, _, _) => Some s | XFault => None end.

#[export] Instance heap_value_eq_dec : EqDecision heap_value.
Proof. solve_decision. Defined.

#[export] Instance pending_eq_dec : EqDecision pending.
Proof. unfold pending. apply _. Defined.

(** ** Facts *)

(** The payload [xi_heap_get_top] hands back is the root's. *)
Lemma get_top_value h h' p :
  heap_wf h -> 0 < first_free h -> xi_heap_get_top h = (h', Some p) ->
  obj_value h' p = snd (slot_kv h 0).
Proof.
  intros Hwf Hpos Htop.
  destruct (get_top_structure h Hwf Hpos) as (h'' & p'' & Htop' & Hp & _ & _ & _ & Hst).
  rewrite Htop in Htop'. injection Htop' as <- <-.
  destruct (wf_store_some h 0 p Hwf Hp) as [e He]. specialize (Hst p). rewrite He in Hst.
  unfold obj_value, slot_kv, obj_at. rewrite Hp. simpl. rewrite He. simpl.
  destruct (store h' !! p) as [e'|]; simpl in *; congruence.
Qed.

Lemma live_empty h : first_free h = 0 -> live h = [].
Proof. unfold live. by intros ->. Qed.

Lemma slot_kv_root_live h : 0 < first_free h -> slot_kv h 0 ∈ live h.
Proof.
  intros Hpos. unfold live. apply list_elem_of_In, in_map_iff. exists 0. split; [done|].
  apply in_seq. lia.
Qed.

(** When every pending key is due, the firing loop empties the heap and
    fires every pending payload once. *)
Lemma evtd_fire_all n h t :
  heap_wf h -> first_free h < n -> Forall (fun e => (fst e <= t)%Z) (live h) ->
  exists h' fired, evtd_fire n h t = Some (h', fired) /\
    heap_wf h' /\ live h' = [] /\ fired ≡ₚ map snd (live h).
Proof.
  revert h. induction n as [|n IH]; intros h Hwf Hn Hdue; [lia|]. simpl.
  unfold xi_heap_is_empty. destruct (Nat.eqb_spec (first_free h) 0) as [E|E].
  { exists h, []. rewrite live_empty by done. done. }
  rewrite Forall_forall in Hdue. simpl.
  rewrite key_at_slot_kv, (proj2 (Z.leb_le _ _)) by (apply Hdue, slot_kv_root_live; lia).
  destruct (get_top_structure h Hwf ltac:(lia)) as (h1 & p & Htop & _ & Hwf1 & Hff1 & Hlive & _).
  rewrite Htop.
  destruct (IH h1) as (h2 & fired & Hfire & Hwf2 & Hlive2 & Hperm); [done|lia| |].
  { apply Forall_forall. intros x Hx. apply Hdue. rewrite Hlive. by right. }
  rewrite Hfire. exists h2, (obj_value h1 p :: fired). split_and!; [done|done|done|].
  rewrite (get_top_value h h1 p Hwf ltac:(lia) Htop), Hlive, Hperm. done.
Qed.

Lemma insert_by_key_perm e l : insert_by_key e l ≡ₚ e :: l.
Proof.
  induction l as [|x l IH]; simpl; [done|].
  destruct (fst e <? fst x)%Z; [done|]. rewrite IH. constructor.
Qed.

Lemma sort_by_key_perm l : sort_by_key l ≡ₚ l.
Proof.
  induction l as [|x l IH]; simpl; [done|]. by rewrite insert_by_key_perm, IH.
Qed.

Lemma filter_Forall_id {A} (P : A -> Prop) `{!∀ x, Decision (P x)} l :
  Forall P l -> filter P l = l.
Proof. induction 1; [done|]. rewrite filter_cons_True; congruence. Qed.

Lemma filter_Forall_nil {A} (P : A -> Prop) `{!∀ x, Decision (P x)} l :
  Forall (fun x => ¬ P x) l -> filter P l = [].
Proof. induction 1; [done|]. by rewrite filter_cons_False. Qed.

(** A step of the reference queue when every pending continuation is due. *)
Lemma queue_step_all_due q t :
  Forall (fun e => (fst e <= t)%Z) (map snd (q_pending q)) ->
  (queue_step q t).2 ≡ₚ map snd (map snd (q_pending q)) /\
  map snd (q_pending (queue_step q t).1) = [].
Proof.
  rewrite Forall_map, Forall_forall. intros Hall. unfold queue_step. simpl. split.
  - rewrite sort_by_key_perm, filter_Forall_id; [done|].
    rewrite Forall_map, Forall_forall. intros x Hx. specialize (Hall _ Hx). unfold due.
    destruct (Z.leb_spec (fst (snd x)) t); [done|lia].
  - rewrite filter_Forall_nil; [done|].
    apply Forall_forall. intros x Hx. specialize (Hall x Hx). unfold due.
    destruct (Z.leb_spec (fst (snd x)) t); [cbn; tauto|lia].
Qed.

(** C9. Refinement of the reference scheduler: from a heap dispatcher and
    a reference queue holding the same pending continuations, a step at a
    time when every pending continuation is due fires the same
    continuations (in some order) and leaves both with the same pending
    ones, none. *)
Theorem xi_evtd_step_refines_queue (d : xi_evtd_instance) (q : queue_state) t :
  heap_wf (call_heap d) -> sched_pending q ≡ₚ sched_pending d ->
  Forall (fun e => (fst e <= t)%Z) (sched_pending d) ->
  (sched_step d t).2 ≡ₚ (sched_step q t).2 /\
  sched_pending (sched_step d t).1 ≡ₚ sched_pending (sched_step q t).1.
Proof.
  intros Hwf Hq Hdue.
  destruct (evtd_fire_all (S (first_free (call_heap d))) (call_heap d) t Hwf ltac:(lia) Hdue)
    as (h' & fired & Hfire & _ & Hlive' & Hperm).
  simpl in Hq. destruct (queue_step_all_due q t) as [Hf Hp]; [by rewrite Hq|].
  change (sched_step q t) with (queue_step q t). destruct (queue_step q t) as [q' fq].
  change (sched_step d t) with (xi_evtd_step d t). unfold xi_evtd_step. rewrite Hfire.
  simpl in *. by rewrite Hf, Hp, Hq, Hlive'.
Qed.

(** The firing loop returns within its fuel on every well-formed heap and
    leaves it well formed. *)
Lemma evtd_fire_total n h t :
  heap_wf h -> first_free h < n ->
  exists h' fired, evtd_fire n h t = Some (h', fired) /\ heap_wf h'.
Proof.
  revert h. induction n as [|n IH]; intros h Hwf Hn; [lia|]. simpl.
  unfold xi_heap_is_empty. destruct (Nat.eqb_spec (first_free h) 0); [by eauto|].
  simpl. destruct (key_at h 0 <=? t)%Z; [|by eauto].
  destruct (get_top_structure h Hwf ltac:(lia)) as (h1 & p & -> & _ & Hwf1 & Hff1 & _).
  destruct (IH h1) as (h2 & fired & -> & Hwf2); [done|lia|]. simpl. eauto.
Qed.

(** C10. Termination of [xi_evtd_step]: the fuel [first_free + 1] is enough
    for the firing loop on every well-formed heap, so a step always takes
    the firing branch, and the heap it leaves is well formed. *)
Theorem xi_evtd_step_terminates d t :
  heap_wf (call_heap d) ->
  exists h' fired, evtd_fire (S (first_free (call_heap d))) (call_heap d) t = Some (h', fired) /\
    xi_evtd_step d t = (mk_evtd h' t, fired) /\ heap_wf h'.
Proof.
  intros Hwf.
  destruct (evtd_fire_total (S (first_free (call_heap d))) (call_heap d) t Hwf ltac:(lia))
    as (h' & fired & Hfire & Hwf').
  exists h', fired. unfold xi_evtd_step. by rewrite Hfire.
Qed.

Lemma live_slot h x : x ∈ live h -> exists i, i < first_free h /\ slot_kv h i = x.
Proof.
  unfold live. intros Hx. apply list_elem_of_In, in_map_iff in Hx as (i & <- & Hi).
  apply in_seq in Hi. exists i. split; [lia|done].
Qed.

(** In an ordered heap, a (key, payload) whose key is below every other
    live key sits at the root. *)
Lemma root_unique_min h k v rest :
  heap_ordered h -> live h ≡ₚ (k, v) :: rest -> Forall (fun e => (k < fst e)%Z) rest ->
  0 < first_free h /\ slot_kv h 0 = (k, v).
Proof.
  intros Ho Hl Hrest.
  destruct (live_slot h (k, v)) as (i & Hi & Hsi); [rewrite Hl; by left|].
  split; [lia|].
  pose proof (slot_kv_root_live h ltac:(lia)) as Hr. rewrite Hl in Hr.
  apply elem_of_cons in Hr as [|Hr]; [done|].
  rewrite Forall_forall in Hrest. specialize (Hrest _ Hr).
  pose proof (ordered_root_min _ _ i Ho Hi) as Hmin.
  rewrite !key_at_slot_kv, Hsi in Hmin. cbn [fst] in Hmin. lia.
Qed.

(** C11. Liveness of [xi_evtd_continue]: on a well-formed, ordered heap
    with a free slot, whose pending continuations all lie after the current
    time, a continuation scheduled with [time_diff] [0] is accepted, keeps
    the heap well formed, and the first step at a time not before now fires
    it before any other, through [xi_heap_element_add_void] and
    [xi_heap_get_top]. *)
Theorem xi_evtd_continue_now_fires_first d handle t :
  heap_wf (call_heap d) -> heap_ordered (call_heap d) ->
  first_free (call_heap d) < capacity (call_heap d) ->
  Forall (fun e => (current_time d < fst e)%Z) (live (call_heap d)) -> (current_time d <= t)%Z ->
  exists d' p fired, xi_evtd_continue d 0 handle = XOk (Some (d', p)) /\
    heap_wf (call_heap d') /\ (xi_evtd_step d' t).2 = void_value handle :: fired.
Proof.
  intros Hwf Ho Hff Hfut Ht.
  destruct (add_structure _ (current_time d + 0) (void_value handle) Hwf Hff) as (h1 & p & Hadd & Hwf1 & Hff1 & Hlive1 & _).
  pose proof (add_value_ordered _ _ _ _ _ Hwf Ho Hff Hadd) as Ho1.
  destruct (root_unique_min h1 (current_time d + 0) (void_value handle) (live (call_heap d)) Ho1 Hlive1)
    as [Hpos Hroot]; [eapply Forall_impl; [done|]; simpl; lia|].
  unfold xi_evtd_continue, xi_heap_element_add_void. rewrite Hadd.
  destruct (get_top_structure h1 Hwf1 Hpos) as (h2 & q & Htop & _ & Hwf2 & Hff2 & _).
  destruct (evtd_fire_total (first_free h1) h2 t Hwf2 ltac:(lia)) as (h3 & fired & Hfire & _).
  exists (mk_evtd h1 (current_time d)), p, fired. split_and!; [done|done|].
  unfold xi_evtd_step. simpl. unfold xi_heap_is_empty.
  destruct (Nat.eqb_spec (first_free h1) 0); [lia|]. simpl.
  rewrite key_at_slot_kv, Hroot, (proj2 (Z.leb_le _ _)) by (simpl; lia).
  rewrite Htop, Hfire. simpl.
  rewrite (get_top_value h1 h2 q Hwf1 Hpos Htop), Hroot. done.
Qed.

(** ** Runs against the reference *)

Definition ops_two : list sched_op := [SContinue 1 1; SContinue 2 2]%Z.

Definition evtd_two : xi_evtd_instance :=
  default (mk_evtd (heap_after 1 []) 0) (run_final (evtd_run 8 ops_two)).

Definition queue_two : queue_state := default queue_empty (run_final (run_sched queue_empty ops_two)).

Lemma xi_evtd_step_refines_queue_witness :
  (sched_step evtd_two 5).2 ≡ₚ (sched_step queue_two 5).2 /\
  sched_pending (sched_step evtd_two 5).1 ≡ₚ sched_pending (sched_step queue_two 5).1.
Proof.
  apply (xi_evtd_step_refines_queue evtd_two queue_two 5%Z).
  - apply heap_wfb_sound. vm_compute. reflexivity.
  - vm_compute. reflexivity.
  - vm_compute. repeat constructor; discriminate.
Defined.

Lemma xi_evtd_step_terminates_witness :
  exists h' fired,
    evtd_fire (S (first_free (call_heap evtd_two))) (call_heap evtd_two) 1 = Some (h', fired) /\
    xi_evtd_step evtd_two 1 = (mk_evtd h' 1, fired) /\ heap_wf h'.
Proof.
  apply (xi_evtd_step_terminates evtd_two 1%Z). apply heap_wfb_sound. vm_compute. reflexivity.
Defined.

Definition evtd_one : xi_evtd_instance :=
  default (mk_evtd (heap_after 1 []) 0) (run_final (evtd_run 8 [SContinue 5 7]%Z)).

Lemma xi_evtd_continue_now_fires_first_witness :
  exists d' p fired, xi_evtd_continue evtd_one 0%Z 3 = XOk (Some (d', p)) /\
    heap_wf (call_heap d') /\ (xi_evtd_step d' 1%Z).2 = void_value 3 :: fired.
Proof.
  apply xi_evtd_continue_now_fires_first.
  - apply heap_wfb_sound. vm_compute. reflexivity.
  - apply heap_orderedb_spec. vm_compute. reflexivity.
  - vm_compute. lia.
  - vm_compute. repeat constructor.
  - vm_compute. discriminate.
Defined.

End Dispatcher.
