(* ===== verification/Layer.v ===== *)
(** * The layer framework as [xively.c] configures and calls it

    [xively.c] picks, per build, the enumeration [LAYERS_ID], the connection
    scheme (the ordered list of layer types of a chain, bottom first) and
    the table [LAYER_TYPES_CONF] of the six entry points of every layer
    type (a [0] entry is a missing function).  This file holds that
    configuration as data, the chain that [create_and_connect_layers]
    builds from a scheme (its body is not in the repository: it is modelled
    from the layer contract of the specification), and the calling
    convention [CALL_ON_SELF_*]: a call names a layer, an entry point, the
    data pointer and the state argument.

    The layers below the application are not part of the repository; what
    the drivers of [xively.c] see of them is the state each call returns.
    That is the interface [LayerEnv]: the theorems about the drivers hold
    for every instance.  A driver runs in the writer monad [drv], whose
    output is the trace of calls and writes it performs, in order. *)

From S2P Require Import Prelude.
From stdpp Require Import strings.

Module Layer.

(** ** Build configuration *)

(** [XI_IO_POSIX], [XI_IO_DUMMY], [XI_IO_MBED], [XI_IO_POSIX_ASYNCH] *)
Inductive io_layer_kind : Type :=
  | XI_IO_POSIX | XI_IO_DUMMY | XI_IO_MBED | XI_IO_POSIX_ASYNCH.

Record build_config : Type := mk_build {
  xi_io_layer : io_layer_kind;
  xi_mqtt_enabled : bool;
  xi_nob_enabled : bool
}.

(** ** Layer identifiers and connection schemes *)

Inductive layer_id : Type :=
  | IO_LAYER | HTTP_LAYER | CSV_LAYER | MQTT_LAYER | MQTT_LOGIC_LAYER.

#[export] Instance layer_id_eq_dec : EqDecision layer_id.
Proof. solve_decision. Defined.

(** The value of an enumerator of [enum LAYERS_ID] in a build, [None] when
    the build does not declare it. *)
Definition LAYERS_ID (b : build_config) (l : layer_id) : option nat :=
  match l, xi_mqtt_enabled b with
  | IO_LAYER, _ => Some 0
  | HTTP_LAYER, false => Some 1
  | CSV_LAYER, false => Some 2
  | MQTT_LAYER, true => Some 1
  | MQTT_LOGIC_LAYER, true => Some 2
  | _, _ => None
  end.

Definition CONNECTION_SCHEME_1 : list layer_id := [IO_LAYER; HTTP_LAYER; CSV_LAYER].
Definition CONNECTION_SCHEME_2 : list layer_id := [IO_LAYER; MQTT_LAYER; MQTT_LOGIC_LAYER].

(** The scheme a build defines. *)
Definition connection_scheme (b : build_config) : list layer_id :=
  if xi_mqtt_enabled b then CONNECTION_SCHEME_2 else CONNECTION_SCHEME_1.

(** ** The layer type table *)

(** One [LAYER_TYPE( id, data_ready, on_data_ready, close, on_close, init,
    connect )] entry; a function is named by its C identifier, [None] is
    the literal [0]. *)
Record layer_type : Type := LAYER_TYPE {
  lt_id : layer_id;
  lt_data_ready : option string;
  lt_on_data_ready : option string;
  lt_close : option string;
  lt_on_close : option string;
  lt_init : option string;
  lt_connect : option string
}.

(** An entry whose six functions are [<prefix>_data_ready], ...,
    [<prefix>_connect]; [full = false] writes [0, 0] for init/connect. *)
Definition layer_entry (l : layer_id) (prefix : string) (full : bool) : layer_type :=
  let f s := Some (prefix +:+ s) in
  LAYER_TYPE l (f "_data_ready") (f "_on_data_ready") (f "_close") (f "_on_close")
    (if full then f "_init" else None) (if full then f "_connect" else None).

(** [BEGIN_LAYER_TYPES_CONF() ... END_LAYER_TYPES_CONF()] for each branch
    of the [#if XI_IO_LAYER == ...] / [#ifdef XI_MQTT_ENABLED] selection. *)
Definition LAYER_TYPES_CONF (b : build_config) : list layer_type :=
  let http_csv := [layer_entry HTTP_LAYER "http_layer" false;
                   layer_entry CSV_LAYER "csv_layer" false] in
  match xi_io_layer b, xi_mqtt_enabled b with
  | XI_IO_POSIX, true =>
      [layer_entry IO_LAYER "posix_io_layer" true; layer_entry MQTT_LAYER "xi_mqtt_layer" false]
  | XI_IO_POSIX, false => layer_entry IO_LAYER "posix_io_layer" true :: http_csv
  | XI_IO_DUMMY, _ => layer_entry IO_LAYER "dummy_io_layer" true :: http_csv
  | XI_IO_MBED, true =>
      [layer_entry IO_LAYER "mbed_io_layer" true; layer_entry MQTT_LAYER "xi_mqtt_layer" false]
  | XI_IO_MBED, false => layer_entry IO_LAYER "mbed_io_layer" true :: http_csv
  | XI_IO_POSIX_ASYNCH, true =>
      [layer_entry IO_LAYER "posix_asynch_io_layer" true;
       layer_entry MQTT_LAYER "xi_mqtt_layer" true;
       layer_entry MQTT_LOGIC_LAYER "xi_mqtt_logic_layer" true]
  | XI_IO_POSIX_ASYNCH, false => layer_entry IO_LAYER "posix_asynch_io_layer" true :: http_csv
  end.

(** The entry [create_and_connect_layers] reads for a layer of the scheme:
    the table is indexed by the enumerator's value. *)
Definition layer_type_of (b : build_config) (l : layer_id) : option layer_type :=
  i ← LAYERS_ID b l; LAYER_TYPES_CONF b !! i.

(** A scheme resolves when every layer it names has an entry of its own id. *)
Definition scheme_resolves (b : build_config) : bool :=
  forallb (fun l => match layer_type_of b l with
                    | Some t => bool_decide (lt_id t = l)
                    | None => false
                    end) (connection_scheme b).

(** ** The layer factory table *)

(** One [FACTORY_ENTRY( id, create, delete, alloc, free )] entry, the
    functions by their C identifiers. *)
Record factory_entry : Type := FACTORY_ENTRY {
  fe_id : layer_id;
  fe_create : string;
  fe_delete : string;
  fe_alloc : string;
  fe_free : string
}.

(** Every entry of [xively.c] uses the placement and default heap functions. *)
Definition default_factory_entry (l : layer_id) : factory_entry :=
  FACTORY_ENTRY l "placement_layer_pass_create" "placement_layer_pass_delete"
    "default_layer_heap_alloc" "default_layer_heap_free".

(** [BEGIN_FACTORY_CONF() ... END_FACTORY_CONF()]. *)
Definition FACTORY_CONF (b : build_config) : list factory_entry :=
  if xi_mqtt_enabled b
  then map default_factory_entry [IO_LAYER; MQTT_LAYER; MQTT_LOGIC_LAYER]
  else map default_factory_entry [IO_LAYER; HTTP_LAYER; CSV_LAYER].

(** The factory entry read for a layer of the scheme, by its enumerator. *)
Definition factory_of (b : build_config) (l : layer_id) : option factory_entry :=
  i ← LAYERS_ID b l; FACTORY_CONF b !! i.

(** ** Entry point prototypes *)

(** The C types of the layers' prototypes. *)
Inductive c_type : Type :=
  | C_VOID | C_VOID_PTR | C_CONST_VOID_PTR | C_LAYER_STATE_T | C_SHORT_PTR
  | C_CSV_LAYER_DATA_PTR | C_CONST_DATA_DESCRIPTOR_PTR | C_XI_DATAPOINT_PTR | C_XI_FEED_PTR.

#[export] Instance c_type_eq_dec : EqDecision c_type.
Proof. solve_decision. Defined.

(** A function prototype: name, return type and parameter types. *)
Record c_prototype : Type := mk_proto {
  proto_name : string;
  proto_ret : c_type;
  proto_params : list c_type
}.

#[export] Instance c_prototype_eq_dec : EqDecision c_prototype.
Proof. solve_decision. Defined.

(** The prototype the layer interface gives an entry point:
    [layer_state_t f( void* context, void* data, layer_state_t in_state )]. *)
Definition layer_entry_prototype (name : string) : c_prototype :=
  mk_proto name C_LAYER_STATE_T [C_VOID_PTR; C_VOID_PTR; C_LAYER_STATE_T].

(** The functions an entry of the table names (its non-[0] entries). *)
Definition table_names (t : layer_type) : list string :=
  omap id [lt_data_ready t; lt_on_data_ready t; lt_close t; lt_on_close t; lt_init t; lt_connect t].

(** An entry links against declarations [decls] when every function it
    names is declared there with the prototype of an entry point. *)
Definition entry_links (decls : list c_prototype) (t : layer_type) : bool :=
  forallb (fun n => bool_decide (layer_entry_prototype n ∈ decls)) (table_names t).

(** ** Chains *)

(** The [void* user_datas[]] entries [xi_create_context] hands to
    [create_and_connect_layers]: the null pointer, or the address of one
    of the static layer data objects of [xively.c]. *)
Inductive user_data : Type := UD_NULL | UD_HTTP_LAYER_DATA | UD_CSV_LAYER_DATA.

#[export] Instance user_data_eq_dec : EqDecision user_data.
Proof. solve_decision. Defined.

(** [layer_chain_t]: the chain keeps its two ends, which the drivers use
    (the top is [input_layer], the bottom [io_layer]), and the
    [user_data] each layer was created with ([CON_SELF( context )->user_data]
    in the layer's code). *)
Record layer_chain : Type := mk_chain {
  bottom : layer_id;
  top : layer_id;
  chain_user_datas : list (layer_id * user_data)
}.

(** [create_and_connect_layers( scheme, user_datas, length )]: the first
    layer of the scheme is the bottom of the chain, the last one its top,
    and the [i]-th layer gets the [i]-th user data. *)
Definition create_and_connect_layers (scheme : list layer_id) (user_datas : list user_data)
    : layer_chain :=
  mk_chain (default IO_LAYER (head scheme)) (default IO_LAYER (last scheme))
    (zip scheme user_datas).

(** The [user_data] of a layer of the chain. *)
Definition layer_user_data (ch : layer_chain) (l : layer_id) : option user_data :=
  snd <$> head (filter (fun e => e.1 = l) (chain_user_datas ch)).

(** The object a layer's [user_data] points to, [None] for the null
    pointer; a non-null pointer is taken to point to [x]. *)
Definition user_data_deref {A} (ch : layer_chain) (l : layer_id) (x : A) : option A :=
  match layer_user_data ch l with
  | Some UD_NULL | None => None
  | Some _ => Some x
  end.

(** ** Calls *)

Inductive layer_state : Type :=
  | LAYER_STATE_OK | LAYER_STATE_ERROR | LAYER_STATE_INCOMPLETE | LAYER_STATE_TIMEOUT.

#[export] Instance layer_state_eq_dec : EqDecision layer_state.
Proof. solve_decision. Defined.

(** The third argument of a call: a state, or the hint [LAYER_HINT_NONE]. *)
Inductive layer_arg : Type := ARG_STATE (s : layer_state) | LAYER_HINT_NONE.

Inductive layer_op : Type :=
  | OP_INIT | OP_CONNECT | OP_DATA_READY | OP_ON_DATA_READY | OP_CLOSE | OP_ON_CLOSE.

#[export] Instance layer_op_eq_dec : EqDecision layer_op.
Proof. solve_decision. Defined.

(** [CALL_ON_SELF_<OP>( layer, data, arg )] with the data type [D] of the
    caller. *)
Record layer_call (D : Type) : Type := mk_call {
  lc_layer : layer_id;
  lc_op : layer_op;
  lc_data : D;
  lc_arg : layer_arg
}.
Arguments mk_call {D}.
Arguments lc_layer {D}. Arguments lc_op {D}. Arguments lc_data {D}. Arguments lc_arg {D}.

(** What a driver observes of the layers: the state each call returns. *)
Class LayerEnv (D : Type) := layer_result : layer_call D -> layer_state.

(** What a driver does, in order: layer calls and writes to the shared
    response object ([memset( response, 0, ... )]). *)
Inductive event (D : Type) : Type :=
  | ECall (c : layer_call D)
  | EMemsetResponse.
Arguments ECall {D}. Arguments EMemsetResponse {D}.

(** ** The driver monad: a writer of events *)

Definition drv (D A : Type) : Type := A * list (event D).

#[export] Instance drv_ret {D} : MRet (drv D) := fun A a => (a, []).
#[export] Instance drv_bind {D} : MBind (drv D) :=
  fun A B (k : A -> drv D B) (m : drv D A) =>
    let '(a, t1) := m in let '(b, t2) := k a in (b, t1 ++ t2).

(** [CALL_ON_SELF_<OP>( layer, data, arg )]: the call is recorded and its
    result is what the layer returns. *)
Definition CALL_ON_SELF `{LayerEnv D} (l : layer_id) (op : layer_op) (d : D) (a : layer_arg)
    : drv D layer_state :=
  let c := mk_call l op d a in (layer_result c, [ECall c]).

Definition emit {D} (e : event D) : drv D unit := (tt, [e]).

(** The calls of a trace, in order. *)
Definition calls {D} (t : list (event D)) : list (layer_call D) :=
  omap (fun e => match e with ECall c => Some c | EMemsetResponse => None end) t.

(** The number of calls of a trace on one entry point of one layer. *)
Definition count_calls {D} (l : layer_id) (op : layer_op) (t : list (event D)) : nat :=
  length (filter (fun c : layer_call D => lc_op c = op /\ lc_layer c = l) (calls t)).

Section DrvLaws.
Context {D : Type}.

Lemma drv_bind_unfold {A B} (m : drv D A) (k : A -> drv D B) :
  m ≫= k = ((k m.1).1, m.2 ++ (k m.1).2).
Proof. destruct m as [a t1]. unfold mbind, drv_bind. simpl. by destruct (k a). Qed.

Lemma drv_ret_unfold {A} (a : A) : (mret a : drv D A) = (a, []).
Proof. reflexivity. Qed.

Lemma calls_app (t1 t2 : list (event D)) : calls (t1 ++ t2) = calls t1 ++ calls t2.
Proof. apply omap_app. Qed.

Lemma count_calls_app l op (t1 t2 : list (event D)) :
  count_calls l op (t1 ++ t2) = count_calls l op t1 + count_calls l op t2.
Proof. unfold count_calls. by rewrite calls_app, filter_app, length_app. Qed.

End DrvLaws.

#[export] Hint Rewrite @drv_bind_unfold @drv_ret_unfold @calls_app @count_calls_app : xively_rw.

(** ** The configuration tables *)

(** C33. The layer type table covers the connection scheme in the builds
    without MQTT and in the asynchronous POSIX MQTT build only: in the
    POSIX, mbed and dummy MQTT builds the table has no entry for the
    logic layer [MQTT_LOGIC_LAYER] that [CONNECTION_SCHEME_2] puts on top
    of the chain (index 2 of a table of two), or its entries do not carry
    the ids the scheme asks for. *)
Theorem connection_scheme_resolves b :
  scheme_resolves b = true <-> xi_mqtt_enabled b = false \/ xi_io_layer b = XI_IO_POSIX_ASYNCH.
Proof. destruct b as [[] [] []]; vm_compute; intuition discriminate. Qed.

(** Unlike the layer type table, the factory table has an entry of the
    right id for every layer of the connection scheme in every build: the
    logic layer of the POSIX and mbed MQTT builds can be allocated but has
    no entry points. *)
Theorem factory_covers_scheme b :
  Forall (fun l => exists e, factory_of b l = Some e /\ fe_id e = l) (connection_scheme b).
Proof. destruct b as [[] [] []]; repeat constructor; eexists; split; reflexivity. Qed.

(** In every build, the layer at the bottom of the chain (the one the
    drivers init and connect) has both an [init] and a [connect] function
    in the table, and it is the io layer. *)
Theorem chain_bottom_has_init_connect b uds :
  exists t, layer_type_of b (bottom (create_and_connect_layers (connection_scheme b) uds)) = Some t /\
    lt_id t = IO_LAYER /\ is_Some (lt_init t) /\ is_Some (lt_connect t).
Proof. destruct b as [[] [] []]; eexists; vm_compute; split_and!; eauto. Qed.

End Layer.
