(* ===== verification/CsvLayer.v ===== *)
(** * The prototypes of the CSV layer, [csv/xi_csv_layer.h]

    The CSV layer's bodies are not in the repository; its header is.  It
    declares the six entry points of the layer and the parsing and
    generating helpers.  This file holds the declarations as data and
    checks them against the entry the layer table of [xively.c] gives the
    CSV layer ([Layer.LAYER_TYPES_CONF]). *)

From S2P Require Import Prelude Layer.
From stdpp Require Import strings.

Module CsvLayer.
Import Layer.

(** The declarations of [xi_csv_layer.h], in order. *)
Definition xi_csv_layer_h : list c_prototype := [
  layer_entry_prototype "csv_layer_data_ready";
  layer_entry_prototype "csv_layer_on_data_ready";
  layer_entry_prototype "csv_layer_init";
  layer_entry_prototype "csv_layer_connect";
  layer_entry_prototype "csv_layer_close";
  layer_entry_prototype "csv_layer_on_close";
  mk_proto "csv_layer_parse_datastream" C_LAYER_STATE_T
    [C_CSV_LAYER_DATA_PTR; C_CONST_DATA_DESCRIPTOR_PTR; C_XI_DATAPOINT_PTR];
  mk_proto "csv_layer_parse_feed" C_LAYER_STATE_T
    [C_CSV_LAYER_DATA_PTR; C_CONST_DATA_DESCRIPTOR_PTR; C_XI_FEED_PTR];
  mk_proto "csv_layer_data_generator_datastream_get" C_CONST_VOID_PTR [C_CONST_VOID_PTR; C_SHORT_PTR];
  mk_proto "csv_layer_data_generator_datapoint" C_CONST_VOID_PTR [C_CONST_VOID_PTR; C_SHORT_PTR]
]%string.

(** In every build that has a CSV layer, the table entry of
    [CSV_LAYER] names only functions [xi_csv_layer.h] declares with the
    prototype of a layer entry point, and it registers [0] for [init] and
    [connect] although the header declares [csv_layer_init] and
    [csv_layer_connect] with that prototype. *)
Theorem csv_layer_entry_links b :
  xi_mqtt_enabled b = false ->
  exists t, layer_type_of b CSV_LAYER = Some t /\ entry_links xi_csv_layer_h t = true /\
    lt_init t = None /\ lt_connect t = None /\
    layer_entry_prototype "csv_layer_init" ∈ xi_csv_layer_h /\
    layer_entry_prototype "csv_layer_connect" ∈ xi_csv_layer_h.
Proof.
  destruct b as [[] [] []]; intros E; try discriminate E; eexists;
    (split; [reflexivity|]); split_and!; try reflexivity;
    apply (bool_decide_unpack _); vm_compute; reflexivity.
Qed.

Lemma csv_layer_entry_links_witness :
  exists t, layer_type_of (mk_build XI_IO_POSIX false false) CSV_LAYER = Some t /\
    entry_links xi_csv_layer_h t = true /\ lt_init t = None /\ lt_connect t = None /\
    layer_entry_prototype "csv_layer_init" ∈ xi_csv_layer_h /\
    layer_entry_prototype "csv_layer_connect" ∈ xi_csv_layer_h.
Proof. apply (csv_layer_entry_links (mk_build XI_IO_POSIX false false)). reflexivity. Defined.

End CsvLayer.
