(* ===== verification/Context.v ===== *)
(** * Contexts: [xi_create_context] and [xi_delete_context] of [xively.c]

    A context is a heap object holding the protocol, the feed id, a copy of
    the api key and the layer chain.  In the MQTT non-blocking build the
    library also keeps a global event dispatcher ([xi_evtd_instance]) with
    a reference count [xi_evtd_ref_count].

    The state these functions change is a [xi_world]: the allocator (the
    next fresh address, the live blocks and a script saying which of the
    coming allocations fail, so that every error path can be run), the
    context objects by address, and the dispatcher globals with the set of
    dispatcher instances alive.  [xi_evtd_create_instance] and
    [xi_evtd_destroy_instance] are not in the repository; they are modelled
    as the allocation and the release of an instance.  Building a chain
    ([create_and_connect_layers]) is taken as total.  The behaviour of both
    functions depends on the build, a [build_config]. *)

From S2P Require Import Prelude Layer.
From stdpp Require Import gmap strings.

Module Context.
Import Layer.

(** ** Data *)

(** [xi_protocol_t]; [XI_PROTOCOL_OTHER] stands for any other value. *)
Inductive xi_protocol : Type := XI_HTTP | XI_MQTT | XI_PROTOCOL_OTHER (n : nat).

(** [xi_context_t]: [api_key] is the address of the duplicated string
    ([None] for the null pointer); [input] is the request a non-blocking
    call leaves for the runner: it always points to the static
    [http_layer_input] of one of the [xi_nob_*] functions, named here by
    that function ([None] before the first call). *)
Record xi_context_t : Type := mk_context {
  protocol : xi_protocol;
  feed_id : Z;
  api_key : option nat;
  layer_chain : layer_chain;
  input : option string
}.

Record xi_world : Type := mk_world {
  next_block : nat;
  live_blocks : list nat;
  alloc_script : list bool;
  contexts : gmap nat xi_context_t;
  xi_evtd_ref_count : Z;
  xi_evtd_instance : option nat;
  evtd_alive : list nat
}.

Definition set_contexts (w : xi_world) (c : gmap nat xi_context_t) : xi_world :=
  mk_world (next_block w) (live_blocks w) (alloc_script w) c
    (xi_evtd_ref_count w) (xi_evtd_instance w) (evtd_alive w).

Definition set_evtd (w : xi_world) (rc : Z) (inst : option nat) (alive : list nat) : xi_world :=
  mk_world (next_block w) (live_blocks w) (alloc_script w) (contexts w) rc inst alive.

(** ** The allocator *)

(** [xi_alloc]: the next scripted outcome decides; with the script empty
    every allocation succeeds. *)
Definition xi_alloc (w : xi_world) : option nat * xi_world :=
  match alloc_script w with
  | true :: rest =>
      (None, mk_world (next_block w) (live_blocks w) rest (contexts w)
               (xi_evtd_ref_count w) (xi_evtd_instance w) (evtd_alive w))
  | s =>
      let p := next_block w in
      (Some p, mk_world (S p) (p :: live_blocks w) (tail s) (contexts w)
                 (xi_evtd_ref_count w) (xi_evtd_instance w) (evtd_alive w))
  end.

(** [xi_free] (and [XI_SAFE_FREE] of a non-null pointer). *)
Definition xi_free (w : xi_world) (p : nat) : xi_world :=
  mk_world (next_block w) (filter (fun q => q <> p) (live_blocks w)) (alloc_script w)
    (contexts w) (xi_evtd_ref_count w) (xi_evtd_instance w) (evtd_alive w).

(** [xi_str_dup]: one allocation; the characters are not modelled. *)
Definition xi_str_dup (w : xi_world) : option nat * xi_world := xi_alloc w.

(** [xi_evtd_create_instance] / [xi_evtd_destroy_instance] *)
Definition xi_evtd_create_instance (w : xi_world) : option nat * xi_world :=
  match xi_alloc w with
  | (Some i, w') => (Some i, set_evtd w' (xi_evtd_ref_count w') (xi_evtd_instance w')
                                (i :: evtd_alive w'))
  | (None, w') => (None, w')
  end.

Definition xi_evtd_destroy_instance (w : xi_world) (i : option nat) : xi_world :=
  match i with
  | Some i => let w' := xi_free w i in
              set_evtd w' (xi_evtd_ref_count w') (xi_evtd_instance w')
                (filter (fun j => j <> i) (evtd_alive w'))
  | None => w
  end.

(** ** [xi_create_context] *)

Definition mqtt_nob (b : build_config) : bool := xi_mqtt_enabled b && xi_nob_enabled b.

(** The dispatcher prologue of the MQTT non-blocking build; [false] is the
    jump to [err_handling]. *)
Definition evtd_acquire (b : build_config) (w : xi_world) : bool * xi_world :=
  if mqtt_nob b then
    if bool_decide (xi_evtd_ref_count w = 0%Z) then
      match xi_evtd_create_instance w with
      | (Some i, w') => (true, set_evtd w' (xi_evtd_ref_count w') (Some i) (evtd_alive w'))
      | (None, w') => (false, set_evtd w' (xi_evtd_ref_count w') None (evtd_alive w'))
      end
    else (true, set_evtd w (xi_evtd_ref_count w + 1) (xi_evtd_instance w) (evtd_alive w))
  else (true, w).

(** The chain of a protocol in a build; [None] is the [default] branch. *)
Definition protocol_scheme (b : build_config) (p : xi_protocol) : option (list layer_id) :=
  match p, xi_mqtt_enabled b with
  | XI_HTTP, false => Some CONNECTION_SCHEME_1
  | XI_MQTT, true => Some CONNECTION_SCHEME_2
  | _, _ => None
  end.

(** The [user_datas] of each protocol's chain: [{ 0, &http_layer_data,
    &csv_layer_data }] for HTTP, [{ 0, 0, 0 }] for MQTT. *)
Definition protocol_user_datas (p : xi_protocol) : list user_data :=
  match p with
  | XI_HTTP => [UD_NULL; UD_HTTP_LAYER_DATA; UD_CSV_LAYER_DATA]
  | _ => [UD_NULL; UD_NULL; UD_NULL]
  end.

(** The api key copy of the builds without MQTT: [Some k] is the value
    stored in [ret->api_key]; [None] is the jump to [err_handling] after a
    failed [xi_str_dup]. *)
Definition copy_api_key (b : build_config) (key : option string) (w : xi_world)
    : option (option nat) * xi_world :=
  if xi_mqtt_enabled b then (Some None, w)
  else match key with
       | None => (Some None, w)
       | Some _ => match xi_str_dup w with
                   | (Some k, w') => (Some (Some k), w')
                   | (None, w') => (None, w')
                   end
       end.

(** [err_handling] with [ret] allocated: the builds without MQTT free the
    key copy and the context, the MQTT builds do nothing. *)
Definition create_err (b : build_config) (ret : nat) (k : option nat) (w : xi_world) : xi_world :=
  if xi_mqtt_enabled b then w
  else let w1 := match k with Some k => xi_free w k | None => w end in xi_free w1 ret.

Definition xi_create_context (b : build_config) (p : xi_protocol) (key : option string)
    (feed : Z) (w : xi_world) : option nat * xi_world :=
  match evtd_acquire b w with
  | (false, w1) => (None, w1)
  | (true, w1) =>
      match xi_alloc w1 with
      | (None, w2) => (None, w2)
      | (Some ret, w2) =>
          match copy_api_key b key w2 with
          | (None, w3) => (None, create_err b ret None w3)
          | (Some k, w3) =>
              let fid := if xi_mqtt_enabled b then 0%Z else feed in
              match protocol_scheme b p with
              | None => (None, create_err b ret k w3)
              | Some sch =>
                  let c := mk_context p fid k (create_and_connect_layers sch (protocol_user_datas p)) None in
                  (Some ret, set_contexts w3 (<[ret:=c]> (contexts w3)))
              end
          end
      end
  end.

(** ** [xi_delete_context] *)

(** [XFault]: the [assert]s (a context that is not a live object, a
    protocol the build has no chain for).  Tearing the chain down
    ([destroy_and_disconnect_layers]) changes no state of the model.  The
    dispatcher is destroyed when the decremented count is [0]; the global
    [xi_evtd_instance] keeps the destroyed address. *)
Definition xi_delete_context (b : build_config) (ctx : nat) (w : xi_world) : xres xi_world :=
  match contexts w !! ctx with
  | None => XFault
  | Some c =>
      match protocol_scheme b (protocol c) with
      | None => XFault
      | Some _ =>
          let w1 := if xi_mqtt_enabled b then w
                    else match api_key c with Some k => xi_free w k | None => w end in
          let w2 := xi_free w1 ctx in
          let w3 := set_contexts w2 (delete ctx (contexts w2)) in
          if mqtt_nob b then
            let rc := (xi_evtd_ref_count w3 - 1)%Z in
            let w4 := set_evtd w3 rc (xi_evtd_instance w3) (evtd_alive w3) in
            if bool_decide (rc = 0%Z) then XOk (xi_evtd_destroy_instance w4 (xi_evtd_instance w4))
            else XOk w4
          else XOk w3
      end
  end.

(** ** Builds and worlds used by the examples *)

Definition build_http : build_config := mk_build XI_IO_POSIX false false.
Definition build_http_nob : build_config := mk_build XI_IO_POSIX_ASYNCH false true.
Definition build_mqtt : build_config := mk_build XI_IO_POSIX true false.
Definition build_mqtt_nob : build_config := mk_build XI_IO_POSIX_ASYNCH true true.

(** The state at program start: nothing allocated, no dispatcher. *)
Definition initial_world (script : list bool) : xi_world :=
  mk_world 0 [] script ∅ 0%Z None [].

(** ** The allocator's invariant *)

(** Addresses are handed out in increasing order and never reused: every
    live block, context object and key copy lies below [next_block], and a
    block is live once. *)
Record alloc_wf (w : xi_world) : Prop := {
  aw_bound : Forall (fun q => q < next_block w) (live_blocks w);
  aw_nodup : NoDup (live_blocks w);
  aw_contexts : forall p c, contexts w !! p = Some c ->
    p < next_block w /\ forall k, api_key c = Some k -> k < next_block w
}.

(** ** Lemmas on the allocator *)

Definition drop_script (w : xi_world) : xi_world :=
  mk_world (next_block w) (live_blocks w) (tail (alloc_script w)) (contexts w)
    (xi_evtd_ref_count w) (xi_evtd_instance w) (evtd_alive w).

Definition fresh_block (w : xi_world) : xi_world :=
  mk_world (S (next_block w)) (next_block w :: live_blocks w) (tail (alloc_script w))
    (contexts w) (xi_evtd_ref_count w) (xi_evtd_instance w) (evtd_alive w).

Lemma xi_alloc_cases w :
  (head (alloc_script w) = Some true /\ xi_alloc w = (None, drop_script w)) \/
  (head (alloc_script w) <> Some true /\ xi_alloc w = (Some (next_block w), fresh_block w)).
Proof.
  unfold xi_alloc, drop_script, fresh_block.
  destruct (alloc_script w) as [|[] rest]; simpl; [right|left|right]; split; done.
Qed.

(** Split on the outcome of the next allocation of the world [w]. *)
Ltac alloc_case w :=
  let Hh := fresh "Hhead" in let Ha := fresh "Halloc" in
  destruct (xi_alloc_cases w) as [[Hh Ha]|[Hh Ha]]; rewrite ?Ha.

Lemma filter_fresh (l : list nat) p :
  Forall (fun q => q < p) l -> filter (fun q => q <> p) l = l.
Proof.
  induction 1 as [|q l Hq _ IH]; [done|].
  rewrite filter_cons_True by lia. by rewrite IH.
Qed.

Lemma filter_fresh_cons (l : list nat) p :
  Forall (fun q => q < p) l -> filter (fun q => q <> p) (p :: l) = l.
Proof. intros Hl. rewrite filter_cons_False by (intros H; by apply H). by apply filter_fresh. Qed.

Lemma alloc_wf_fresh w : alloc_wf w -> alloc_wf (fresh_block w).
Proof.
  intros [Hb Hn Hc]. split; simpl.
  - constructor; [lia|]. eapply Forall_impl; [exact Hb|]. simpl. lia.
  - constructor; [|done]. intros Hin. rewrite Forall_forall in Hb. specialize (Hb _ Hin). lia.
  - intros p c Hp. destruct (Hc p c Hp) as [Hp1 Hk]. split; [lia|]. intros k Hk'. specialize (Hk k Hk'). lia.
Qed.

Lemma alloc_wf_free w p : alloc_wf w -> alloc_wf (xi_free w p).
Proof.
  intros [Hb Hn Hc]. split; simpl; [|by apply NoDup_filter|done].
  rewrite Forall_forall in *. intros q. rewrite list_elem_of_filter. intros [_ Hq]. auto.
Qed.

#[export] Hint Resolve alloc_wf_fresh alloc_wf_free filter_fresh filter_fresh_cons : xively.

Lemma evtd_acquire_off b w : mqtt_nob b = false -> evtd_acquire b w = (true, w).
Proof. unfold evtd_acquire. by intros ->. Qed.

Lemma mqtt_nob_off b : xi_mqtt_enabled b = false -> mqtt_nob b = false.
Proof. unfold mqtt_nob. by intros ->. Qed.

Lemma wf_bound_S w : alloc_wf w -> Forall (fun q => q < S (next_block w)) (next_block w :: live_blocks w).
Proof.
  intros Hw. constructor; [lia|]. eapply Forall_impl; [apply (aw_bound _ Hw)|]. simpl. lia.
Qed.

Lemma alloc_wf_drop w : alloc_wf w -> alloc_wf (drop_script w).
Proof. by intros [Hb Hn Hc]; split. Qed.

Lemma alloc_wf_set_evtd w rc i a : alloc_wf w -> alloc_wf (set_evtd w rc i a).
Proof. by intros [Hb Hn Hc]; split. Qed.

Lemma alloc_wf_insert w p c :
  alloc_wf w -> p < next_block w -> (forall k, api_key c = Some k -> k < next_block w) ->
  alloc_wf (set_contexts w (<[p:=c]> (contexts w))).
Proof.
  intros [Hb Hn Hc] Hp Hk. split; simpl; [done|done|].
  intros q d. rewrite lookup_insert_Some. intros [[<- <-]|[_ Hq]]; eauto.
Qed.

Lemma alloc_wf_delete w p : alloc_wf w -> alloc_wf (set_contexts w (delete p (contexts w))).
Proof.
  intros [Hb Hn Hc]. split; simpl; [done|done|].
  intros q d. rewrite lookup_delete_Some. intros [_ Hq]. eauto.
Qed.

Lemma alloc_wf_free_delete w p q :
  alloc_wf w -> alloc_wf (set_contexts (xi_free w p) (delete q (contexts w))).
Proof. intros Hw. apply (alloc_wf_delete (xi_free w p)). by apply alloc_wf_free. Qed.

#[export] Hint Resolve alloc_wf_free_delete : xively.

Lemma alloc_wf_alloc w o w' : alloc_wf w -> xi_alloc w = (o, w') -> alloc_wf w'.
Proof. intros Hw. alloc_case w; intros [= _ <-]; auto using alloc_wf_drop, alloc_wf_fresh. Qed.

Lemma alloc_wf_evtd_create w o w' : alloc_wf w -> xi_evtd_create_instance w = (o, w') -> alloc_wf w'.
Proof.
  unfold xi_evtd_create_instance. intros Hw.
  destruct (xi_alloc w) as [[i|] w1] eqn:Ha; intros [= _ <-];
    eauto using alloc_wf_set_evtd, alloc_wf_alloc.
Qed.

Lemma alloc_wf_evtd_destroy w i : alloc_wf w -> alloc_wf (xi_evtd_destroy_instance w i).
Proof. destruct i; simpl; auto using alloc_wf_set_evtd, alloc_wf_free. Qed.

#[export] Hint Resolve alloc_wf_drop alloc_wf_set_evtd alloc_wf_delete alloc_wf_evtd_destroy : xively.

(** ** Creating a context *)

(** C25. In the builds without MQTT, [xi_create_context] that fails (an
    allocation fails, or the protocol is not [XI_HTTP]) leaves no block
    allocated and no context behind: it returns the failure sentinel and
    nothing of a partial context. *)
Theorem xi_create_context_no_partial_state b p key feed w w' :
  xi_mqtt_enabled b = false -> alloc_wf w ->
  xi_create_context b p key feed w = (None, w') ->
  live_blocks w' = live_blocks w /\ contexts w' = contexts w.
Proof.
  intros Hm Hw. unfold xi_create_context. rewrite evtd_acquire_off by (by apply mqtt_nob_off).
  alloc_case w; [intros [= <-]; done|].
  unfold copy_api_key, create_err. rewrite Hm.
  pose proof (aw_bound _ Hw) as Hb.
  destruct key as [s|]; [unfold xi_str_dup; alloc_case (fresh_block w)|];
    destruct (protocol_scheme b p); intros [= <-]; simpl;
    rewrite ?filter_fresh_cons; auto using wf_bound_S.
Qed.

Lemma evtd_acquire_wf b w ok w' : alloc_wf w -> evtd_acquire b w = (ok, w') -> alloc_wf w'.
Proof.
  unfold evtd_acquire. intros Hw.
  destruct (mqtt_nob b); [|by intros [= _ <-]].
  case_bool_decide; [|intros [= _ <-]; auto with xively].
  destruct (xi_evtd_create_instance w) as [[i|] w1] eqn:E; intros [= _ <-];
    eauto using alloc_wf_set_evtd, alloc_wf_evtd_create.
Qed.

Lemma xi_alloc_some w p w' : xi_alloc w = (Some p, w') -> p = next_block w /\ next_block w' = S p.
Proof. alloc_case w; [done|]. by intros [= <- <-]. Qed.

Lemma xi_alloc_globals w o w' :
  xi_alloc w = (o, w') ->
  xi_evtd_ref_count w' = xi_evtd_ref_count w /\ xi_evtd_instance w' = xi_evtd_instance w /\
  evtd_alive w' = evtd_alive w /\ contexts w' = contexts w.
Proof. alloc_case w; by intros [= _ <-]. Qed.

Lemma xi_alloc_next w o w' : xi_alloc w = (o, w') -> next_block w <= next_block w'.
Proof. alloc_case w; intros [= _ <-]; simpl; lia. Qed.

Lemma copy_api_key_wf b key w o w' :
  alloc_wf w -> copy_api_key b key w = (o, w') ->
  alloc_wf w' /\ next_block w <= next_block w' /\
  forall k, o = Some (Some k) -> k < next_block w'.
Proof.
  unfold copy_api_key, xi_str_dup. intros Hw.
  destruct (xi_mqtt_enabled b); [intros [= <- <-]; split_and!; [done|lia|done]|].
  destruct key; [|intros [= <- <-]; split_and!; [done|lia|done]].
  destruct (xi_alloc w) as [[k|] w1] eqn:E; intros [= <- <-];
    (split_and!; [eauto using alloc_wf_alloc|eauto using xi_alloc_next|]);
    [|done]. intros k' [= <-]. apply xi_alloc_some in E. lia.
Qed.

Lemma create_err_wf b ret k w : alloc_wf w -> alloc_wf (create_err b ret k w).
Proof. unfold create_err. destruct (xi_mqtt_enabled b), k; auto with xively. Qed.

(** Creating a context keeps the allocator's invariant, on every path
    of every build. *)
Theorem xi_create_context_preserves_wf b p key feed w o w' :
  alloc_wf w -> xi_create_context b p key feed w = (o, w') -> alloc_wf w'.
Proof.
  intros Hw. unfold xi_create_context.
  destruct (evtd_acquire b w) as [[] w1] eqn:E1; [|intros [= _ <-]; eauto using evtd_acquire_wf].
  apply evtd_acquire_wf in E1; [|done].
  destruct (xi_alloc w1) as [[ret|] w2] eqn:E2; [|intros [= _ <-]; eauto using alloc_wf_alloc].
  pose proof (xi_alloc_some _ _ _ E2) as [_ Hn2]. apply alloc_wf_alloc in E2; [|done].
  destruct (copy_api_key b key w2) as [[k|] w3] eqn:E3;
    apply copy_api_key_wf in E3 as (Hw3 & Hn3 & Hk); try done;
    [|intros [= _ <-]; by apply create_err_wf].
  destruct (protocol_scheme b p); intros [= _ <-]; [|by apply create_err_wf].
  apply alloc_wf_insert; [done|lia|]. simpl. intros k' ->. by apply Hk.
Qed.

(** A successful [xi_create_context] stores a context of the protocol
    asked for, whose chain is the protocol's scheme built with the
    protocol's [user_datas]. *)
Lemma xi_create_context_chain b p key feed w ret w' :
  xi_create_context b p key feed w = (Some ret, w') ->
  exists sch c, protocol_scheme b p = Some sch /\ contexts w' !! ret = Some c /\
    protocol c = p /\ layer_chain c = create_and_connect_layers sch (protocol_user_datas p).
Proof.
  unfold xi_create_context. repeat case_match; intros; simplify_eq.
  all: do 2 eexists; split; [done|]; split; [simpl; by rewrite lookup_insert_eq|done].
Qed.

(** The effect of a successful [xi_create_context] for [XI_HTTP] in the
    builds without MQTT. *)
Lemma create_http_spec b key feed w ret w' :
  xi_mqtt_enabled b = false ->
  xi_create_context b XI_HTTP key feed w = (Some ret, w') ->
  ret = next_block w /\
  exists k, (key = None <-> k = None) /\ (forall k', k = Some k' -> k' = S ret) /\
    contexts w' = <[ret := mk_context XI_HTTP feed k
                             (create_and_connect_layers CONNECTION_SCHEME_1 (protocol_user_datas XI_HTTP)) None]> (contexts w) /\
    live_blocks w' = option_list k ++ ret :: live_blocks w.
Proof.
  intros Hm. unfold xi_create_context. rewrite evtd_acquire_off by (by apply mqtt_nob_off).
  alloc_case w; [done|]. unfold copy_api_key, protocol_scheme, xi_str_dup. rewrite Hm.
  destruct key as [s|]; [alloc_case (fresh_block w)|]; intros [= <- <-];
    (split; [done|]); [exists (Some (S (next_block w)))|exists None]; simpl;
    split_and!; try done; by intros ? [= <-].
Qed.

(** In the builds without MQTT, a successful [xi_create_context] for
    [XI_HTTP] returns the block just allocated, stores there a context of
    protocol [XI_HTTP] with the given feed id, a fresh copy of the api key
    when one is given, and the chain of [CONNECTION_SCHEME_1]; the blocks
    allocated are the context and the key copy. *)
Theorem xi_create_context_http b key feed w ret w' :
  xi_mqtt_enabled b = false ->
  xi_create_context b XI_HTTP key feed w = (Some ret, w') ->
  ret = next_block w /\
  exists k, (key = None <-> k = None) /\ (forall k', k = Some k' -> k' = S ret) /\
    contexts w' = <[ret := mk_context XI_HTTP feed k
                             (create_and_connect_layers CONNECTION_SCHEME_1 (protocol_user_datas XI_HTTP)) None]> (contexts w) /\
    live_blocks w' = option_list k ++ ret :: live_blocks w.
Proof. apply create_http_spec. Qed.

Lemma xi_delete_context_preserves_wf b ctx w w' :
  alloc_wf w -> xi_delete_context b ctx w = XOk w' -> alloc_wf w'.
Proof.
  intros Hw. unfold xi_delete_context.
  destruct (contexts w !! ctx) as [c|]; [|done]. destruct (protocol_scheme b (protocol c)); [|done].
  set (w1 := if xi_mqtt_enabled b then w else _).
  assert (Hw1 : alloc_wf w1) by (subst w1; destruct (xi_mqtt_enabled b), (api_key c); auto with xively).
  destruct (mqtt_nob b); [case_bool_decide|]; intros [= <-]; cbv zeta; auto 8 with xively.
Qed.

(** ** Deleting a context *)

(** In the builds without MQTT, deleting a context just created frees
    exactly what the creation allocated: the live blocks and the context
    objects are those before the creation. *)
Theorem xi_context_create_delete_roundtrip b key feed w ret w' :
  xi_mqtt_enabled b = false -> alloc_wf w ->
  xi_create_context b XI_HTTP key feed w = (Some ret, w') ->
  exists w'', xi_delete_context b ret w' = XOk w'' /\
    live_blocks w'' = live_blocks w /\ contexts w'' = contexts w.
Proof.
  intros Hm Hw Hc. apply create_http_spec in Hc as (-> & k & Hk & Hk' & Hctx & Hlive); [|done].
  unfold xi_delete_context. rewrite Hctx, lookup_insert_eq. simpl. rewrite Hm, (mqtt_nob_off b Hm).
  eexists. split; [reflexivity|]. simpl.
  assert (Hfresh : contexts w !! next_block w = None).
  { destruct (contexts w !! next_block w) as [c|] eqn:E; [|done].
    destruct (aw_contexts _ Hw _ _ E). lia. }
  destruct k as [k|]; simpl; (split; [|rewrite Hctx, delete_insert_eq; by apply delete_id]);
    rewrite Hlive; simpl.
  - rewrite (Hk' k eq_refl), filter_fresh_cons by (apply wf_bound_S, Hw).
    apply filter_fresh_cons, (aw_bound _ Hw).
  - apply filter_fresh_cons, (aw_bound _ Hw).
Qed.

(** ** The MQTT builds *)

(** C26. In the MQTT blocking build, [xi_create_context] with a protocol
    other than [XI_MQTT] takes the [default] branch after allocating the
    context, and its [err_handling] frees nothing there: it returns the
    failure sentinel and the context block stays allocated, reachable from
    nowhere. *)
Theorem xi_create_context_unsupported_leaks b p key feed w w' :
  xi_mqtt_enabled b = true -> xi_nob_enabled b = false -> p <> XI_MQTT ->
  head (alloc_script w) <> Some true ->
  xi_create_context b p key feed w = (None, w') ->
  live_blocks w' = next_block w :: live_blocks w /\ contexts w' = contexts w.
Proof.
  intros Hm Hn Hp Hh. unfold xi_create_context.
  rewrite evtd_acquire_off by (unfold mqtt_nob; by rewrite Hm, Hn).
  alloc_case w; [done|]. unfold copy_api_key, create_err, protocol_scheme. rewrite Hm.
  destruct p; [|done|]; by intros [= <-].
Qed.

(** In the MQTT non-blocking build, creating a context while the
    dispatcher count is [0] creates a new dispatcher instance and makes it
    the global one, but leaves the count at [0]: the count never records
    the first context, so every creation from a zero count makes a new
    instance and the one before stays allocated.  The specification has
    the dispatcher created with the first context and counted by every
    context. *)
Theorem xi_create_context_ref_count_stays_zero b key feed w ret w' :
  mqtt_nob b = true -> xi_evtd_ref_count w = 0%Z ->
  xi_create_context b XI_MQTT key feed w = (Some ret, w') ->
  xi_evtd_ref_count w' = 0%Z /\
  exists i, xi_evtd_instance w' = Some i /\ evtd_alive w' = i :: evtd_alive w.
Proof.
  intros Hmn H0. unfold xi_create_context, evtd_acquire. rewrite Hmn, H0. simpl.
  unfold xi_evtd_create_instance. alloc_case w; [done|]. simpl.
  unfold copy_api_key, protocol_scheme.
  assert (Hm : xi_mqtt_enabled b = true) by (unfold mqtt_nob in Hmn; by destruct (xi_mqtt_enabled b)).
  rewrite Hm. simpl. destruct (xi_alloc (set_evtd _ _ _ _)) as [[r|] w2] eqn:E2; [|done].
  apply xi_alloc_globals in E2 as (Hr & Hi & Ha & _). intros [= <- <-]. simpl.
  rewrite Hr, Hi, Ha. simpl. eauto.
Qed.

Definition evtd_scenario : xres xi_world :=
  let '(_, w1) := xi_create_context build_mqtt_nob XI_MQTT None 0 (initial_world []) in
  let '(c2, w2) := xi_create_context build_mqtt_nob XI_MQTT None 0 w1 in
  match c2 with
  | Some c2 =>
      let! w3 := xi_delete_context build_mqtt_nob c2 w2 in
      xi_delete_context build_mqtt_nob 1 w3
  | None => XFault
  end%xi.

(** C27. Two contexts created and both deleted, in the MQTT non-blocking
    build: the dispatcher count ends at [-2], both dispatcher instances
    created are still alive and none was destroyed, although no context is
    left. *)
Example xi_context_evtd_lifetime :
  exists w, evtd_scenario = XOk w /\ contexts w = ∅ /\
    xi_evtd_ref_count w = (-2)%Z /\ length (evtd_alive w) = 2.
Proof. eexists. split; [vm_compute; reflexivity|]. vm_compute. split_and!; reflexivity. Qed.

(** ** Witnesses *)

Lemma alloc_wf_initial s : alloc_wf (initial_world s).
Proof. split; simpl; [constructor|constructor|done]. Qed.

Definition script_fail_key : list bool := [false; true].

Lemma xi_create_context_no_partial_state_witness :
  exists w', xi_create_context build_http XI_HTTP (Some "key") 5 (initial_world script_fail_key) = (None, w') /\
    live_blocks w' = live_blocks (initial_world script_fail_key) /\
    contexts w' = contexts (initial_world script_fail_key).
Proof.
  eexists. split; [reflexivity|].
  apply (xi_create_context_no_partial_state build_http XI_HTTP (Some "key") 5);
    [reflexivity|apply alloc_wf_initial|reflexivity].
Defined.

Lemma xi_create_context_http_witness :
  exists w', xi_create_context build_http XI_HTTP (Some "key") 5 (initial_world []) = (Some 0, w') /\
    0 = next_block (initial_world []) /\
    exists k, (Some "key" = None <-> k = None) /\ (forall k', k = Some k' -> k' = S 0) /\
      contexts w' = <[0 := mk_context XI_HTTP 5 k (create_and_connect_layers CONNECTION_SCHEME_1 (protocol_user_datas XI_HTTP)) None]>
                      (contexts (initial_world [])) /\
      live_blocks w' = option_list k ++ 0 :: live_blocks (initial_world []).
Proof.
  eexists. split; [reflexivity|].
  apply (xi_create_context_http build_http (Some "key") 5 (initial_world [])); reflexivity.
Defined.

Lemma xi_context_create_delete_roundtrip_witness :
  exists w', xi_create_context build_http XI_HTTP (Some "key") 5 (initial_world []) = (Some 0, w') /\
  exists w'', xi_delete_context build_http 0 w' = XOk w'' /\
    live_blocks w'' = live_blocks (initial_world []) /\ contexts w'' = contexts (initial_world []).
Proof.
  eexists. split; [reflexivity|].
  apply (xi_context_create_delete_roundtrip build_http (Some "key") 5 (initial_world []) 0);
    [reflexivity|apply alloc_wf_initial|reflexivity].
Defined.

Lemma xi_create_context_unsupported_leaks_witness :
  exists w', xi_create_context build_mqtt XI_HTTP None 5 (initial_world []) = (None, w') /\
    live_blocks w' = next_block (initial_world []) :: live_blocks (initial_world []) /\
    contexts w' = contexts (initial_world []).
Proof.
  eexists. split; [reflexivity|].
  apply (xi_create_context_unsupported_leaks build_mqtt XI_HTTP None 5 (initial_world []));
    [reflexivity|reflexivity|discriminate|discriminate|reflexivity].
Defined.

Lemma xi_create_context_preserves_wf_witness :
  exists o w', xi_create_context build_mqtt_nob XI_MQTT None 0 (initial_world script_fail_key) = (o, w') /\
    alloc_wf w'.
Proof.
  do 2 eexists. split; [reflexivity|].
  eapply (xi_create_context_preserves_wf build_mqtt_nob XI_MQTT None 0 (initial_world script_fail_key));
    [apply alloc_wf_initial|reflexivity].
Defined.

Lemma xi_create_context_ref_count_stays_zero_witness :
  exists w', xi_create_context build_mqtt_nob XI_MQTT None 0 (initial_world []) = (Some 1, w') /\
    xi_evtd_ref_count w' = 0%Z /\
    exists i, xi_evtd_instance w' = Some i /\ evtd_alive w' = i :: evtd_alive (initial_world []).
Proof.
  eexists. split; [reflexivity|].
  apply (xi_create_context_ref_count_stays_zero build_mqtt_nob None 0 (initial_world []) 1);
    reflexivity.
Defined.

End Context.
