(* ===== verification/Legacy.v ===== *)
(** * The legacy request drivers of [xively.c]

    The builds without MQTT expose nine CRUD calls.  The blocking ones
    ([xi_feed_get] ... [xi_datapoint_delete_range]) all run the same body:
    init and connect the io layer (returning [0] on failure), clear the
    shared response, hand the request to the top layer with [data_ready],
    pull the answer with [on_data_ready] on the io layer when [data_ready]
    succeeded, close the top layer and return the response.  That body is
    [legacy_request]; every C function is one definition passing its query.

    The non-blocking ones ([xi_nob_*]) only init the io layer, clear the
    response, fill the function's own static [http_layer_input] and point
    [xi->input] at it.  Their state is the world of [Context.v] together
    with the static inputs, by function name ([nob_world]). *)

From S2P Require Import Prelude Layer Context.
From stdpp Require Import gmap strings.

Module Legacy.
Import Layer Context.

(** ** Requests *)

(** [http_layer_query_type_t] *)
Inductive http_layer_query_type : Type :=
  | HTTP_LAYER_INPUT_FEED_GET
  | HTTP_LAYER_INPUT_FEED_GET_ALL
  | HTTP_LAYER_INPUT_FEED_UPDATE
  | HTTP_LAYER_INPUT_DATASTREAM_GET
  | HTTP_LAYER_INPUT_DATASTREAM_CREATE
  | HTTP_LAYER_INPUT_DATASTREAM_UPDATE
  | HTTP_LAYER_INPUT_DATASTREAM_DELETE
  | HTTP_LAYER_INPUT_DATAPOINT_DELETE
  | HTTP_LAYER_INPUT_DATAPOINT_DELETE_RANGE.

(** The members of [http_union_data] the drivers write; pointers are
    addresses, the datastream id is the string. *)
Inductive http_union_data : Type :=
  | xi_get_feed (feed : nat)
  | xi_update_feed (feed : nat)
  | xi_get_datastream (datastream : string) (value : nat)
  | xi_create_datastream (datastream : string) (value : nat)
  | xi_update_datastream (datastream : string) (value : nat)
  | xi_delete_datastream (datastream : string)
  | xi_delete_datapoint (datastream : string) (value : nat)
  | xi_delete_datapoint_range (datastream : string) (value_start value_end : nat).

(** [http_layer_input_t]: the query, the context and the union (the third
    member, [0] in every initialiser of this file, is left out). *)
Record http_layer_input : Type := mk_input {
  query_type : http_layer_query_type;
  xi_context : nat;
  http_union : http_union_data
}.

(** The data pointers the drivers pass to a layer: [0], the connection
    data [{ XI_HOST, XI_PORT }], or the request. *)
Inductive legacy_data : Type :=
  | DNull
  | DConnection (host : string) (port : nat)
  | DInput (i : http_layer_input).

(** What a blocking call returns when it does not return [0]: the response
    object of the csv layer, the one static [xi_response] that
    [xi_create_context] shares between all contexts. *)
Inductive xi_response_ref : Type := XI_RESPONSE_STATIC.

Section Drivers.
Context (XI_HOST : string) (XI_PORT : nat).
Context `{LayerEnv legacy_data}.

(** ** The blocking body *)

Definition legacy_request (c : xi_context_t) (q : http_layer_input)
    : drv legacy_data (option xi_response_ref) :=
  let input_layer := top (layer_chain c) in
  let io_layer := bottom (layer_chain c) in
  s1 ← CALL_ON_SELF io_layer OP_INIT DNull (ARG_STATE LAYER_STATE_OK);
  if decide (s1 <> LAYER_STATE_OK) then mret None else
  s2 ← CALL_ON_SELF io_layer OP_CONNECT (DConnection XI_HOST XI_PORT) (ARG_STATE LAYER_STATE_OK);
  if decide (s2 <> LAYER_STATE_OK) then mret None else
  emit EMemsetResponse;;
  s3 ← CALL_ON_SELF input_layer OP_DATA_READY (DInput q) (ARG_STATE LAYER_STATE_OK);
  (if decide (s3 = LAYER_STATE_OK)
   then CALL_ON_SELF io_layer OP_ON_DATA_READY DNull (ARG_STATE LAYER_STATE_OK);; mret tt
   else mret tt);;
  CALL_ON_SELF input_layer OP_CLOSE DNull (ARG_STATE LAYER_STATE_OK);;
  mret (Some XI_RESPONSE_STATIC).

(** ** The nine blocking calls; [xi] is the context's address, [c] the
    context object it points to. *)

Definition xi_feed_get (xi : nat) (c : xi_context_t) (feed : nat) :=
  legacy_request c (mk_input HTTP_LAYER_INPUT_FEED_GET xi (xi_get_feed feed)).

Definition xi_feed_get_all (xi : nat) (c : xi_context_t) (feed : nat) :=
  legacy_request c (mk_input HTTP_LAYER_INPUT_FEED_GET_ALL xi (xi_get_feed feed)).

Definition xi_feed_update (xi : nat) (c : xi_context_t) (feed : nat) :=
  legacy_request c (mk_input HTTP_LAYER_INPUT_FEED_UPDATE xi (xi_update_feed feed)).

Definition xi_datastream_get (xi : nat) (c : xi_context_t) (feed_id : Z) (datastream_id : string)
    (o : nat) :=
  legacy_request c (mk_input HTTP_LAYER_INPUT_DATASTREAM_GET xi (xi_get_datastream datastream_id o)).

Definition xi_datastream_create (xi : nat) (c : xi_context_t) (feed_id : Z)
    (datastream_id : string) (datapoint : nat) :=
  legacy_request c (mk_input HTTP_LAYER_INPUT_DATASTREAM_CREATE xi
                      (xi_create_datastream datastream_id datapoint)).

Definition xi_datastream_update (xi : nat) (c : xi_context_t) (feed_id : Z)
    (datastream_id : string) (datapoint : nat) :=
  legacy_request c (mk_input HTTP_LAYER_INPUT_DATASTREAM_UPDATE xi
                      (xi_update_datastream datastream_id datapoint)).

Definition xi_datastream_delete (xi : nat) (c : xi_context_t) (feed_id : Z)
    (datastream_id : string) :=
  legacy_request c (mk_input HTTP_LAYER_INPUT_DATASTREAM_DELETE xi
                      (xi_delete_datastream datastream_id)).

Definition xi_datapoint_delete (xi : nat) (c : xi_context_t) (feed_id : Z)
    (datastream_id : string) (o : nat) :=
  legacy_request c (mk_input HTTP_LAYER_INPUT_DATAPOINT_DELETE xi
                      (xi_delete_datapoint datastream_id o)).

Definition xi_datapoint_delete_range (xi : nat) (c : xi_context_t) (feed_id : Z)
    (datastream_id : string) (start end_ : nat) :=
  legacy_request c (mk_input HTTP_LAYER_INPUT_DATAPOINT_DELETE_RANGE xi
                      (xi_delete_datapoint_range datastream_id start end_)).

End Drivers.

(** ** The non-blocking calls *)

(** The world of the non-blocking build: the contexts and the allocator,
    and the static [http_layer_input] of each [xi_nob_*] function, by the
    function's name. *)
Record nob_world : Type := mk_nob {
  nw_world : xi_world;
  nw_statics : gmap string http_layer_input
}.

Section NobDrivers.
Context `{LayerEnv legacy_data}.

(** The body shared by the nine [xi_nob_*] functions: [fn] names the
    function and so its static input.  [XFault]: [xi] is not a context. *)
Definition nob_request (fn : string) (q : http_layer_query_type) (u : http_union_data) (xi : nat)
    (nw : nob_world) : xres (drv legacy_data (option nat * nob_world)) :=
  match contexts (nw_world nw) !! xi with
  | None => XFault
  | Some c =>
      XOk (s ← CALL_ON_SELF (bottom (layer_chain c)) OP_INIT DNull LAYER_HINT_NONE;
           if decide (s <> LAYER_STATE_OK) then mret (None, nw) else
           emit EMemsetResponse;;
           let st := <[fn := mk_input q xi u]> (nw_statics nw) in
           let c' := mk_context (protocol c) (feed_id c) (api_key c) (layer_chain c) (Some fn) in
           mret (Some xi, mk_nob (set_contexts (nw_world nw) (<[xi := c']> (contexts (nw_world nw)))) st))
  end.

Definition xi_nob_feed_update (xi : nat) (value : nat) :=
  nob_request "xi_nob_feed_update" HTTP_LAYER_INPUT_FEED_UPDATE (xi_update_feed value) xi.

Definition xi_nob_feed_get (xi : nat) (value : nat) :=
  nob_request "xi_nob_feed_get" HTTP_LAYER_INPUT_FEED_GET (xi_get_feed value) xi.

Definition xi_nob_feed_get_all (xi : nat) (value : nat) :=
  nob_request "xi_nob_feed_get_all" HTTP_LAYER_INPUT_FEED_GET_ALL (xi_get_feed value) xi.

Definition xi_nob_datastream_create (xi : nat) (feed_id : Z) (datastream_id : string) (value : nat) :=
  nob_request "xi_nob_datastream_create" HTTP_LAYER_INPUT_DATASTREAM_CREATE
    (xi_create_datastream datastream_id value) xi.

Definition xi_nob_datastream_update (xi : nat) (feed_id : Z) (datastream_id : string) (value : nat) :=
  nob_request "xi_nob_datastream_update" HTTP_LAYER_INPUT_DATASTREAM_UPDATE
    (xi_update_datastream datastream_id value) xi.

Definition xi_nob_datastream_get (xi : nat) (feed_id : Z) (datastream_id : string) (dp : nat) :=
  nob_request "xi_nob_datastream_get" HTTP_LAYER_INPUT_DATASTREAM_GET
    (xi_get_datastream datastream_id dp) xi.

Definition xi_nob_datastream_delete (xi : nat) (feed_id : Z) (datastream_id : string) :=
  nob_request "xi_nob_datastream_delete" HTTP_LAYER_INPUT_DATASTREAM_DELETE
    (xi_delete_datastream datastream_id) xi.

Definition xi_nob_datapoint_delete (xi : nat) (feed_id : Z) (datastream_id : string) (dp : nat) :=
  nob_request "xi_nob_datapoint_delete" HTTP_LAYER_INPUT_DATAPOINT_DELETE
    (xi_delete_datapoint datastream_id dp) xi.

Definition xi_nob_datapoint_delete_range (xi : nat) (feed_id : Z) (datastream_id : string)
    (start end_ : nat) :=
  nob_request "xi_nob_datapoint_delete_range" HTTP_LAYER_INPUT_DATAPOINT_DELETE_RANGE
    (xi_delete_datapoint_range datastream_id start end_) xi.

End NobDrivers.

(** The request the runner would send for the context at [xi]: the
    content of the static input its [input] points to. *)
Definition pending_request (nw : nob_world) (xi : nat) : option http_layer_input :=
  c ← contexts (nw_world nw) !! xi; fn ← input c; nw_statics nw !! fn.

(** ** The calls of the blocking body *)

Definition call_init (c : xi_context_t) : layer_call legacy_data :=
  mk_call (bottom (layer_chain c)) OP_INIT DNull (ARG_STATE LAYER_STATE_OK).
Definition call_connect (host : string) (port : nat) (c : xi_context_t) : layer_call legacy_data :=
  mk_call (bottom (layer_chain c)) OP_CONNECT (DConnection host port) (ARG_STATE LAYER_STATE_OK).
Definition call_data_ready (c : xi_context_t) (q : http_layer_input) : layer_call legacy_data :=
  mk_call (top (layer_chain c)) OP_DATA_READY (DInput q) (ARG_STATE LAYER_STATE_OK).
Definition call_on_data_ready (c : xi_context_t) : layer_call legacy_data :=
  mk_call (bottom (layer_chain c)) OP_ON_DATA_READY DNull (ARG_STATE LAYER_STATE_OK).
Definition call_close (c : xi_context_t) : layer_call legacy_data :=
  mk_call (top (layer_chain c)) OP_CLOSE DNull (ARG_STATE LAYER_STATE_OK).

Section BlockingFacts.
Context (XI_HOST : string) (XI_PORT : nat) `{LayerEnv legacy_data}.

(** The blocking body in closed form. *)
Lemma legacy_request_unfold c q :
  legacy_request XI_HOST XI_PORT c q =
  if decide (layer_result (call_init c) <> LAYER_STATE_OK) then (None, [ECall (call_init c)])
  else if decide (layer_result (call_connect XI_HOST XI_PORT c) <> LAYER_STATE_OK)
  then (None, [ECall (call_init c); ECall (call_connect XI_HOST XI_PORT c)])
  else (Some XI_RESPONSE_STATIC,
        [ECall (call_init c); ECall (call_connect XI_HOST XI_PORT c); EMemsetResponse;
         ECall (call_data_ready c q)] ++
        (if decide (layer_result (call_data_ready c q) = LAYER_STATE_OK)
         then [ECall (call_on_data_ready c)] else []) ++ [ECall (call_close c)]).
Proof.
  unfold legacy_request, CALL_ON_SELF, emit, call_init, call_connect, call_data_ready,
    call_on_data_ready, call_close.
  cbn. repeat case_decide; reflexivity.
Qed.

End BlockingFacts.

(** The layers' answers used by the examples: every call succeeds, or
    every call of one entry point fails. *)
Definition env_all_ok : LayerEnv legacy_data := fun _ => LAYER_STATE_OK.
Definition env_fail_at (op : layer_op) : LayerEnv legacy_data :=
  fun c => if decide (lc_op c = op) then LAYER_STATE_ERROR else LAYER_STATE_OK.

(** A context of the HTTP build, as [xi_create_context] makes it. *)
Definition ctx_http : xi_context_t :=
  mk_context XI_HTTP 42 None (create_and_connect_layers CONNECTION_SCHEME_1 (protocol_user_datas XI_HTTP)) None.

Definition request_fixture : http_layer_input :=
  mk_input HTTP_LAYER_INPUT_DATASTREAM_GET 7 (xi_get_datastream "temperature" 3).

Section BlockingClaims.
Context (XI_HOST : string) (XI_PORT : nat) `{LayerEnv legacy_data}.

(** When the io layer inits and connects and the top layer accepts
    the request, a blocking call runs the whole cycle of the layer
    contract, in order: init and connect on the io layer, clear the
    response, [data_ready] on the top layer, [on_data_ready] on the io
    layer, [close] on the top layer; and it returns the response. *)
Theorem legacy_request_full_cycle c q :
  layer_result (call_init c) = LAYER_STATE_OK ->
  layer_result (call_connect XI_HOST XI_PORT c) = LAYER_STATE_OK ->
  layer_result (call_data_ready c q) = LAYER_STATE_OK ->
  legacy_request XI_HOST XI_PORT c q =
    (Some XI_RESPONSE_STATIC,
     [ECall (call_init c); ECall (call_connect XI_HOST XI_PORT c); EMemsetResponse;
      ECall (call_data_ready c q); ECall (call_on_data_ready c); ECall (call_close c)]).
Proof.
  intros H1 H2 H3. rewrite legacy_request_unfold.
  rewrite !decide_False by auto. rewrite decide_True by done. reflexivity.
Qed.

(** C29. Chain failure propagation, for every answer of the layers: the
    io layer's [on_data_ready] runs only when the top layer's [data_ready]
    ran and succeeded; the top layer is closed exactly when the request was
    handed to it; and no call is made twice. *)
Theorem legacy_request_failure_propagation c q :
  let t := (legacy_request XI_HOST XI_PORT c q).2 in
  (ECall (call_on_data_ready c) ∈ t <->
     ECall (call_data_ready c q) ∈ t /\ layer_result (call_data_ready c q) = LAYER_STATE_OK) /\
  (ECall (call_close c) ∈ t <-> ECall (call_data_ready c q) ∈ t) /\
  NoDup t.
Proof.
  simpl. rewrite legacy_request_unfold.
  unfold call_init, call_connect, call_data_ready, call_on_data_ready, call_close.
  repeat case_decide; simpl; rewrite ?elem_of_cons, ?elem_of_app, ?elem_of_cons;
    (split_and!; [..|repeat constructor; set_solver]); set_solver.
Qed.

(** C30. When the io layer inits but fails to connect, the blocking call
    returns [0] at once: the trace is the init and the connect, and no
    layer is closed ([close] and [on_close] are never called), although
    the specification asks a transport failure to unwind every stage
    built by [close]/[on_close]. *)
Theorem legacy_request_connect_failure_no_close c q :
  layer_result (call_init c) = LAYER_STATE_OK ->
  layer_result (call_connect XI_HOST XI_PORT c) <> LAYER_STATE_OK ->
  legacy_request XI_HOST XI_PORT c q =
    (None, [ECall (call_init c); ECall (call_connect XI_HOST XI_PORT c)]) /\
  forall l, count_calls l OP_CLOSE (legacy_request XI_HOST XI_PORT c q).2 = 0 /\
            count_calls l OP_ON_CLOSE (legacy_request XI_HOST XI_PORT c q).2 = 0.
Proof.
  intros H1 H2. rewrite legacy_request_unfold, decide_False, decide_True by auto.
  split; [done|]. intros l. unfold count_calls, call_init, call_connect. simpl.
  split; repeat case_decide; naive_solver.
Qed.

(** C31. When the top layer rejects the request ([data_ready] does not
    return [LAYER_STATE_OK]), the blocking call does not pull an answer,
    closes the top layer and still returns the response object, which the
    call cleared: the caller cannot tell the failure from an empty
    answer. *)
Theorem legacy_request_error_returns_response c q :
  layer_result (call_init c) = LAYER_STATE_OK ->
  layer_result (call_connect XI_HOST XI_PORT c) = LAYER_STATE_OK ->
  layer_result (call_data_ready c q) <> LAYER_STATE_OK ->
  legacy_request XI_HOST XI_PORT c q =
    (Some XI_RESPONSE_STATIC,
     [ECall (call_init c); ECall (call_connect XI_HOST XI_PORT c); EMemsetResponse;
      ECall (call_data_ready c q); ECall (call_close c)]).
Proof.
  intros H1 H2 H3. rewrite legacy_request_unfold.
  rewrite !decide_False by auto. reflexivity.
Qed.

End BlockingClaims.

Lemma legacy_request_full_cycle_witness :
  legacy_request (H := env_all_ok) "api.example" 80 ctx_http request_fixture =
    (Some XI_RESPONSE_STATIC,
     [ECall (call_init ctx_http); ECall (call_connect "api.example" 80 ctx_http); EMemsetResponse;
      ECall (call_data_ready ctx_http request_fixture); ECall (call_on_data_ready ctx_http);
      ECall (call_close ctx_http)]).
Proof. apply (legacy_request_full_cycle _ _ (H := env_all_ok)); reflexivity. Defined.

Lemma legacy_request_connect_failure_no_close_witness :
  legacy_request (H := env_fail_at OP_CONNECT) "api.example" 80 ctx_http request_fixture =
    (None, [ECall (call_init ctx_http); ECall (call_connect "api.example" 80 ctx_http)]).
Proof.
  apply (legacy_request_connect_failure_no_close _ _ (H := env_fail_at OP_CONNECT));
    vm_compute; [reflexivity|discriminate].
Defined.

Lemma legacy_request_error_returns_response_witness :
  legacy_request (H := env_fail_at OP_DATA_READY) "api.example" 80 ctx_http request_fixture =
    (Some XI_RESPONSE_STATIC,
     [ECall (call_init ctx_http); ECall (call_connect "api.example" 80 ctx_http); EMemsetResponse;
      ECall (call_data_ready ctx_http request_fixture); ECall (call_close ctx_http)]).
Proof.
  apply (legacy_request_error_returns_response _ _ (H := env_fail_at OP_DATA_READY));
    vm_compute; [reflexivity|reflexivity|discriminate].
Defined.

(** ** Facts of the non-blocking calls *)

Definition call_init_hint (c : xi_context_t) : layer_call legacy_data :=
  mk_call (bottom (layer_chain c)) OP_INIT DNull LAYER_HINT_NONE.

(** [c] with [input] pointing to the static of [fn]. *)
Definition with_input (c : xi_context_t) (fn : string) : xi_context_t :=
  mk_context (protocol c) (feed_id c) (api_key c) (layer_chain c) (Some fn).

(** The world after a successful non-blocking call of [fn] on [xi]. *)
Definition nob_after (nw : nob_world) (fn : string) (i : http_layer_input) (xi : nat)
    (c : xi_context_t) : nob_world :=
  mk_nob (set_contexts (nw_world nw) (<[xi := with_input c fn]> (contexts (nw_world nw))))
    (<[fn := i]> (nw_statics nw)).

Section NobFacts.
Context `{LayerEnv legacy_data}.

Lemma nob_request_unfold fn q u xi nw c :
  contexts (nw_world nw) !! xi = Some c ->
  nob_request fn q u xi nw =
  XOk (if decide (layer_result (call_init_hint c) <> LAYER_STATE_OK)
       then ((None, nw), [ECall (call_init_hint c)])
       else ((Some xi, nob_after nw fn (mk_input q xi u) xi c),
             [ECall (call_init_hint c); EMemsetResponse])).
Proof.
  intros Hc. unfold nob_request. rewrite Hc.
  unfold CALL_ON_SELF, emit, call_init_hint, nob_after, with_input. cbn.
  case_decide; reflexivity.
Qed.

Lemma pending_nob_after nw fn i xi c xi' :
  pending_request (nob_after nw fn i xi c) xi' =
  if decide (xi' = xi) then Some i
  else c' ← contexts (nw_world nw) !! xi'; fn' ← input c'; <[fn := i]> (nw_statics nw) !! fn'.
Proof.
  unfold pending_request, nob_after. simpl. case_decide as E.
  - subst. rewrite lookup_insert_eq. simpl. by rewrite lookup_insert_eq.
  - by rewrite lookup_insert_ne by congruence.
Qed.

(** A non-blocking call whose io layer inits leaves the request for
    the runner: it calls only [init] on the io layer (with
    [LAYER_HINT_NONE]) and clears the response, returns the context, and
    the context's pending request is exactly the call's query, for this
    context. *)
Theorem nob_request_pending fn q u xi nw c :
  contexts (nw_world nw) !! xi = Some c ->
  layer_result (call_init_hint c) = LAYER_STATE_OK ->
  exists nw', nob_request fn q u xi nw =
                XOk ((Some xi, nw'), [ECall (call_init_hint c); EMemsetResponse]) /\
              pending_request nw' xi = Some (mk_input q xi u).
Proof.
  intros Hc Hok. rewrite (nob_request_unfold _ _ _ _ _ _ Hc), decide_False by auto.
  eexists. split; [reflexivity|]. rewrite pending_nob_after. by rewrite decide_True.
Qed.

(** C32. The static input is shared by every context: after
    [xi_nob_feed_get] on a context [a] and then on another context [b],
    the request pending for [a] is [b]'s request, naming context [b] and
    [b]'s feed.  The first request is lost. *)
Theorem xi_nob_feed_get_shared_static a b ca cb fa fb nw :
  a <> b ->
  contexts (nw_world nw) !! a = Some ca -> contexts (nw_world nw) !! b = Some cb ->
  layer_result (call_init_hint ca) = LAYER_STATE_OK ->
  layer_result (call_init_hint cb) = LAYER_STATE_OK ->
  exists nw1 nw2 t1 t2,
    xi_nob_feed_get a fa nw = XOk ((Some a, nw1), t1) /\
    xi_nob_feed_get b fb nw1 = XOk ((Some b, nw2), t2) /\
    pending_request nw2 a = Some (mk_input HTTP_LAYER_INPUT_FEED_GET b (xi_get_feed fb)).
Proof.
  intros Hab Ha Hb Hoka Hokb. unfold xi_nob_feed_get.
  set (nw1 := nob_after nw "xi_nob_feed_get" (mk_input HTTP_LAYER_INPUT_FEED_GET a (xi_get_feed fa)) a ca).
  assert (Hb1 : contexts (nw_world nw1) !! b = Some cb) by (simpl; by rewrite lookup_insert_ne).
  exists nw1, (nob_after nw1 "xi_nob_feed_get" (mk_input HTTP_LAYER_INPUT_FEED_GET b (xi_get_feed fb)) b cb).
  do 2 eexists.
  rewrite (nob_request_unfold _ _ _ _ _ _ Ha), decide_False by auto.
  rewrite (nob_request_unfold _ _ _ _ _ _ Hb1), decide_False by auto.
  split_and!; [reflexivity|reflexivity|].
  rewrite pending_nob_after, decide_False by done. simpl.
  rewrite lookup_insert_eq. simpl. by rewrite lookup_insert_eq.
Qed.

End NobFacts.

Definition nob_world_fixture : nob_world :=
  mk_nob (mk_world 2 [1; 0] [] (<[1 := ctx_http]> (<[0 := ctx_http]> ∅)) 0 None []) ∅.

Lemma nob_request_pending_witness :
  exists nw', nob_request (H := env_all_ok) "xi_nob_feed_get" HTTP_LAYER_INPUT_FEED_GET
                (xi_get_feed 5) 0 nob_world_fixture =
              XOk ((Some 0, nw'), [ECall (call_init_hint ctx_http); EMemsetResponse]) /\
              pending_request nw' 0 = Some (mk_input HTTP_LAYER_INPUT_FEED_GET 0 (xi_get_feed 5)).
Proof. apply (nob_request_pending (H := env_all_ok)); reflexivity. Defined.

Lemma xi_nob_feed_get_shared_static_witness :
  exists nw1 nw2 t1 t2,
    xi_nob_feed_get (H := env_all_ok) 0 5 nob_world_fixture = XOk ((Some 0, nw1), t1) /\
    xi_nob_feed_get (H := env_all_ok) 1 6 nw1 = XOk ((Some 1, nw2), t2) /\
    pending_request nw2 0 = Some (mk_input HTTP_LAYER_INPUT_FEED_GET 1 (xi_get_feed 6)).
Proof.
  apply (xi_nob_feed_get_shared_static (H := env_all_ok) 0 1 ctx_http ctx_http);
    try reflexivity; discriminate.
Defined.

End Legacy.
