(* ===== verification/Mqtt.v ===== *)
(** * The MQTT entry points of [xively.c]

    [xi_mqtt_publish] (MQTT blocking build) inits and connects the io layer,
    sends a CONNECT message and then a PUBLISH message built in the same
    [mqtt_message_t] to the top layer, closes it and returns [0].

    [xi_nob_mqtt_connect], [xi_nob_mqtt_publish] and [xi_nob_mqtt_subscribe]
    (MQTT non-blocking build) hand a connection record or a freshly
    allocated task to the logic layer on top of the chain.  The publish and
    subscribe functions allocate the task, its [data_u] union and string
    copies, and clean up on [err_handling]; the cleanup is modelled
    statement by statement: a pointer field holds [Indet] (the content of
    memory from [xi_alloc], which does not clear it), [Null] or an address,
    and [XI_SAFE_FREE] of a field frees it and sets it to [Null].  Reading
    a field through a null pointer, or freeing an indeterminate pointer, is
    [XFault].

    The message and task layouts ([message.h], [xi_mqtt_logic_layer_data.h])
    are not in the repository: their fields are those this file writes.
    [xi_nob_mqtt_subscribe] pushes the new [data_u] on the
    [handlers_for_topics] vector of the logic layer's data, read from
    [input_layer->user_data], which may be null. *)

From S2P Require Import Prelude Layer Context.
From stdpp Require Import gmap strings.

Module Mqtt.
Import Layer Context.

(** ** Messages *)

Inductive mqtt_type : Type := MQTT_TYPE_CONNECT | MQTT_TYPE_PUBLISH.

(** The fields of [mqtt_message_t] that [xi_mqtt_publish] writes. *)
Record mqtt_message : Type := mk_message {
  msg_retain : nat; msg_qos : nat; msg_dup : nat; msg_type : mqtt_type;
  remaining_length : nat;
  protocol_name : string; protocol_version : nat;
  username_follows : nat; password_follows : nat; will_retain : nat; will_qos : nat;
  will : nat; clean_session : nat; keep_alive : nat;
  client_id : string;
  topic_name : string; content : string
}.



(** ** Tasks of the logic layer *)

Inductive xi_mqtt_scenario : Type := XI_MQTT_PUBLISH | XI_MQTT_SUBSCRIBE.
Inductive xi_mqtt_qos : Type := XI_MQTT_QOS_ZERO | XI_MQTT_QOS_ONE.

(** A task handed to the logic layer: the task block, its scenario and QoS,
    the [data_u] block and the string copies it points to, and the handler
    of a subscription. *)
Record mqtt_task : Type := mk_task {
  task_ptr : nat;
  scenario_t : xi_mqtt_scenario;
  qos_t : xi_mqtt_qos;
  data_u : nat;
  task_topic : nat;
  task_msg : option nat;
  task_handler : option nat
}.

(** The data pointers passed to the layers. *)
Inductive mqtt_data : Type :=
  | MNull
  | MConnection (host : string) (port : nat)
  | MMessage (m : mqtt_message)
  | MConnectionData (on_connected : nat)
  | MTask (t : mqtt_task).

(** ** [xi_mqtt_publish] *)

Section Blocking.
Context (XI_HOST : string) (XI_PORT : nat) `{LayerEnv mqtt_data}.


End Blocking.

(** ** Pointer fields and [XI_SAFE_FREE] *)

(** The value of a pointer field: indeterminate, null, or an address. *)
Inductive cell : Type := Indet | Null | Ptr (p : nat).

(** [XI_SAFE_FREE( field )]: frees a non-null field and nulls it; freeing an
    indeterminate pointer is undefined. *)
Definition xi_safe_free (w : xi_world) (c : cell) : xres xi_world :=
  match c with
  | Indet => XFault
  | Null => XOk w
  | Ptr p => XOk (xi_free w p)
  end.

Local Open Scope xively_scope.

(** ** [xi_nob_mqtt_connect], [xi_nob_mqtt_publish], [xi_nob_mqtt_subscribe] *)

Definition call_task (c : xi_context_t) (t : mqtt_task) : layer_call mqtt_data :=
  mk_call (top (layer_chain c)) OP_DATA_READY (MTask t) (ARG_STATE LAYER_STATE_OK).

(** The result of the non-blocking calls: the state returned, the world,
    and the calls made. *)
Definition nob_result (A : Type) : Type := xres (layer_state * A * list (event mqtt_data)).

(** [err_handling] of [xi_nob_mqtt_publish] with a non-null [task]: [du] is
    [task->data.data_u], [topic] and [msg] the fields of [*data_u].  With
    [data_u] non-null the code frees the strings and the task, and then
    reads [task->data.data_u] through the freed (nulled) [task]. *)
Definition publish_err (w : xi_world) (task : nat) (du topic msg : cell) : nob_result xi_world :=
  match du with
  | Ptr _ =>
      let! w1 := xi_safe_free w msg in
      let! w2 := xi_safe_free w1 topic in
      let! _ := xi_safe_free w2 (Ptr task) in
      XFault
  | Null => XOk (LAYER_STATE_ERROR, w, [])
  | Indet => XFault
  end.

(** [err_handling] of [xi_nob_mqtt_subscribe] with a non-null [task]. *)
Definition subscribe_err (w : xi_world) (handlers : option (list nat)) (task : nat) (du topic : cell)
    : nob_result (xi_world * option (list nat)) :=
  match du with
  | Ptr d =>
      let! w1 := xi_safe_free w topic in
      let! w2 := xi_safe_free w1 (Ptr d) in
      let! w3 := xi_safe_free w2 (Ptr task) in
      XOk (LAYER_STATE_ERROR, (w3, handlers), [])
  | Null =>
      let! w1 := xi_safe_free w (Ptr task) in XOk (LAYER_STATE_ERROR, (w1, handlers), [])
  | Indet => XFault
  end.

Section NonBlocking.
Context `{LayerEnv mqtt_data}.

(** [connection_data->on_connected = on_connected], then [init] on the top
    layer with the connection data. *)
Definition xi_nob_mqtt_connect (c : xi_context_t) (on_connected : nat) : drv mqtt_data layer_state :=
  CALL_ON_SELF (top (layer_chain c)) OP_INIT (MConnectionData on_connected)
    (ARG_STATE LAYER_STATE_OK).

Definition xi_nob_mqtt_publish (c : xi_context_t) (w : xi_world) : nob_result xi_world :=
  match xi_alloc w with
  | (None, w1) => XOk (LAYER_STATE_ERROR, w1, [])
  | (Some task, w1) =>
      match xi_alloc w1 with
      | (None, w2) => publish_err w2 task Null Indet Indet
      | (Some du, w2) =>
          match xi_str_dup w2 with
          | (None, w3) => publish_err w3 task (Ptr du) Null Indet
          | (Some tp, w3) =>
              match xi_str_dup w3 with
              | (None, w4) => publish_err w4 task (Ptr du) (Ptr tp) Null
              | (Some mp, w4) =>
                  let t := mk_task task XI_MQTT_PUBLISH XI_MQTT_QOS_ZERO du tp (Some mp) None in
                  let '(s, tr) := CALL_ON_SELF (top (layer_chain c)) OP_DATA_READY (MTask t)
                                    (ARG_STATE LAYER_STATE_OK) in
                  XOk (s, w4, tr)
              end
          end
      end
  end.

(** [layer_data] is [input_layer->user_data], the logic layer's data:
    [None] for the null pointer, otherwise its [handlers_for_topics]
    vector, to which [xi_static_vector_push] appends; pushing through a
    null [layer_data] is undefined. *)
Definition xi_nob_mqtt_subscribe (c : xi_context_t) (handler : nat) (layer_data : option (list nat))
    (w : xi_world) : nob_result (xi_world * option (list nat)) :=
  match xi_alloc w with
  | (None, w1) => XOk (LAYER_STATE_ERROR, (w1, layer_data), [])
  | (Some task, w1) =>
      match xi_alloc w1 with
      | (None, w2) => subscribe_err w2 layer_data task Null Indet
      | (Some du, w2) =>
          match xi_str_dup w2 with
          | (None, w3) => subscribe_err w3 layer_data task (Ptr du) Null
          | (Some tp, w3) =>
              match layer_data with
              | None => XFault
              | Some handlers =>
                  let t := mk_task task XI_MQTT_SUBSCRIBE XI_MQTT_QOS_ONE du tp None (Some handler) in
                  let '(s, tr) := CALL_ON_SELF (top (layer_chain c)) OP_DATA_READY (MTask t)
                                    (ARG_STATE LAYER_STATE_OK) in
                  XOk (s, (w3, Some (handlers ++ [du])), tr)
              end
          end
      end
  end.

End NonBlocking.

(** ** Facts *)

(** [n] coming allocations succeed. *)
Definition allocs_succeed (n : nat) (w : xi_world) : Prop :=
  Forall (fun b => b = false) (take n (alloc_script w)).

Lemma allocs_succeed_S n w :
  allocs_succeed (S n) w -> xi_alloc w = (Some (next_block w), fresh_block w) /\
                            allocs_succeed n (fresh_block w).
Proof.
  unfold allocs_succeed, xi_alloc, fresh_block. simpl.
  destruct (alloc_script w) as [|b rest]; simpl.
  - intros _. split; [done|]. by rewrite take_nil.
  - intros Hf. inversion Hf; subst. done.
Qed.

Lemma xi_alloc_fails w rest :
  alloc_script w = true :: rest -> xi_alloc w = (None, drop_script w).
Proof. unfold xi_alloc, drop_script. by intros ->. Qed.

Lemma xi_alloc_succeeds w rest :
  alloc_script w = false :: rest -> xi_alloc w = (Some (next_block w), fresh_block w).
Proof. unfold xi_alloc, fresh_block. by intros ->. Qed.

Section NonBlockingFacts.
Context `{LayerEnv mqtt_data}.

(** C34. [xi_nob_mqtt_publish] leaks the task when the allocation of
    [data_u] fails: [err_handling] sees [data_u] null, skips the inner
    block that frees the task, and returns [LAYER_STATE_ERROR] with the
    task block still allocated and referenced by nothing. *)
Theorem xi_nob_mqtt_publish_leaks_task c w rest :
  alloc_script w = false :: true :: rest ->
  exists w', xi_nob_mqtt_publish c w = XOk (LAYER_STATE_ERROR, w', []) /\
    next_block w ∈ live_blocks w' /\ alloc_script w' = rest.
Proof.
  intros Hs. unfold xi_nob_mqtt_publish. rewrite (xi_alloc_succeeds _ _ Hs).
  rewrite (xi_alloc_fails (fresh_block w) rest) by (unfold fresh_block; simpl; by rewrite Hs).
  eexists. split; [reflexivity|]. simpl. rewrite Hs. split; [left|done].
Qed.

(** C35. When one of the string copies fails after [data_u] was allocated,
    [err_handling] of [xi_nob_mqtt_publish] has undefined behaviour: it
    frees the message copy ([data_u] is not cleared, so a failed topic copy
    leaves it indeterminate), the topic and the task, and then reads
    [task->data.data_u] through the task pointer it has just freed. *)
Theorem xi_nob_mqtt_publish_cleanup_faults c w rest :
  alloc_script w = false :: false :: true :: rest \/
  alloc_script w = false :: false :: false :: true :: rest ->
  xi_nob_mqtt_publish c w = XFault.
Proof.
  unfold xi_nob_mqtt_publish, xi_str_dup, xi_alloc. intros [Hs|Hs]; rewrite Hs; reflexivity.
Qed.

(** With the logic layer's data present, [xi_nob_mqtt_subscribe] cleans
    up correctly: it has no undefined behaviour, and when an allocation
    fails (no task reaches the logic layer) it returns
    [LAYER_STATE_ERROR], every block it allocated is freed again and no
    handler is registered. *)
Theorem xi_nob_mqtt_subscribe_no_leak c h hs w :
  alloc_wf w ->
  exists s w' hs' tr, xi_nob_mqtt_subscribe c h (Some hs) w = XOk (s, (w', hs'), tr) /\
    (tr = [] -> s = LAYER_STATE_ERROR /\ live_blocks w' = live_blocks w /\ hs' = Some hs).
Proof.
  intros Hw. pose proof (aw_bound _ Hw) as Hb. unfold xi_nob_mqtt_subscribe, xi_str_dup.
  alloc_case w; [by do 4 eexists|].
  pose proof (wf_bound_S _ Hw) as Hb1.
  pose proof (wf_bound_S _ (alloc_wf_fresh _ Hw)) as Hb2. simpl in Hb2.
  alloc_case (fresh_block w); [|alloc_case (fresh_block (fresh_block w))];
    (do 4 eexists; split; [reflexivity|]); simpl; try done;
    intros _; split_and!; try done.
  - by apply filter_fresh_cons.
  - rewrite filter_fresh_cons by done. by apply filter_fresh_cons.
Qed.

(** When its four allocations succeed, [xi_nob_mqtt_publish] hands the
    logic layer one task: a PUBLISH of QoS 0 whose [data_u] holds the
    copies of the topic and the message, all four blocks freshly allocated
    and live, and it returns what the logic layer's [data_ready] returns. *)
Theorem xi_nob_mqtt_publish_task c w :
  allocs_succeed 4 w ->
  let n := next_block w in
  let t := mk_task n XI_MQTT_PUBLISH XI_MQTT_QOS_ZERO (S n) (S (S n)) (Some (S (S (S n)))) None in
  exists w', xi_nob_mqtt_publish c w = XOk (layer_result (call_task c t), w', [ECall (call_task c t)]) /\
    live_blocks w' = [S (S (S n)); S (S n); S n; n] ++ live_blocks w.
Proof.
  intros H4. unfold xi_nob_mqtt_publish, xi_str_dup.
  apply allocs_succeed_S in H4 as [-> H3]. apply allocs_succeed_S in H3 as [-> H2].
  apply allocs_succeed_S in H2 as [-> H1]. apply allocs_succeed_S in H1 as [-> _].
  eexists. split; reflexivity.
Qed.

(** When its three allocations succeed and the logic layer's data is
    present, [xi_nob_mqtt_subscribe] registers the [data_u] block in
    [handlers_for_topics] and hands the logic layer a SUBSCRIBE task of
    QoS 1 carrying the topic copy and the handler. *)
Theorem xi_nob_mqtt_subscribe_task c h hs w :
  allocs_succeed 3 w ->
  let n := next_block w in
  let t := mk_task n XI_MQTT_SUBSCRIBE XI_MQTT_QOS_ONE (S n) (S (S n)) None (Some h) in
  exists w', xi_nob_mqtt_subscribe c h (Some hs) w =
               XOk (layer_result (call_task c t), (w', Some (hs ++ [S n])), [ECall (call_task c t)]) /\
    live_blocks w' = [S (S n); S n; n] ++ live_blocks w.
Proof.
  intros H3. unfold xi_nob_mqtt_subscribe, xi_str_dup.
  apply allocs_succeed_S in H3 as [-> H2]. apply allocs_succeed_S in H2 as [-> H1].
  apply allocs_succeed_S in H1 as [-> _].
  eexists. split; reflexivity.
Qed.

End NonBlockingFacts.

Section BlockingFacts.
Context (XI_HOST : string) (XI_PORT : nat) `{LayerEnv mqtt_data}.



End BlockingFacts.

(** ** Examples *)

Definition mqtt_env_ok : LayerEnv mqtt_data := fun _ => LAYER_STATE_OK.

Definition ctx_mqtt : xi_context_t :=
  mk_context XI_MQTT 0 None (create_and_connect_layers CONNECTION_SCHEME_2 (protocol_user_datas XI_MQTT)) None.

Lemma xi_nob_mqtt_publish_leaks_task_witness :
  exists w', xi_nob_mqtt_publish (H := mqtt_env_ok) ctx_mqtt (initial_world [false; true]) =
               XOk (LAYER_STATE_ERROR, w', []) /\ 0 ∈ live_blocks w' /\ alloc_script w' = [].
Proof. apply (xi_nob_mqtt_publish_leaks_task (H := mqtt_env_ok)). reflexivity. Defined.

Lemma xi_nob_mqtt_publish_cleanup_faults_witness :
  xi_nob_mqtt_publish (H := mqtt_env_ok) ctx_mqtt (initial_world [false; false; true]) = XFault.
Proof. apply (xi_nob_mqtt_publish_cleanup_faults (H := mqtt_env_ok) _ _ []). left. reflexivity. Defined.

Lemma xi_nob_mqtt_subscribe_no_leak_witness :
  exists s w' hs' tr, xi_nob_mqtt_subscribe (H := mqtt_env_ok) ctx_mqtt 9 (Some []) (initial_world [false; false; true])
                      = XOk (s, (w', hs'), tr) /\
    (tr = [] -> s = LAYER_STATE_ERROR /\ live_blocks w' = [] /\ hs' = Some []).
Proof. apply (xi_nob_mqtt_subscribe_no_leak (H := mqtt_env_ok)), alloc_wf_initial. Defined.

Lemma xi_nob_mqtt_publish_task_witness :
  exists w', xi_nob_mqtt_publish (H := mqtt_env_ok) ctx_mqtt (initial_world []) =
    XOk (LAYER_STATE_OK, w',
         [ECall (call_task ctx_mqtt (mk_task 0 XI_MQTT_PUBLISH XI_MQTT_QOS_ZERO 1 2 (Some 3) None))]) /\
    live_blocks w' = [3; 2; 1; 0].
Proof. apply (xi_nob_mqtt_publish_task (H := mqtt_env_ok)). unfold allocs_succeed. simpl. constructor. Defined.

Lemma xi_nob_mqtt_subscribe_task_witness :
  exists w', xi_nob_mqtt_subscribe (H := mqtt_env_ok) ctx_mqtt 9 (Some []) (initial_world []) =
    XOk (LAYER_STATE_OK, (w', Some [1]),
         [ECall (call_task ctx_mqtt (mk_task 0 XI_MQTT_SUBSCRIBE XI_MQTT_QOS_ONE 1 2 None (Some 9)))]) /\
    live_blocks w' = [2; 1; 0].
Proof. apply (xi_nob_mqtt_subscribe_task (H := mqtt_env_ok)). unfold allocs_succeed. simpl. constructor. Defined.


End Mqtt.
