(* ===== verification/LogicLayer.v ===== *)
(** * The MQTT logic layer, [mqtt/logic_layer/xi_mqtt_logic_layer.c]

    The logic layer is the top of the MQTT chain ([CONNECTION_SCHEME_2]).
    Its six entry points take [( void* context, void* data, layer_state_t
    state )] and return [void]:
    - [data_ready], [on_data_ready], [close] and [on_close] have empty
      bodies;
    - [init] forwards its data to the [init] of the layer below it,
      [MQTT_LAYER] ([CALL_ON_PREV_INIT( context, data, 0 )], the [0] being
      [LAYER_STATE_OK]), and drops the result;
    - [connect] reads [CON_SELF( context )->user_data], the layer's data, and
      schedules its [on_connected] continuation on the global dispatcher
      [xi_evtd_instance] with [time_diff] [0], ignoring the outcome.

    The state of the layer is the global dispatcher (a [Dispatcher]
    instance) and the pointer to its data record, [None] when it is null.
    The record's header ([xi_mqtt_logic_layer_data.h]) is not in the
    repository: its field [on_connected] is the one [connect] reads, a
    handle stored in the heap as its [void*] payload.  Each entry point
    runs in the driver monad of [Layer], recording the calls it makes on
    other layers, and returns the new state, or [XFault] when it reads
    through a null pointer or the dispatcher faults.

    [xi_create_context] builds the MQTT chain with the user data
    [{ 0, 0, 0 }] ([xively.c]), so in the repository's configuration the
    logic layer's data pointer is null: [connect], and
    [xi_nob_mqtt_subscribe], which pushes on the layer data's handler
    vector, both dereference it. *)

From S2P Require Import Prelude Heap HeapFacts HeapOrder Dispatcher Layer Context Mqtt.
From stdpp Require Import strings.

Module LogicLayer.
Import Heap Dispatcher Layer Mqtt.

(** ** State *)

Record xi_mqtt_logic_layer_data_t : Type := mk_logic_data {
  on_connected : nat
}.

(** The global dispatcher and [CON_SELF( context )->user_data]. *)
Record logic_layer_state : Type := mk_logic {
  evtd : xi_evtd_instance;
  layer_data : option xi_mqtt_logic_layer_data_t
}.

(** The logic layer of a context: its data pointer is the user data the
    chain gave [MQTT_LOGIC_LAYER]; a non-null one is taken to point to
    [ld]. *)
Definition logic_layer_of (d : xi_evtd_instance) (c : Context.xi_context_t)
    (ld : xi_mqtt_logic_layer_data_t) : logic_layer_state :=
  mk_logic d (user_data_deref (Context.layer_chain c) MQTT_LOGIC_LAYER ld).

Definition logic_result : Type := drv mqtt_data (xres logic_layer_state).

(** ** Entry points *)

Section EntryPoints.
Context `{LayerEnv mqtt_data}.

Definition xi_mqtt_logic_layer_data_ready (s : logic_layer_state) (data : mqtt_data)
    (state : layer_arg) : logic_result := mret (XOk s).

Definition xi_mqtt_logic_layer_on_data_ready (s : logic_layer_state) (data : mqtt_data)
    (state : layer_arg) : logic_result := mret (XOk s).

Definition xi_mqtt_logic_layer_init (s : logic_layer_state) (data : mqtt_data)
    (state : layer_arg) : logic_result :=
  CALL_ON_SELF MQTT_LAYER OP_INIT data (ARG_STATE LAYER_STATE_OK);; mret (XOk s).

Definition xi_mqtt_logic_layer_connect (s : logic_layer_state) (data : mqtt_data)
    (state : layer_arg) : logic_result :=
  match layer_data s with
  | None => mret XFault
  | Some ld =>
      mret (match xi_evtd_continue (evtd s) 0 (on_connected ld) with
            | XOk (Some (d', _)) => XOk (mk_logic d' (Some ld))
            | XOk None => XOk s
            | XFault => XFault
            end)
  end.

Definition xi_mqtt_logic_layer_close (s : logic_layer_state) (data : mqtt_data)
    (state : layer_arg) : logic_result := mret (XOk s).

Definition xi_mqtt_logic_layer_on_close (s : logic_layer_state) (data : mqtt_data)
    (state : layer_arg) : logic_result := mret (XOk s).

(** The entry point of an operation. *)
Definition xi_mqtt_logic_layer (op : layer_op)
    : logic_layer_state -> mqtt_data -> layer_arg -> logic_result :=
  match op with
  | OP_INIT => xi_mqtt_logic_layer_init
  | OP_CONNECT => xi_mqtt_logic_layer_connect
  | OP_DATA_READY => xi_mqtt_logic_layer_data_ready
  | OP_ON_DATA_READY => xi_mqtt_logic_layer_on_data_ready
  | OP_CLOSE => xi_mqtt_logic_layer_close
  | OP_ON_CLOSE => xi_mqtt_logic_layer_on_close
  end.

(** The logic layer receiving the calls of a driver: each call on
    [MQTT_LOGIC_LAYER] runs its entry point, in order. *)
Fixpoint logic_layer_handle (s : logic_layer_state) (cs : list (layer_call mqtt_data))
    : logic_result :=
  match cs with
  | [] => mret (XOk s)
  | c :: cs' =>
      if decide (lc_layer c = MQTT_LOGIC_LAYER) then
        r ← xi_mqtt_logic_layer (lc_op c) s (lc_data c) (lc_arg c);
        match r with
        | XOk s' => logic_layer_handle s' cs'
        | XFault => mret XFault
        end
      else logic_layer_handle s cs'
  end.

End EntryPoints.

(** ** Properties *)

Section Composition.
Context `{LayerEnv mqtt_data}.

(** C13. [xi_nob_mqtt_connect] through the logic layer: the [init] call it
    makes on the top of the chain reaches the logic layer, which forwards
    the connection data, with the handle [on_connected] in it, to the
    [init] of [MQTT_LAYER] and changes nothing of its own state: the
    handle is not stored where the logic layer's [connect] reads the
    continuation it schedules. *)
Theorem xi_nob_mqtt_connect_through_logic_layer c h s :
  top (Context.layer_chain c) = MQTT_LOGIC_LAYER ->
  logic_layer_handle s (calls (xi_nob_mqtt_connect c h).2) =
    (XOk s, [ECall (mk_call MQTT_LAYER OP_INIT (MConnectionData h) (ARG_STATE LAYER_STATE_OK))]).
Proof.
  intros Htop. unfold xi_nob_mqtt_connect, CALL_ON_SELF. rewrite Htop. simpl.
  reflexivity.
Qed.

(** C12. In the MQTT builds the logic layer's data pointer is null: every
    context [xi_create_context] returns has a chain whose
    [MQTT_LOGIC_LAYER] was created with the user data [0] of
    [user_datas[] = { 0, 0, 0 }].  So [xi_mqtt_logic_layer_connect] on it
    faults on its first line ([layer_data->on_connected] through NULL),
    whatever the dispatcher, and [xi_nob_mqtt_subscribe] on it, once its
    three allocations succeed, faults at the push on
    [layer_data->handlers_for_topics]. *)
Theorem xi_mqtt_logic_layer_data_null b p key feed w ret w' c d ld data a h hs w0 :
  xi_mqtt_enabled b = true ->
  Context.xi_create_context b p key feed w = (Some ret, w') ->
  Context.contexts w' !! ret = Some c ->
  layer_user_data (Context.layer_chain c) MQTT_LOGIC_LAYER = Some UD_NULL /\
  xi_mqtt_logic_layer_connect (logic_layer_of d c ld) data a = (XFault, []) /\
  (allocs_succeed 3 w0 ->
   xi_nob_mqtt_subscribe c h
     (user_data_deref (Context.layer_chain c) (top (Context.layer_chain c)) hs) w0 = XFault).
Proof.
  intros Hm Hc Hl.
  destruct (Context.xi_create_context_chain b p key feed w ret w' Hc) as (sch & c' & Hs & Hl' & _ & Hch).
  rewrite Hl in Hl'. injection Hl' as <-.
  assert (p = Context.XI_MQTT /\ sch = CONNECTION_SCHEME_2) as [-> ->]
    by (unfold Context.protocol_scheme in Hs; rewrite Hm in Hs; destruct p; by simplify_eq).
  unfold logic_layer_of, xi_mqtt_logic_layer_connect. rewrite Hch.
  split_and!; [reflexivity|reflexivity|].
  intros H3. unfold xi_nob_mqtt_subscribe, Context.xi_str_dup.
  apply allocs_succeed_S in H3 as [-> H2]. apply allocs_succeed_S in H2 as [-> H1].
  apply allocs_succeed_S in H1 as [-> _]. reflexivity.
Qed.

End Composition.

(** ** Witnesses *)

Definition logic_fixture : logic_layer_state :=
  mk_logic (default (mk_evtd (heap_after 1 []) 0)
              (run_final (evtd_run 8 [SContinue 5 7]%Z)))
           (Some (mk_logic_data 3)).

Lemma xi_nob_mqtt_connect_through_logic_layer_witness :
  logic_layer_handle (H := mqtt_env_ok) logic_fixture (calls (xi_nob_mqtt_connect (H := mqtt_env_ok) ctx_mqtt 9).2) =
    (XOk logic_fixture,
     [ECall (mk_call MQTT_LAYER OP_INIT (MConnectionData 9) (ARG_STATE LAYER_STATE_OK))]).
Proof. apply (xi_nob_mqtt_connect_through_logic_layer (H := mqtt_env_ok)). reflexivity. Defined.

Definition mqtt_created : option nat * Context.xi_world :=
  Context.xi_create_context Context.build_mqtt_nob Context.XI_MQTT None 0 (Context.initial_world []).

Lemma xi_mqtt_logic_layer_data_null_witness :
  layer_user_data (Context.layer_chain ctx_mqtt) MQTT_LOGIC_LAYER = Some UD_NULL /\
  xi_mqtt_logic_layer_connect (logic_layer_of (evtd logic_fixture) ctx_mqtt (mk_logic_data 3))
    MNull (ARG_STATE LAYER_STATE_OK) = (XFault, []) /\
  (allocs_succeed 3 (Context.initial_world []) ->
   xi_nob_mqtt_subscribe (H := mqtt_env_ok) ctx_mqtt 9
     (user_data_deref (Context.layer_chain ctx_mqtt) (top (Context.layer_chain ctx_mqtt)) [])
     (Context.initial_world []) = XFault).
Proof.
  apply (xi_mqtt_logic_layer_data_null (H := mqtt_env_ok) Context.build_mqtt_nob Context.XI_MQTT None 0
           (Context.initial_world []) (default 0 mqtt_created.1) mqtt_created.2); vm_compute; reflexivity.
Defined.

End LogicLayer.
