(* ===== verification/Datapoint.v ===== *)
(** * Datapoint values and the network timeout of [xively.c]

    [xi_datapoint_t] carries a tag [value_type] and a union [value] of an
    [int32_t], a [float] and a character buffer of
    [XI_VALUE_STRING_MAX_SIZE] bytes.  The model keeps the union as its
    bytes, so that the members overlay each other as in C: an [int32_t] is
    its four bytes in little-endian order (the byte order of the targets
    the library is built for), a [float] its four bytes of IEEE single
    format (the model keeps the bit pattern, no float arithmetic is done
    here).  The [assert]s of the accessors are [XFault].

    [xi_str_copy_untiln] is not in the repository: [xi_set_value_str] takes
    it as an argument, a function returning the buffer after the copy and
    the count it returns. *)

From S2P Require Import Prelude.

Module Datapoint.

(** ** Data *)

Inductive xi_value_type : Type :=
  | XI_VALUE_TYPE_I32 | XI_VALUE_TYPE_F32 | XI_VALUE_TYPE_STR.

#[export] Instance xi_value_type_eq_dec : EqDecision xi_value_type.
Proof. solve_decision. Defined.

(** The union [value] as its bytes (each in [0, 256)), and the tag. *)
Record xi_datapoint_t : Type := mk_datapoint {
  value_bytes : list Z;
  value_type : xi_value_type
}.

(** ** Machine integers as bytes *)

(** Byte [k] (from the least significant) of the two's complement of [v]. *)
Definition byte_at (v : Z) (k : nat) : Z := Z.land (Z.shiftr v (8 * Z.of_nat k)) 255.

Definition bytes_of_32 (v : Z) : list Z := map (byte_at v) [0; 1; 2; 3].

Definition u32_of_bytes (bs : list Z) : Z :=
  foldr (fun b acc => b + 256 * acc)%Z 0%Z (take 4 bs).

(** The [int32_t] whose little-endian bytes start [bs]. *)
Definition i32_of_bytes (bs : list Z) : Z :=
  let u := u32_of_bytes bs in if (2 ^ 31 <=? u)%Z then (u - 2 ^ 32)%Z else u.

(** Writing bytes at the start of the union. *)
Definition write_bytes (buf bs : list Z) : list Z := bs ++ drop (length bs) buf.

(** ** Accessors *)

Definition xi_get_value_type (p : xi_datapoint_t) : xi_value_type := value_type p.

Definition xi_set_value_i32 (p : xi_datapoint_t) (value : Z) : xi_datapoint_t :=
  mk_datapoint (write_bytes (value_bytes p) (bytes_of_32 value)) XI_VALUE_TYPE_I32.

Definition xi_get_value_i32 (p : xi_datapoint_t) : xres Z :=
  if decide (value_type p = XI_VALUE_TYPE_I32) then XOk (i32_of_bytes (value_bytes p))
  else XFault.

(** [&p->value.i32_value] or [NULL]: [true] for the member's address. *)
Definition xi_value_pointer_i32 (p : xi_datapoint_t) : bool :=
  bool_decide (value_type p = XI_VALUE_TYPE_I32).

(** A [float] is given by its bit pattern, an unsigned 32-bit integer. *)
Definition xi_set_value_f32 (p : xi_datapoint_t) (bits : Z) : xi_datapoint_t :=
  mk_datapoint (write_bytes (value_bytes p) (bytes_of_32 bits)) XI_VALUE_TYPE_F32.

Definition xi_get_value_f32 (p : xi_datapoint_t) : xres Z :=
  if decide (value_type p = XI_VALUE_TYPE_F32) then XOk (u32_of_bytes (value_bytes p))
  else XFault.

Definition xi_value_pointer_f32 (p : xi_datapoint_t) : bool :=
  bool_decide (value_type p = XI_VALUE_TYPE_F32).

(** [xi_set_value_str]: the copy into the union comes first, the size check
    [XI_CHECK_SIZE( s, XI_VALUE_STRING_MAX_SIZE, ... )] second; on failure
    the C function returns [0] with [p] already written.  The result is the
    returned pointer ([None] for [0]) and the datapoint after the call. *)
Definition xi_set_value_str (XI_VALUE_STRING_MAX_SIZE : nat)
    (xi_str_copy_untiln : list Z -> nat -> list Z -> list Z * Z)
    (p : xi_datapoint_t) (value : list Z) : option unit * xi_datapoint_t :=
  let '(buf, s) := xi_str_copy_untiln (value_bytes p) XI_VALUE_STRING_MAX_SIZE value in
  let p1 := mk_datapoint buf (value_type p) in
  if (Z.of_nat XI_VALUE_STRING_MAX_SIZE <=? s)%Z then (None, p1)
  else (Some tt, mk_datapoint buf XI_VALUE_TYPE_STR).

Definition xi_value_pointer_str (p : xi_datapoint_t) : bool :=
  bool_decide (value_type p = XI_VALUE_TYPE_STR).

(** ** [xi_globals.network_timeout] *)

(** The new value of the global: the [uint32_t] argument. *)
Definition xi_set_network_timeout (timeout : Z) : Z := Z.land timeout (Z.ones 32).

Definition xi_get_network_timeout (network_timeout : Z) : Z := network_timeout.

(** ** Facts *)

Lemma byte_at_spec v k : byte_at v k = ((v / 2 ^ (8 * Z.of_nat k)) mod 256)%Z.
Proof.
  unfold byte_at. rewrite Z.shiftr_div_pow2 by lia.
  change 255%Z with (Z.ones 8). by rewrite Z.land_ones by lia.
Qed.

(** The four bytes of [v] read back as an unsigned number: [v] modulo
    [2^32]. *)
Lemma u32_of_bytes_32 v rest : u32_of_bytes (bytes_of_32 v ++ rest) = (v mod 2 ^ 32)%Z.
Proof.
  unfold u32_of_bytes, bytes_of_32. simpl. rewrite !byte_at_spec.
  change (2 ^ (8 * Z.of_nat 0))%Z with 1%Z. change (2 ^ (8 * Z.of_nat 1))%Z with 256%Z.
  change (2 ^ (8 * Z.of_nat 2))%Z with (256 * 256)%Z.
  change (2 ^ (8 * Z.of_nat 3))%Z with (256 * 256 * 256)%Z.
  rewrite Z.div_1_r, <- !Z.div_div by lia.
  change (2 ^ 32)%Z with (256 * (256 * (256 * 256)))%Z.
  rewrite !Z.rem_mul_r by lia. lia.
Qed.

(** Storing an [int32_t] in a datapoint and reading it back gives the
    value reduced to the 32-bit two's complement range: the value itself
    for every [int32_t], and the wrapped value for any wider integer. *)
Theorem xi_get_value_i32_roundtrip p v :
  xi_get_value_i32 (xi_set_value_i32 p v) = XOk (((v + 2 ^ 31) mod 2 ^ 32) - 2 ^ 31)%Z.
Proof.
  unfold xi_get_value_i32, xi_set_value_i32. simpl.
  unfold i32_of_bytes, write_bytes. rewrite u32_of_bytes_32. f_equal.
  pose proof (Z.mod_pos_bound v (2 ^ 32) ltac:(lia)).
  rewrite (Z.add_mod v) by lia. change ((2 ^ 31) mod 2 ^ 32)%Z with (2 ^ 31)%Z.
  destruct (Z.leb_spec (2 ^ 31) (v mod 2 ^ 32)).
  - rewrite (Zmod_eq_full (v mod 2 ^ 32 + 2 ^ 31)) by lia.
    replace ((v mod 2 ^ 32 + 2 ^ 31) / 2 ^ 32)%Z with 1%Z; [lia|].
    apply Z.div_unique with (v mod 2 ^ 32 + 2 ^ 31 - 2 ^ 32)%Z; lia.
  - rewrite (Z.mod_small (v mod 2 ^ 32 + 2 ^ 31)) by lia. lia.
Qed.

Lemma u32_of_bytes_take bs : u32_of_bytes bs = u32_of_bytes (take 4 bs).
Proof. unfold u32_of_bytes. by rewrite take_take. Qed.

(** C37. [xi_set_value_str] copies into the union before it checks the
    size: when the copy reports an overflow, the call returns [0] but the
    datapoint keeps its [XI_VALUE_TYPE_I32] tag over bytes the copy
    overwrote, so [xi_get_value_i32] now reads the first four characters of
    the rejected string instead of the stored integer. *)
Theorem xi_set_value_str_failure_overwrites max copy p value buf s :
  copy (value_bytes p) max value = (buf, s) ->
  take 4 buf = take 4 value -> (Z.of_nat max <= s)%Z -> value_type p = XI_VALUE_TYPE_I32 ->
  exists p', xi_set_value_str max copy p value = (None, p') /\
    xi_get_value_type p' = XI_VALUE_TYPE_I32 /\ xi_get_value_i32 p' = XOk (i32_of_bytes value).
Proof.
  intros Hc Ht Hs Hty. unfold xi_set_value_str. rewrite Hc.
  rewrite (proj2 (Z.leb_le _ _) Hs). eexists. split; [reflexivity|].
  unfold xi_get_value_type, xi_get_value_i32. simpl. rewrite Hty, decide_True by done.
  split; [done|]. unfold i32_of_bytes. by rewrite u32_of_bytes_take, Ht, <- u32_of_bytes_take.
Qed.

(** A copy that writes the whole source and returns its length. *)
Definition copy_whole (dst : list Z) (size : nat) (src : list Z) : list Z * Z :=
  (write_bytes dst src, Z.of_nat (length src)).

Definition datapoint_seven : xi_datapoint_t :=
  xi_set_value_i32 (mk_datapoint (replicate 8 0%Z) XI_VALUE_TYPE_I32) 7.

Lemma xi_set_value_str_failure_overwrites_witness :
  xi_get_value_i32 datapoint_seven = XOk 7%Z /\
  exists p', xi_set_value_str 4 copy_whole datapoint_seven [104; 101; 108; 108; 111]%Z = (None, p') /\
    xi_get_value_type p' = XI_VALUE_TYPE_I32 /\
    xi_get_value_i32 p' = XOk (i32_of_bytes [104; 101; 108; 108; 111]%Z).
Proof.
  split; [reflexivity|].
  apply (xi_set_value_str_failure_overwrites 4 copy_whole datapoint_seven _
           (write_bytes (value_bytes datapoint_seven) [104; 101; 108; 108; 111]%Z) 5);
    reflexivity || (simpl; lia).
Defined.

End Datapoint.
