(* ===== verification/Codec.v ===== *)
(** * The MQTT parser of [mqtt/codec/parser.h]

    [parser.h] declares the parser's result codes [mqtt_parser_rc_t], its
    states [mqtt_parser_state_t] and its record [mqtt_parser_t]; these are
    translated here constructor by constructor and field by field.  The
    bodies of [mqtt_parser_init] and [mqtt_parser_execute] ([parser.c]) and
    the serialiser are not in the repository: the part of them this file
    models is the fixed header as the specification (§4.3) describes it,
    the first byte followed by the remaining length, a variable-length
    integer of at most four bytes holding seven data bits each, low digits
    first, whose high bit says that another byte follows.  The parser is
    resumable: it consumes the bytes it is given and answers
    [MQTT_PARSER_RC_INCOMPLETE] when they run out, to be fed the rest of the
    same stream later.  The stages past the fixed header, and the
    serialiser's packets, are in [Packet.v].

    The [size_t] counters are kept as [Z]; the theorems bound them by
    [128^4 = 2^28], so no width of [size_t] wraps. *)

From S2P Require Import Prelude.

Module Codec.

(** ** [parser.h] *)

Inductive mqtt_parser_rc_t : Type :=
  | MQTT_PARSER_RC_ERROR
  | MQTT_PARSER_RC_CONTINUE
  | MQTT_PARSER_RC_INCOMPLETE
  | MQTT_PARSER_RC_DONE
  | MQTT_PARSER_RC_WANT_MEMORY.

#[export] Instance mqtt_parser_rc_eq_dec : EqDecision mqtt_parser_rc_t.
Proof. solve_decision. Defined.

Inductive mqtt_parser_state_t : Type :=
  | MQTT_PARSER_STATE_INITIAL
  | MQTT_PARSER_STATE_REMAINING_LENGTH
  | MQTT_PARSER_STATE_VARIABLE_HEADER
  | MQTT_PARSER_STATE_CONNECT
  | MQTT_PARSER_STATE_CONNECT_PROTOCOL_NAME
  | MQTT_PARSER_STATE_CONNECT_PROTOCOL_VERSION
  | MQTT_PARSER_STATE_CONNECT_FLAGS
  | MQTT_PARSER_STATE_CONNECT_KEEP_ALIVE
  | MQTT_PARSER_STATE_CONNECT_CLIENT_IDENTIFIER
  | MQTT_PARSER_STATE_CONNECT_WILL_TOPIC
  | MQTT_PARSER_STATE_CONNECT_WILL_MESSAGE
  | MQTT_PARSER_STATE_CONNECT_USERNAME
  | MQTT_PARSER_STATE_CONNECT_PASSWORD
  | MQTT_PARSER_STATE_CONNACK
  | MQTT_PARSER_STATE_PUBLISH
  | MQTT_PARSER_STATE_PUBLISH_TOPIC_NAME
  | MQTT_PARSER_STATE_PUBLISH_MESSAGE_ID
  | MQTT_PARSER_STATE_PUBACK
  | MQTT_PARSER_STATE_PUBREC
  | MQTT_PARSER_STATE_PUBREL
  | MQTT_PARSER_STATE_PUBCOMP.

#[export] Instance mqtt_parser_state_eq_dec : EqDecision mqtt_parser_state_t.
Proof. solve_decision. Defined.

(** [mqtt_parser_t]; the state of [xi_stated_sscanf] and [mqtt_error_t]
    (headers not in the repository) are kept as numbers, [buffer] as its
    bytes. *)
Record mqtt_parser_t : Type := mk_parser {
  state : mqtt_parser_state_t;
  sscanf_state : nat;
  error : Z;
  buffer_pending : Z;
  buffer : list Z;
  buffer_length : Z;
  digit_bytes : Z;
  multiplier : Z;
  remaining_length : Z;
  str_length : Z;
  data_length : Z
}.

(** ** The fixed header *)

(** [mqtt_parser_init]: every field cleared, the state [INITIAL]. *)
Definition mqtt_parser_init : mqtt_parser_t :=
  mk_parser MQTT_PARSER_STATE_INITIAL 0 0 0 [] 0 0 0 0 0 0.

(** The parser with a new state and new length counters. *)
Definition set_length (p : mqtt_parser_t) (st : mqtt_parser_state_t) (db m rl : Z)
    : mqtt_parser_t :=
  mk_parser st (sscanf_state p) (error p) (buffer_pending p) (buffer p) (buffer_length p)
    db m rl (str_length p) (data_length p).

(** The states of the fixed header. *)
Definition in_fixed_header (st : mqtt_parser_state_t) : bool :=
  match st with
  | MQTT_PARSER_STATE_INITIAL | MQTT_PARSER_STATE_REMAINING_LENGTH => true
  | _ => false
  end.

(** One byte of the fixed header.  In [INITIAL] the byte is the message's
    first byte (kept in [hdr]) and the length counters start; in
    [REMAINING_LENGTH] the byte adds [(byte & 0x7F) * multiplier], and the
    high bit asks for another byte, an error after the fourth; without it
    the parser moves on to the variable header. *)
Definition mqtt_parser_header_byte (p : mqtt_parser_t) (hdr : option Z) (b : Z)
    : mqtt_parser_rc_t * mqtt_parser_t * option Z :=
  match state p with
  | MQTT_PARSER_STATE_INITIAL =>
      (MQTT_PARSER_RC_CONTINUE, set_length p MQTT_PARSER_STATE_REMAINING_LENGTH 0 1 0, Some b)
  | MQTT_PARSER_STATE_REMAINING_LENGTH =>
      let db := (digit_bytes p + 1)%Z in
      let rl := (remaining_length p + Z.land b 127 * multiplier p)%Z in
      let m := (multiplier p * 128)%Z in
      if negb (Z.land b 128 =? 0)%Z then
        if (4 <=? db)%Z then (MQTT_PARSER_RC_ERROR, p, hdr)
        else (MQTT_PARSER_RC_CONTINUE, set_length p MQTT_PARSER_STATE_REMAINING_LENGTH db m rl, hdr)
      else (MQTT_PARSER_RC_CONTINUE, set_length p MQTT_PARSER_STATE_VARIABLE_HEADER db m rl, hdr)
  | _ => (MQTT_PARSER_RC_CONTINUE, p, hdr)
  end.

(** Feeding bytes to the fixed header: it stops with [CONTINUE] and the
    unread bytes once the parser is past the fixed header (more states
    remain), with [ERROR] on a fifth length byte, and with [INCOMPLETE]
    when the bytes run out. *)
Fixpoint mqtt_parser_feed (p : mqtt_parser_t) (hdr : option Z) (bs : list Z)
    : mqtt_parser_rc_t * mqtt_parser_t * option Z * list Z :=
  if negb (in_fixed_header (state p)) then (MQTT_PARSER_RC_CONTINUE, p, hdr, bs) else
  match bs with
  | [] => (MQTT_PARSER_RC_INCOMPLETE, p, hdr, [])
  | b :: bs' =>
      match mqtt_parser_header_byte p hdr b with
      | (MQTT_PARSER_RC_ERROR, p', hdr') => (MQTT_PARSER_RC_ERROR, p', hdr', bs')
      | (_, p', hdr') => mqtt_parser_feed p' hdr' bs'
      end
  end.

(** The encoder of the remaining length: seven bits per byte, low digits
    first, the high bit set on every byte but the last; [fuel] bytes at
    most. *)
Fixpoint encode_length_fuel (fuel : nat) (n : Z) : list Z :=
  match fuel with
  | O => []
  | S fuel' =>
      let digit := (n mod 128)%Z in
      let n' := (n / 128)%Z in
      if (n' =? 0)%Z then [digit] else Z.lor digit 128 :: encode_length_fuel fuel' n'
  end.

Definition mqtt_encode_remaining_length (n : Z) : list Z := encode_length_fuel 4 n.

(** The largest remaining length four bytes hold. *)
Definition MQTT_MAX_REMAINING_LENGTH : Z := 268435455.

(** What the fixed header keeps of its counters: [multiplier] is
    [128^digit_bytes] and the length read so far is below it; at most
    three bytes are read while more are expected, at most four in all. *)
Definition header_inv (p : mqtt_parser_t) : Prop :=
  match state p with
  | MQTT_PARSER_STATE_REMAINING_LENGTH =>
      (0 <= digit_bytes p < 4 /\ multiplier p = 128 ^ digit_bytes p /\
       0 <= remaining_length p < multiplier p)%Z
  | MQTT_PARSER_STATE_VARIABLE_HEADER =>
      (1 <= digit_bytes p <= 4 /\ multiplier p = 128 ^ digit_bytes p /\
       0 <= remaining_length p < multiplier p)%Z
  | _ => True
  end.

(** ** Facts *)

(** The bit operations of the codec on a seven-bit digit, checked on each
    of the 128 digits. *)
Definition digit_bits_ok (d : Z) : bool :=
  ((Z.lor d 128 =? d + 128) && (Z.land (d + 128) 128 =? 128) && (Z.land (d + 128) 127 =? d) &&
   (Z.land d 128 =? 0) && (Z.land d 127 =? d))%Z.

Lemma digit_bits_all : forallb digit_bits_ok (map Z.of_nat (seq 0 128)) = true.
Proof. vm_compute. reflexivity. Qed.

Lemma digit_bits d : (0 <= d < 128)%Z ->
  Z.lor d 128 = (d + 128)%Z /\ Z.land (d + 128) 128 = 128%Z /\ Z.land (d + 128) 127 = d /\
  Z.land d 128 = 0%Z /\ Z.land d 127 = d.
Proof.
  intros Hd. pose proof digit_bits_all as Hall. rewrite forallb_forall in Hall.
  specialize (Hall d). unfold digit_bits_ok in Hall. rewrite !andb_true_iff, !Z.eqb_eq in Hall.
  destruct Hall as [[[[? ?] ?] ?] ?]; [|done].
  apply in_map_iff. exists (Z.to_nat d). rewrite in_seq. split; lia.
Qed.

Lemma land_127_bound b : (0 <= Z.land b 127 < 128)%Z.
Proof. change 127%Z with (Z.ones 7). rewrite Z.land_ones by lia. apply Z.mod_pos_bound. lia. Qed.

Lemma header_byte_inv p hdr b :
  header_inv p -> header_inv (mqtt_parser_header_byte p hdr b).1.2.
Proof.
  unfold mqtt_parser_header_byte. pose proof (land_127_bound b).
  destruct (state p) eqn:E; try (intros Hp; exact Hp).
  - intros _. unfold header_inv. simpl. lia.
  - unfold header_inv at 1. rewrite E. intros (Hdb & Hm & Hrl).
    destruct (negb _); [destruct (4 <=? _)%Z eqn:E4|]; unfold header_inv; simpl.
    + rewrite E. lia.
    + apply Z.leb_gt in E4. rewrite Z.pow_add_r, Z.pow_1_r by lia. nia.
    + rewrite Z.pow_add_r, Z.pow_1_r by lia. nia.
Qed.

Lemma feed_inv p hdr bs :
  header_inv p -> header_inv (mqtt_parser_feed p hdr bs).1.1.2.
Proof.
  revert p hdr. induction bs as [|b bs IH]; intros p hdr Hp; simpl;
    destruct (in_fixed_header (state p)); simpl; try done.
  pose proof (header_byte_inv p hdr b Hp) as Hb.
  destruct (mqtt_parser_header_byte p hdr b) as [[[] p'] hdr']; simpl in *; auto.
Qed.

Lemma set_length_twice p st st' db m rl db' m' rl' :
  set_length (set_length p st db m rl) st' db' m' rl' = set_length p st' db' m' rl'.
Proof. reflexivity. Qed.

Lemma pow128_succ k : (128 ^ Z.of_nat (S k) = 128 * 128 ^ Z.of_nat k)%Z.
Proof. rewrite Nat2Z.inj_succ. apply Z.pow_succ_r. lia. Qed.

(** Past the fixed header the feed reads nothing. *)
Lemma feed_past p hdr bs :
  in_fixed_header (state p) = false -> mqtt_parser_feed p hdr bs = (MQTT_PARSER_RC_CONTINUE, p, hdr, bs).
Proof. intros E. destruct bs; simpl; by rewrite E. Qed.

(** The parser reads back what the encoder writes, from any point of the
    length field with room for the encoding. *)
Lemma feed_encode f p hdr n rest :
  state p = MQTT_PARSER_STATE_REMAINING_LENGTH -> (0 < f)%nat ->
  (0 <= digit_bytes p)%Z -> (digit_bytes p + Z.of_nat f <= 4)%Z -> (0 <= n < 128 ^ Z.of_nat f)%Z ->
  let len := Z.of_nat (length (encode_length_fuel f n)) in
  mqtt_parser_feed p hdr (encode_length_fuel f n ++ rest) =
    (MQTT_PARSER_RC_CONTINUE,
     set_length p MQTT_PARSER_STATE_VARIABLE_HEADER (digit_bytes p + len) (multiplier p * 128 ^ len)
       (remaining_length p + n * multiplier p), hdr, rest).
Proof.
  revert p n. induction f as [|f IH]; intros p n Hst Hf Hdb Hroom Hn; [lia|].
  simpl encode_length_fuel. pose proof (Z.mod_pos_bound n 128 ltac:(lia)) as Hmod.
  pose proof (Z.div_mod n 128 ltac:(lia)) as Hdm.
  destruct (digit_bits (n mod 128) Hmod) as (Hlor & Hhi & Hlo & Hhi0 & Hlo0).
  destruct (Z.eqb_spec (n / 128) 0) as [E|E]; cbn zeta; simpl app; simpl mqtt_parser_feed;
    unfold mqtt_parser_header_byte; rewrite Hst; simpl.
  - rewrite Hhi0, Hlo0. simpl. rewrite feed_past by done.
    rewrite Z.mod_small by lia. change (Z.of_nat 1) with 1%Z. by rewrite Z.pow_1_r.
  - rewrite Hlor, Hhi, Hlo. simpl.
    assert (Hf' : (0 < f)%nat).
    { destruct f; [|lia]. simpl in Hn. pose proof (Z.div_lt_upper_bound n 128 1). lia. }
    assert (Hn' : (0 <= n / 128 < 128 ^ Z.of_nat f)%Z).
    { split; [apply Z.div_pos; lia|]. apply Z.div_lt_upper_bound; [lia|].
      rewrite <- pow128_succ. lia. }
    rewrite (proj2 (Z.leb_gt _ _)) by lia. simpl.
    rewrite (IH _ (n / 128)%Z) by (simpl; first [done | lia]). simpl.
    set (k := Z.of_nat (length (encode_length_fuel f (n / 128)))).
    rewrite Nat2Z.inj_succ, Z.pow_succ_r by lia. fold k.
    rewrite set_length_twice.
    replace (digit_bytes p + Z.succ k)%Z with (digit_bytes p + 1 + k)%Z by lia.
    replace (multiplier p * (128 * 128 ^ k))%Z with (multiplier p * 128 * 128 ^ k)%Z by ring.
    replace (remaining_length p + n * multiplier p)%Z
      with (remaining_length p + n mod 128 * multiplier p + n / 128 * (multiplier p * 128))%Z
      by (set (q := (n / 128)%Z) in *; set (r := (n mod 128)%Z) in *; clearbody q r; subst n; ring).
    reflexivity.
Qed.


(** The encoder's output: between one and [f] bytes, each a byte, the
    fewest that hold [n]. *)
Lemma encode_bounds f n :
  (0 < f)%nat -> (0 <= n < 128 ^ Z.of_nat f)%Z ->
  let len := length (encode_length_fuel f n) in
  (1 <= len <= f)%nat /\ Forall (fun b => 0 <= b < 256)%Z (encode_length_fuel f n) /\
  (n < 128 ^ Z.of_nat len)%Z /\ (len = 1%nat \/ (128 ^ Z.of_nat len <= 128 * n)%Z).
Proof.
  revert n. induction f as [|f IH]; intros n Hf Hn; [lia|].
  simpl encode_length_fuel. pose proof (Z.mod_pos_bound n 128 ltac:(lia)) as Hmod.
  pose proof (Z.div_mod n 128 ltac:(lia)) as Hdm.
  destruct (digit_bits (n mod 128) Hmod) as (Hlor & _).
  destruct (Z.eqb_spec (n / 128) 0) as [E|E]; cbn zeta.
  - simpl. split_and!; [lia|lia|repeat constructor; lia|lia|by left].
  - assert (Hf' : (0 < f)%nat).
    { destruct f; [|lia]. simpl in Hn. pose proof (Z.div_lt_upper_bound n 128 1). lia. }
    assert (Hn' : (0 <= n / 128 < 128 ^ Z.of_nat f)%Z).
    { split; [apply Z.div_pos; lia|]. apply Z.div_lt_upper_bound; [lia|].
      rewrite <- pow128_succ. lia. }
    destruct (IH (n / 128)%Z Hf' Hn') as (Hlen & Hbytes & Hup & Hlow).
    simpl length. rewrite !pow128_succ, Hlor.
    split_and!; [lia|lia|constructor; [lia|done]|lia|right].
    destruct Hlow as [->|Hlow]; simpl; lia.
Qed.


Lemma max_remaining_length_pow : (MQTT_MAX_REMAINING_LENGTH = 128 ^ Z.of_nat 4 - 1)%Z.
Proof. reflexivity. Qed.

(** The parser from [mqtt_parser_init] reads a first byte and an encoded
    length up to the variable header. *)
Lemma feed_header_encode n b rest :
  (0 <= n <= MQTT_MAX_REMAINING_LENGTH)%Z ->
  let len := Z.of_nat (length (mqtt_encode_remaining_length n)) in
  mqtt_parser_feed mqtt_parser_init None (b :: mqtt_encode_remaining_length n ++ rest) =
    (MQTT_PARSER_RC_CONTINUE,
     set_length mqtt_parser_init MQTT_PARSER_STATE_VARIABLE_HEADER len (128 ^ len) n, Some b, rest).
Proof.
  rewrite max_remaining_length_pow. intros Hn. unfold mqtt_encode_remaining_length.
  change (mqtt_parser_feed mqtt_parser_init None (b :: encode_length_fuel 4 n ++ rest)) with
    (mqtt_parser_feed (set_length mqtt_parser_init MQTT_PARSER_STATE_REMAINING_LENGTH 0 1 0)
       (Some b) (encode_length_fuel 4 n ++ rest)).
  rewrite feed_encode by (simpl; first [done | lia]). cbn zeta. rewrite set_length_twice.
  cbn [digit_bytes multiplier remaining_length set_length mqtt_parser_init].
  do 4 f_equal; lia.
Qed.

(** Once the fixed header is read, the bytes after the ones given are
    handed back unread. *)
Lemma feed_continue_app p hdr bs bs' p1 hdr1 rest :
  mqtt_parser_feed p hdr bs = (MQTT_PARSER_RC_CONTINUE, p1, hdr1, rest) ->
  mqtt_parser_feed p hdr (bs ++ bs') = (MQTT_PARSER_RC_CONTINUE, p1, hdr1, rest ++ bs').
Proof.
  revert p hdr. induction bs as [|b bs IH]; intros p hdr; simpl.
  - destruct (in_fixed_header (state p)) eqn:E; simpl; [discriminate|].
    intros [= <- <- <-]. by apply feed_past.
  - destruct (in_fixed_header (state p)); simpl; [|by intros [= <- <- <-]].
    destruct (mqtt_parser_header_byte p hdr b) as [[[] p'] hdr']; try discriminate; apply IH.
Qed.

(** ** Properties *)

(** Round trip of the remaining length: for every length from [0] to
    [268435455], a message's first byte followed by the encoded length and
    any further bytes is read by the parser from [mqtt_parser_init] up to
    the variable header, with the first byte kept, the length read back,
    as many length bytes counted as were written, and the further bytes
    left unread. *)
Theorem mqtt_remaining_length_roundtrip n b rest :
  (0 <= n <= MQTT_MAX_REMAINING_LENGTH)%Z ->
  exists p, mqtt_parser_feed mqtt_parser_init None (b :: mqtt_encode_remaining_length n ++ rest)
              = (MQTT_PARSER_RC_CONTINUE, p, Some b, rest) /\
    state p = MQTT_PARSER_STATE_VARIABLE_HEADER /\ remaining_length p = n /\
    digit_bytes p = Z.of_nat (length (mqtt_encode_remaining_length n)).
Proof.
  intros Hn. rewrite (feed_header_encode n b rest Hn).
  eexists. split; [reflexivity|]. cbn [state remaining_length digit_bytes set_length]. done.
Qed.

(** The encoder writes between one and four bytes, each in
    [0, 256), and the fewest that hold the length: [n < 128^len], and a
    length of more than one byte is needed ([128^(len-1) <= n]). *)
Theorem mqtt_encode_remaining_length_bounds n :
  (0 <= n <= MQTT_MAX_REMAINING_LENGTH)%Z ->
  let len := length (mqtt_encode_remaining_length n) in
  (1 <= len <= 4)%nat /\ Forall (fun b => 0 <= b < 256)%Z (mqtt_encode_remaining_length n) /\
  (n < 128 ^ Z.of_nat len)%Z /\ (len = 1%nat \/ (128 ^ Z.of_nat len <= 128 * n)%Z).
Proof. rewrite max_remaining_length_pow. intros Hn. apply encode_bounds; lia. Qed.

(** The parser is resumable: when the bytes given so far run out
    ([INCOMPLETE]), feeding the continuation of the stream to the parser
    it left gives what feeding the whole stream at once gives. *)
Theorem mqtt_parser_feed_resumable p hdr bs1 bs2 p1 hdr1 :
  mqtt_parser_feed p hdr bs1 = (MQTT_PARSER_RC_INCOMPLETE, p1, hdr1, []) ->
  mqtt_parser_feed p hdr (bs1 ++ bs2) = mqtt_parser_feed p1 hdr1 bs2.
Proof.
  revert p hdr. induction bs1 as [|b bs1 IH]; intros p hdr; simpl.
  - destruct (in_fixed_header (state p)) eqn:E; simpl; [|discriminate]. by intros [= -> ->].
  - destruct (in_fixed_header (state p)); simpl; [|discriminate].
    destruct (mqtt_parser_header_byte p hdr b) as [[[] p'] hdr']; try discriminate; apply IH.
Qed.

(** Whatever bytes it is fed from [mqtt_parser_init], the parser
    keeps [multiplier = 128^digit_bytes] with the length read below it and
    at most four length bytes; so a length it has read is at most
    [268435455], and no [size_t] counter exceeds [2^28]. *)
Theorem mqtt_parser_feed_header_inv hdr bs :
  let p := (mqtt_parser_feed mqtt_parser_init hdr bs).1.1.2 in
  header_inv p /\
  (state p = MQTT_PARSER_STATE_VARIABLE_HEADER ->
   (0 <= remaining_length p <= MQTT_MAX_REMAINING_LENGTH /\ multiplier p <= 2 ^ 28)%Z).
Proof.
  cbv zeta. pose proof (feed_inv mqtt_parser_init hdr bs I) as Hinv.
  set (p := (mqtt_parser_feed mqtt_parser_init hdr bs).1.1.2) in *.
  split; [done|]. intros E. unfold header_inv in Hinv. rewrite E in Hinv.
  destruct Hinv as (Hdb & Hm & Hrl).
  assert (128 ^ digit_bytes p <= 128 ^ 4)%Z by (apply Z.pow_le_mono_r; lia).
  unfold MQTT_MAX_REMAINING_LENGTH. change (128 ^ 4)%Z with 268435456%Z in *.
  change (2 ^ 28)%Z with 268435456%Z. lia.
Qed.

(** A remaining length that does not end within four bytes is an
    error, never a silent truncation: after the first byte, four length
    bytes with the continuation bit set stop the parser with [ERROR] in
    the length state, three digits counted, the rest unread. *)
Theorem mqtt_parser_feed_length_overrun b c1 c2 c3 c4 rest :
  Forall (fun c => Z.land c 128 <> 0%Z) [c1; c2; c3; c4] ->
  exists p, mqtt_parser_feed mqtt_parser_init None (b :: c1 :: c2 :: c3 :: c4 :: rest)
              = (MQTT_PARSER_RC_ERROR, p, Some b, rest) /\
    state p = MQTT_PARSER_STATE_REMAINING_LENGTH /\ digit_bytes p = 3%Z.
Proof.
  intros Hc. repeat (apply Forall_cons_1 in Hc as [? Hc]).
  simpl. unfold mqtt_parser_header_byte. simpl.
  repeat match goal with H : Z.land ?c 128 <> 0%Z |- _ =>
    rewrite (proj2 (Z.eqb_neq _ _) H); clear H; simpl end.
  eexists. split; [reflexivity|]. done.
Qed.

(** ** Witnesses *)

Lemma mqtt_remaining_length_roundtrip_witness :
  exists p, mqtt_parser_feed mqtt_parser_init None (48 :: mqtt_encode_remaining_length 321 ++ [7])%Z
              = (MQTT_PARSER_RC_CONTINUE, p, Some 48%Z, [7%Z]) /\
    state p = MQTT_PARSER_STATE_VARIABLE_HEADER /\ remaining_length p = 321%Z /\
    digit_bytes p = Z.of_nat (length (mqtt_encode_remaining_length 321)).
Proof. apply mqtt_remaining_length_roundtrip. vm_compute. split; discriminate. Defined.

Lemma mqtt_encode_remaining_length_bounds_witness :
  let len := length (mqtt_encode_remaining_length 16384) in
  (1 <= len <= 4)%nat /\ Forall (fun b => 0 <= b < 256)%Z (mqtt_encode_remaining_length 16384) /\
  (16384 < 128 ^ Z.of_nat len)%Z /\ (len = 1%nat \/ (128 ^ Z.of_nat len <= 128 * 16384)%Z).
Proof. apply mqtt_encode_remaining_length_bounds. vm_compute. split; discriminate. Defined.

Lemma mqtt_parser_feed_resumable_witness :
  mqtt_parser_feed mqtt_parser_init None [48; 200]%Z
    = (MQTT_PARSER_RC_INCOMPLETE,
       (mqtt_parser_feed mqtt_parser_init None [48; 200]%Z).1.1.2, Some 48%Z, []) /\
  mqtt_parser_feed mqtt_parser_init None ([48; 200] ++ [1; 9])%Z
    = mqtt_parser_feed (mqtt_parser_feed mqtt_parser_init None [48; 200]%Z).1.1.2 (Some 48%Z) [1; 9]%Z.
Proof.
  assert (H : mqtt_parser_feed mqtt_parser_init None [48; 200]%Z
    = (MQTT_PARSER_RC_INCOMPLETE,
       (mqtt_parser_feed mqtt_parser_init None [48; 200]%Z).1.1.2, Some 48%Z, [])) by reflexivity.
  split; [exact H|]. exact (mqtt_parser_feed_resumable _ _ _ _ _ _ H).
Defined.

Lemma mqtt_parser_feed_length_overrun_witness :
  exists p, mqtt_parser_feed mqtt_parser_init None (48 :: 255 :: 128 :: 200 :: 129 :: [5])%Z
              = (MQTT_PARSER_RC_ERROR, p, Some 48%Z, [5%Z]) /\
    state p = MQTT_PARSER_STATE_REMAINING_LENGTH /\ digit_bytes p = 3%Z.
Proof. apply mqtt_parser_feed_length_overrun. repeat constructor; vm_compute; discriminate. Defined.

End Codec.
