(* ===== verification/Packet.v ===== *)
(** * MQTT control packets: the serializer and the body of the parser

    [message.h], [parser.c] and [serialiser.c] are not in the repository;
    this file models, from the specification (§4.3, §6), the control
    packets the codec handles and their wire form: the fixed header (type
    and flags in the first byte, the remaining length of [Codec]), then a
    body per kind — CONNECT (protocol name, version, flags, keep-alive,
    client id, then the will topic and message, user name and password
    when their flags are set), CONNACK (a return code), PUBLISH (topic
    name, a message id when the QoS is above 0, the payload up to the
    remaining length) and PUBACK/PUBREC/PUBREL/PUBCOMP (a message id).
    Strings are a two-byte big-endian length and their bytes.

    [mqtt_serialise] writes a packet into a buffer of a given size and
    fails when it does not fit.  [mqtt_parser_execute] is the parser of
    [Codec] extended past the fixed header: in [VARIABLE_HEADER] it
    gathers the body in the parser's [buffer] ([data_length] bytes so far)
    until [remaining_length] bytes are in, answering [INCOMPLETE] when the
    input runs out, then decodes the body ([DONE]) or rejects it
    ([ERROR]).  [parser_reachable] is the step relation of the parser
    over any sequence of buffers from [mqtt_parser_init]; [parser_inv],
    the bound of its counters and of its buffer, holds in every state it
    reaches. *)

From S2P Require Import Prelude Codec.

Module Packet.
Import Codec.

(** ** Packets *)

(** The will of a CONNECT: its QoS, retain flag, topic and message. *)
Record mqtt_will : Type := mk_will {
  will_qos : Z;
  will_retain : bool;
  will_topic : list Z;
  will_message : list Z
}.

Record mqtt_connect : Type := mk_connect {
  protocol_name : list Z;
  protocol_version : Z;
  clean_session : bool;
  keep_alive : Z;
  client_id : list Z;
  will : option mqtt_will;
  username : option (list Z);
  password : option (list Z)
}.

Inductive mqtt_packet : Type :=
  | PConnect (c : mqtt_connect)
  | PConnack (return_code : Z)
  | PPublish (dup : bool) (qos : Z) (retain : bool) (topic : list Z) (message_id : option Z)
      (payload : list Z)
  | PPuback (message_id : Z)
  | PPubrec (message_id : Z)
  | PPubrel (message_id : Z)
  | PPubcomp (message_id : Z).

(** ** Serializer *)

Definition b2z (b : bool) : Z := if b then 1%Z else 0%Z.

Definition encode_u16 (n : Z) : list Z := [Z.shiftr n 8; Z.land n 255].

Definition encode_string (s : list Z) : list Z := encode_u16 (Z.of_nat (length s)) ++ s.

Definition encode_option_string (s : option (list Z)) : list Z :=
  match s with Some s => encode_string s | None => [] end.

(** The CONNECT flags byte: user name, password, will retain, will QoS,
    will and clean session, from bit 7 down to bit 1. *)
Definition connect_flags (c : mqtt_connect) : Z :=
  let w := will c in
  (Z.shiftl (b2z (bool_decide (is_Some (username c)))) 7 +
   Z.shiftl (b2z (bool_decide (is_Some (password c)))) 6 +
   Z.shiftl (b2z (default false (will_retain <$> w))) 5 +
   Z.shiftl (default 0 (will_qos <$> w)) 3 +
   Z.shiftl (b2z (bool_decide (is_Some w))) 2 +
   Z.shiftl (b2z (clean_session c)) 1)%Z.

Definition connect_body (c : mqtt_connect) : list Z :=
  encode_string (protocol_name c) ++ [protocol_version c; connect_flags c] ++
  encode_u16 (keep_alive c) ++ encode_string (client_id c) ++
  (match will c with
   | Some w => encode_string (will_topic w) ++ encode_string (will_message w)
   | None => []
   end) ++
  encode_option_string (username c) ++ encode_option_string (password c).

(** The first byte: the type in the high nibble, then DUP, QoS and
    RETAIN; PUBREL carries QoS 1. *)
Definition packet_first_byte (p : mqtt_packet) : Z :=
  match p with
  | PConnect _ => 16
  | PConnack _ => 32
  | PPublish dup qos retain _ _ _ =>
      48 + Z.shiftl (b2z dup) 3 + Z.shiftl qos 1 + b2z retain
  | PPuback _ => 64
  | PPubrec _ => 80
  | PPubrel _ => 98
  | PPubcomp _ => 112
  end%Z.

Definition packet_body (p : mqtt_packet) : list Z :=
  match p with
  | PConnect c => connect_body c
  | PConnack rc => [0; rc]%Z
  | PPublish _ _ _ topic id payload =>
      encode_string topic ++ (match id with Some i => encode_u16 i | None => [] end) ++ payload
  | PPuback id | PPubrec id | PPubrel id | PPubcomp id => encode_u16 id
  end.

(** The bytes of a packet, or [None] when its body is longer than a
    remaining length can say or the bytes do not fit [buffer_size]. *)
Definition mqtt_serialise (buffer_size : nat) (p : mqtt_packet) : option (list Z) :=
  let body := packet_body p in
  if bool_decide (MQTT_MAX_REMAINING_LENGTH < Z.of_nat (length body))%Z then None
  else
    let bytes := packet_first_byte p ::
                 mqtt_encode_remaining_length (Z.of_nat (length body)) ++ body in
    if buffer_size <? length bytes then None else Some bytes.

(** ** Decoding a body *)

Definition decode_u16 (bs : list Z) : option (Z * list Z) :=
  match bs with
  | hi :: lo :: rest => Some (Z.shiftl hi 8 + lo, rest)%Z
  | _ => None
  end.

(** A string whose declared length runs past the body is an error. *)
Definition decode_string (bs : list Z) : option (list Z * list Z) :=
  '(n, rest) ← decode_u16 bs;
  let k := Z.to_nat n in
  if length rest <? k then None else Some (take k rest, drop k rest).

Definition decode_option_string (present : bool) (bs : list Z) : option (option (list Z) * list Z) :=
  if present then '(s, rest) ← decode_string bs; Some (Some s, rest) else Some (None, bs).

Definition decode_will (flags : Z) (bs : list Z) : option (option mqtt_will * list Z) :=
  if Z.testbit flags 2 then
    '(t, r1) ← decode_string bs;
    '(m, r2) ← decode_string r1;
    Some (Some (mk_will (Z.land (Z.shiftr flags 3) 3) (Z.testbit flags 5) t m), r2)
  else Some (None, bs).

(** The CONNECT body, in the order of the states [CONNECT_PROTOCOL_NAME],
    [_PROTOCOL_VERSION], [_FLAGS], [_KEEP_ALIVE], [_CLIENT_IDENTIFIER],
    [_WILL_TOPIC], [_WILL_MESSAGE], [_USERNAME], [_PASSWORD]; the fields
    must end exactly at the end of the body. *)
Definition decode_connect (bs : list Z) : option mqtt_connect :=
  '(name, r1) ← decode_string bs;
  match r1 with
  | version :: flags :: r2 =>
      '(keep, r3) ← decode_u16 r2;
      '(cid, r4) ← decode_string r3;
      '(w, r5) ← decode_will flags r4;
      '(user, r6) ← decode_option_string (Z.testbit flags 7) r5;
      '(pass, r7) ← decode_option_string (Z.testbit flags 6) r6;
      match r7 with
      | [] => Some (mk_connect name version (Z.testbit flags 1) keep cid w user pass)
      | _ => None
      end
  | _ => None
  end.

(** A message id that is the whole body. *)
Definition decode_id (bs : list Z) : option Z :=
  '(id, rest) ← decode_u16 bs;
  match rest with [] => Some id | _ => None end.

Definition decode_packet (first : Z) (body : list Z) : option mqtt_packet :=
  match Z.shiftr first 4 with
  | 1 => PConnect <$> decode_connect body
  | 2 => match body with [_; rc] => Some (PConnack rc) | _ => None end
  | 3 =>
      let qos := Z.land (Z.shiftr first 1) 3 in
      '(topic, r1) ← decode_string body;
      if (qos =? 0)%Z then Some (PPublish (Z.testbit first 3) qos (Z.testbit first 0) topic None r1)
      else '(id, r2) ← decode_u16 r1;
           Some (PPublish (Z.testbit first 3) qos (Z.testbit first 0) topic (Some id) r2)
  | 4 => PPuback <$> decode_id body
  | 5 => PPubrec <$> decode_id body
  | 6 => PPubrel <$> decode_id body
  | 7 => PPubcomp <$> decode_id body
  | _ => None
  end%Z.

(** ** The parser past the fixed header *)

Definition set_body (p : mqtt_parser_t) (buf : list Z) (dl : Z) : mqtt_parser_t :=
  mk_parser (state p) (sscanf_state p) (error p) (buffer_pending p) buf (buffer_length p)
    (digit_bytes p) (multiplier p) (remaining_length p) (str_length p) dl.

(** [VARIABLE_HEADER]: gather the [remaining_length - data_length] bytes
    still missing, then decode the packet. *)
Definition mqtt_parser_body (p : mqtt_parser_t) (hdr : option Z) (bs : list Z)
    : mqtt_parser_rc_t * mqtt_parser_t * option mqtt_packet * list Z :=
  let need := Z.to_nat (remaining_length p - data_length p) in
  if length bs <? need then
    (MQTT_PARSER_RC_INCOMPLETE,
     set_body p (buffer p ++ bs) (data_length p + Z.of_nat (length bs)), None, [])
  else
    let body := buffer p ++ take need bs in
    let p' := set_body p body (remaining_length p) in
    match hdr with
    | Some first =>
        match decode_packet first body with
        | Some m => (MQTT_PARSER_RC_DONE, p', Some m, drop need bs)
        | None => (MQTT_PARSER_RC_ERROR, p', None, drop need bs)
        end
    | None => (MQTT_PARSER_RC_ERROR, p', None, drop need bs)
    end.

(** [mqtt_parser_execute]: the fixed header, then the body; the first
    byte read is kept with the parser.  The answer is an
    [mqtt_parser_rc_t], as the specification (section 4.3) describes it;
    parser.h:61 declares the function returning [layer_state_t], whose
    values are not the parser's, and [parser.c] is not in the repository.
    The [WANT_MEMORY] answer is not produced: the body is gathered in the
    parser's own buffer. *)
Definition mqtt_parser_execute (p : mqtt_parser_t) (hdr : option Z) (bs : list Z)
    : mqtt_parser_rc_t * mqtt_parser_t * option Z * option mqtt_packet * list Z :=
  match mqtt_parser_feed p hdr bs with
  | (MQTT_PARSER_RC_CONTINUE, p1, hdr1, rest) =>
      if bool_decide (state p1 = MQTT_PARSER_STATE_VARIABLE_HEADER) then
        let '(rc, p2, m, rest') := mqtt_parser_body p1 hdr1 rest in (rc, p2, hdr1, m, rest')
      else (MQTT_PARSER_RC_CONTINUE, p1, hdr1, None, rest)
  | (rc, p1, hdr1, rest) => (rc, p1, hdr1, None, rest)
  end.

(** ** Well-formed packets *)

Definition u16_ok (n : Z) : Prop := (0 <= n < 65536)%Z.

Definition string_ok (s : list Z) : Prop := (Z.of_nat (length s) < 65536)%Z.

Definition option_string_ok (s : option (list Z)) : Prop :=
  match s with Some s => string_ok s | None => True end.

Definition connect_wf (c : mqtt_connect) : Prop :=
  string_ok (protocol_name c) /\ (0 <= protocol_version c < 256)%Z /\ u16_ok (keep_alive c) /\
  string_ok (client_id c) /\
  match will c with
  | Some w => (0 <= will_qos w <= 2)%Z /\ string_ok (will_topic w) /\ string_ok (will_message w)
  | None => True
  end /\
  option_string_ok (username c) /\ option_string_ok (password c).

(** A QoS of 0 to 2, a message id exactly when the QoS is above 0. *)
Definition packet_wf (p : mqtt_packet) : Prop :=
  match p with
  | PConnect c => connect_wf c
  | PConnack rc => (0 <= rc < 256)%Z
  | PPublish _ qos _ topic id _ =>
      string_ok topic /\ (0 <= qos <= 2)%Z /\
      match id with None => qos = 0%Z | Some i => qos <> 0%Z /\ u16_ok i end
  | PPuback id | PPubrec id | PPubrel id | PPubcomp id => u16_ok id
  end.

(** ** Parser states reachable from [mqtt_parser_init] *)

(** The states [mqtt_parser_execute] reaches from a fresh parser, fed any
    sequence of buffers, each call resuming where the previous one
    stopped. *)
Inductive parser_reachable : mqtt_parser_t -> option Z -> Prop :=
  | reach_init : parser_reachable mqtt_parser_init None
  | reach_step p hdr bs rc p' hdr' m rest :
      parser_reachable p hdr ->
      mqtt_parser_execute p hdr bs = (rc, p', hdr', m, rest) ->
      parser_reachable p' hdr'.

(** The counters of a reachable parser: the fixed header's (of [Codec]),
    and the body's, [buffer] holding [data_length] bytes, none before the
    body and never more than [remaining_length]. *)
Definition parser_inv (p : mqtt_parser_t) : Prop :=
  Z.of_nat (length (buffer p)) = data_length p /\
  match state p with
  | MQTT_PARSER_STATE_INITIAL =>
      data_length p = 0%Z /\ remaining_length p = 0%Z /\ multiplier p = 0%Z
  | MQTT_PARSER_STATE_REMAINING_LENGTH => data_length p = 0%Z /\ header_inv p
  | MQTT_PARSER_STATE_VARIABLE_HEADER =>
      header_inv p /\ (0 <= data_length p <= remaining_length p)%Z
  | _ => False
  end.

(** ** Facts *)

(** The codecs of the fields are rewritten with their lemmas, never unfolded
    by [simpl]. *)
#[local] Arguments encode_u16 : simpl never.
#[local] Arguments encode_string : simpl never.
#[local] Arguments encode_option_string : simpl never.
#[local] Arguments decode_u16 : simpl never.
#[local] Arguments decode_string : simpl never.
#[local] Arguments decode_option_string : simpl never.

Lemma decode_u16_encode n r : u16_ok n -> decode_u16 (encode_u16 n ++ r) = Some (n, r).
Proof.
  unfold u16_ok, decode_u16, encode_u16. intros Hn. simpl. do 2 f_equal.
  rewrite Z.shiftl_mul_pow2, Z.shiftr_div_pow2 by lia.
  change 255%Z with (Z.ones 8). rewrite Z.land_ones by lia.
  pose proof (Z.div_mod n (2 ^ 8) ltac:(lia)). lia.
Qed.

Lemma decode_string_encode s r : string_ok s -> decode_string (encode_string s ++ r) = Some (s, r).
Proof.
  unfold string_ok, decode_string, encode_string. intros Hs.
  rewrite <- app_assoc, decode_u16_encode by (unfold u16_ok; lia). simpl.
  rewrite Nat2Z.id, (proj2 (Nat.ltb_ge _ _)) by (rewrite length_app; lia).
  by rewrite take_app_length, drop_app_length.
Qed.

Lemma decode_option_string_encode s r :
  option_string_ok s ->
  decode_option_string (bool_decide (is_Some s)) (encode_option_string s ++ r) = Some (s, r).
Proof.
  intros Hs. unfold decode_option_string, encode_option_string. destruct s as [s|].
  - rewrite bool_decide_true by eauto. by rewrite decode_string_encode.
  - rewrite bool_decide_false by (intros [? ?]; discriminate). done.
Qed.

(** Reduces the option binds and the appends of a decoding, leaving the
    field codecs and the flags byte folded. *)
Local Ltac bind_step :=
  cbn [mbind option_bind app fmap option_fmap option_map protocol_name protocol_version
       clean_session keep_alive client_id will username password will_qos will_retain
       will_topic will_message default].

(** The bits of the CONNECT flags byte, checked on each of the 96 cases. *)
Lemma connect_flags_bits c :
  (0 <= default 0 (will_qos <$> will c) <= 2)%Z ->
  Z.testbit (connect_flags c) 7 = bool_decide (is_Some (username c)) /\
  Z.testbit (connect_flags c) 6 = bool_decide (is_Some (password c)) /\
  Z.testbit (connect_flags c) 5 = default false (will_retain <$> will c) /\
  Z.land (Z.shiftr (connect_flags c) 3) 3 = default 0%Z (will_qos <$> will c) /\
  Z.testbit (connect_flags c) 2 = bool_decide (is_Some (will c)) /\
  Z.testbit (connect_flags c) 1 = clean_session c.
Proof.
  unfold connect_flags. cbv zeta.
  generalize (default 0%Z (will_qos <$> will c)) as q.
  generalize (bool_decide (is_Some (username c))) as u, (bool_decide (is_Some (password c))) as p,
    (default false (will_retain <$> will c)) as wr, (bool_decide (is_Some (will c))) as w,
    (clean_session c) as cs.
  intros u p wr w cs q Hq. assert (q = 0 \/ q = 1 \/ q = 2)%Z as [-> | [-> | ->]] by lia;
    destruct u, p, wr, w, cs; vm_compute; repeat split.
Qed.

Lemma publish_bits (dup retain : bool) (qos : Z) :
  (0 <= qos <= 2)%Z ->
  let f := (48 + Z.shiftl (b2z dup) 3 + Z.shiftl qos 1 + b2z retain)%Z in
  Z.shiftr f 4 = 3%Z /\ Z.land (Z.shiftr f 1) 3 = qos /\ Z.testbit f 3 = dup /\ Z.testbit f 0 = retain.
Proof.
  intros Hq. assert (qos = 0 \/ qos = 1 \/ qos = 2)%Z as [-> | [-> | ->]] by lia;
    destruct dup, retain; vm_compute; repeat split.
Qed.

(** The CONNECT decoder reads back the fields the serializer wrote and
    accepts nothing after them. *)
Lemma decode_connect_app c r :
  connect_wf c ->
  decode_connect (connect_body c ++ r) = match r with [] => Some c | _ => None end.
Proof.
  intros Hwf.
  assert (Hq : (0 <= default 0 (will_qos <$> will c) <= 2)%Z)
    by (destruct Hwf as (_ & _ & _ & _ & Hw & _); destruct (will c); simpl in *; lia).
  destruct (connect_flags_bits c Hq) as (Hu & Hp & Hwr & Hwq & Hwb & Hcs).
  destruct c as [name ver cs keep cid w user pass].
  destruct Hwf as (Hname & Hver & Hkeep & Hcid & Hw & Huser & Hpass); simpl in Hname, Hver,
    Hkeep, Hcid, Hw, Huser, Hpass.
  unfold decode_connect, connect_body. bind_step.
  rewrite <- !app_assoc, decode_string_encode by done. bind_step.
  rewrite <- ?app_assoc, decode_u16_encode by done. bind_step. rewrite <- ?app_assoc, decode_string_encode by done. bind_step.
  unfold decode_will. rewrite Hwb. bind_step.
  destruct w as [[wq wr wt wm]|]; bind_step.
  - destruct Hw as (_ & Ht & Hm).
    rewrite bool_decide_true by eauto. bind_step.
    rewrite <- !app_assoc, decode_string_encode by done. bind_step.
    rewrite <- ?app_assoc, decode_string_encode by done. bind_step.
    rewrite Hu, <- ?app_assoc, decode_option_string_encode by done. bind_step.
    rewrite Hp, <- ?app_assoc, decode_option_string_encode by done. bind_step.
    cbn [default fmap option_fmap option_map will will_qos will_retain clean_session] in Hwq, Hwr, Hcs.
    rewrite Hcs, Hwq, Hwr. by destruct r.
  - rewrite bool_decide_false by (intros [? ?]; discriminate). bind_step.
    rewrite Hu, <- ?app_assoc, decode_option_string_encode by done. bind_step.
    rewrite Hp, <- ?app_assoc, decode_option_string_encode by done. bind_step.
    cbn [clean_session] in Hcs. rewrite Hcs. by destruct r.
Qed.

Lemma decode_id_encode id : u16_ok id -> decode_id (encode_u16 id) = Some id.
Proof. intros H. unfold decode_id. rewrite <- (app_nil_r (encode_u16 id)), decode_u16_encode by done. done. Qed.

(** Every well-formed packet decodes from its first byte and body. *)
Lemma decode_packet_body p :
  packet_wf p -> decode_packet (packet_first_byte p) (packet_body p) = Some p.
Proof.
  destruct p as [c|rc|dup qos retain topic id payload|id|id|id|id];
    cbn [packet_body packet_first_byte packet_wf]; intros Hwf.
  - unfold decode_packet. simpl. rewrite <- (app_nil_r (connect_body c)), decode_connect_app by done.
    done.
  - done.
  - destruct Hwf as (Ht & Hq & Hid).
    destruct (publish_bits dup retain qos Hq) as (H4 & H1 & H3 & H0).
    unfold decode_packet. rewrite H4. cbv beta iota zeta. rewrite H1, H3, H0.
    rewrite decode_string_encode by done. bind_step.
    destruct id as [i|].
    + destruct Hid as [Hq0 Hi]. rewrite (proj2 (Z.eqb_neq _ _) Hq0).
      by rewrite decode_u16_encode.
    + subst qos. done.
  - unfold decode_packet. by rewrite decode_id_encode.
  - unfold decode_packet. by rewrite decode_id_encode.
  - unfold decode_packet. by rewrite decode_id_encode.
  - unfold decode_packet. by rewrite decode_id_encode.
Qed.

(** A serialised packet is its first byte, its encoded length and its body. *)
Lemma mqtt_serialise_some n p bs :
  mqtt_serialise n p = Some bs ->
  bs = packet_first_byte p :: mqtt_encode_remaining_length (Z.of_nat (length (packet_body p)))
         ++ packet_body p /\
  (Z.of_nat (length (packet_body p)) <= MQTT_MAX_REMAINING_LENGTH)%Z /\ length bs <= n.
Proof.
  unfold mqtt_serialise. case_bool_decide as Hmax; [done|].
  match goal with |- context [n <? ?l] => destruct (Nat.ltb_spec n l) as [Hn|Hn] end; [done|].
  intros [= <-]. split_and!; [done|lia|done].
Qed.

(** In [VARIABLE_HEADER] the parser goes straight to the body. *)
Lemma execute_variable_header p hdr bs :
  state p = MQTT_PARSER_STATE_VARIABLE_HEADER ->
  mqtt_parser_execute p hdr bs =
    let '(rc, p2, m, rest) := mqtt_parser_body p hdr bs in (rc, p2, hdr, m, rest).
Proof.
  intros E. unfold mqtt_parser_execute. rewrite feed_past by (by rewrite E).
  by rewrite bool_decide_true.
Qed.

(** The body of [remaining_length] bytes from an empty buffer, with more
    bytes after it. *)
Lemma mqtt_parser_body_whole p hdr body rest :
  buffer p = [] -> data_length p = 0%Z -> remaining_length p = Z.of_nat (length body) ->
  mqtt_parser_body p hdr (body ++ rest) =
    (match hdr ≫= (fun first => decode_packet first body) with
     | Some m => MQTT_PARSER_RC_DONE | None => MQTT_PARSER_RC_ERROR end,
     set_body p body (remaining_length p), hdr ≫= (fun first => decode_packet first body), rest).
Proof.
  intros Hb Hd Hr. unfold mqtt_parser_body. rewrite Hb, Hd, Hr, Z.sub_0_r, Nat2Z.id.
  rewrite (proj2 (Nat.ltb_ge _ _)) by (rewrite length_app; lia).
  rewrite take_app_length, drop_app_length. simpl.
  destruct hdr as [first|]; simpl; [|done]. by destruct (decode_packet first body).
Qed.

(** The parser from [mqtt_parser_init] on a first byte, an encoded length
    and that many body bytes, followed by anything. *)
Lemma execute_init_packet first body rest :
  (Z.of_nat (length body) <= MQTT_MAX_REMAINING_LENGTH)%Z ->
  exists q,
    mqtt_parser_execute mqtt_parser_init None
      ((first :: mqtt_encode_remaining_length (Z.of_nat (length body)) ++ body) ++ rest) =
    (match decode_packet first body with
     | Some _ => MQTT_PARSER_RC_DONE | None => MQTT_PARSER_RC_ERROR end,
     q, Some first, decode_packet first body, rest).
Proof.
  intros Hmax. rewrite <- app_comm_cons, <- app_assoc.
  unfold mqtt_parser_execute. rewrite feed_header_encode by lia.
  rewrite bool_decide_true by done.
  rewrite mqtt_parser_body_whole by done. simpl. eauto.
Qed.

(** C14. Round trip of the codec: a well-formed packet that
    [mqtt_serialise] writes into a buffer is read back by
    [mqtt_parser_execute] from [mqtt_parser_init]: [DONE] with the same
    packet and its first byte, whatever bytes follow, which are left
    unread. *)
Theorem mqtt_packet_roundtrip n p bs rest :
  packet_wf p -> mqtt_serialise n p = Some bs ->
  exists q, mqtt_parser_execute mqtt_parser_init None (bs ++ rest) =
    (MQTT_PARSER_RC_DONE, q, Some (packet_first_byte p), Some p, rest).
Proof.
  intros Hwf Hs. destruct (mqtt_serialise_some n p bs Hs) as (-> & Hmax & _).
  destruct (execute_init_packet (packet_first_byte p) (packet_body p) rest Hmax) as [q Hq].
  rewrite decode_packet_body in Hq by done. eauto.
Qed.

Lemma set_body_twice p b d b' d' : set_body (set_body p b d) b' d' = set_body p b' d'.
Proof. reflexivity. Qed.

(** The body stage never answers [INCOMPLETE] with bytes left over, and
    after [INCOMPLETE] it holds the bytes read in its buffer. *)
Lemma mqtt_parser_body_incomplete p hdr bs p1 m r :
  mqtt_parser_body p hdr bs = (MQTT_PARSER_RC_INCOMPLETE, p1, m, r) ->
  length bs < Z.to_nat (remaining_length p - data_length p) /\
  p1 = set_body p (buffer p ++ bs) (data_length p + Z.of_nat (length bs)) /\ r = [].
Proof.
  unfold mqtt_parser_body.
  destruct (Nat.ltb_spec (length bs) (Z.to_nat (remaining_length p - data_length p))) as [Hl|Hl].
  - intros [= <- _ <-]. done.
  - destruct hdr as [first|]; [destruct (decode_packet _ _)|]; discriminate.
Qed.

(** The body stage is resumable. *)
Lemma mqtt_parser_body_app p hdr bs1 bs2 p1 m r :
  mqtt_parser_body p hdr bs1 = (MQTT_PARSER_RC_INCOMPLETE, p1, m, r) ->
  mqtt_parser_body p hdr (bs1 ++ bs2) = mqtt_parser_body p1 hdr bs2.
Proof.
  intros H. destruct (mqtt_parser_body_incomplete p hdr bs1 p1 m r H) as (Hl & -> & _).
  unfold mqtt_parser_body. cbn [remaining_length data_length buffer set_body].
  set (need := Z.to_nat (remaining_length p - data_length p)) in *.
  replace (Z.to_nat (remaining_length p - (data_length p + Z.of_nat (length bs1))))
    with (need - length bs1) by lia.
  rewrite length_app, set_body_twice.
  destruct (Nat.ltb_spec (length bs1 + length bs2) need) as [H2|H2];
    destruct (Nat.ltb_spec (length bs2) (need - length bs1)) as [H3|H3]; try lia.
  - by rewrite app_assoc, Nat2Z.inj_add, Z.add_assoc.
  - rewrite take_app_ge, drop_app_ge, app_assoc by lia. by rewrite !set_body_twice.
Qed.

(** A fixed header that asks for more bytes leaves nothing unread. *)
Lemma feed_incomplete_nil p hdr bs p1 hdr1 r :
  mqtt_parser_feed p hdr bs = (MQTT_PARSER_RC_INCOMPLETE, p1, hdr1, r) -> r = [].
Proof.
  revert p hdr. induction bs as [|b bs IH]; intros p hdr; simpl.
  - destruct (in_fixed_header (state p)); simpl; [by intros [= _ _ <-]|discriminate].
  - destruct (in_fixed_header (state p)); simpl; [|discriminate].
    destruct (mqtt_parser_header_byte p hdr b) as [[[] p'] hdr']; try discriminate; apply IH.
Qed.

(** C15. The parser is resumable across buffers: when
    [mqtt_parser_execute] runs out of bytes ([INCOMPLETE]), in the fixed
    header or in the body, feeding the rest of the stream to the parser it
    left gives exactly what feeding the whole stream at once gives; so a
    packet split at any byte decodes as the unsplit one. *)
Theorem mqtt_parser_execute_resumable p hdr bs1 bs2 p1 hdr1 m1 r1 :
  mqtt_parser_execute p hdr bs1 = (MQTT_PARSER_RC_INCOMPLETE, p1, hdr1, m1, r1) ->
  mqtt_parser_execute p hdr (bs1 ++ bs2) = mqtt_parser_execute p1 hdr1 bs2.
Proof.
  unfold mqtt_parser_execute at 1.
  destruct (mqtt_parser_feed p hdr bs1) as [[[rc q] h] rest] eqn:Ef.
  destruct rc; try discriminate.
  - case_bool_decide as Hvh; [|discriminate].
    destruct (mqtt_parser_body q h rest) as [[[rc2 q2] m2] rest2] eqn:Eb.
    intros [= -> <- <- <- <-].
    destruct (mqtt_parser_body_incomplete q h rest q2 m2 rest2 Eb) as (_ & Hq2 & _).
    rewrite (execute_variable_header q2) by (rewrite Hq2; done).
    unfold mqtt_parser_execute. rewrite (feed_continue_app _ _ _ _ _ _ _ Ef).
    rewrite bool_decide_true by done. by rewrite (mqtt_parser_body_app _ _ _ _ _ _ _ Eb).
  - intros [= <- <- _ _]. pose proof (feed_incomplete_nil _ _ _ _ _ _ Ef) as ->.
    unfold mqtt_parser_execute. by rewrite (mqtt_parser_feed_resumable _ _ _ _ _ _ Ef).
Qed.

(** A message id that is not exactly two bytes. *)
Lemma decode_id_length bs : length bs <> 2 -> decode_id bs = None.
Proof. intros H. destruct bs as [|a [|b [|c r]]]; simpl in *; done || lia. Qed.

(** C16. A packet whose declared remaining length disagrees with its
    fields is rejected with [ERROR], never truncated or padded silently:
    a CONNECT whose length counts bytes after its last field, and a
    PUBACK, PUBREC, PUBREL or PUBCOMP whose body is not exactly a message
    id; the bytes after the declared length are left unread. *)
Theorem mqtt_parser_length_mismatch c (extra : list Z) (first : Z) (body rest : list Z) :
  connect_wf c -> extra <> [] ->
  (Z.of_nat (length (connect_body c ++ extra)) <= MQTT_MAX_REMAINING_LENGTH)%Z ->
  first ∈ [64; 80; 98; 112]%Z -> length body <> 2 ->
  (Z.of_nat (length body) <= MQTT_MAX_REMAINING_LENGTH)%Z ->
  (exists q, mqtt_parser_execute mqtt_parser_init None
     ((16%Z :: mqtt_encode_remaining_length (Z.of_nat (length (connect_body c ++ extra)))
          ++ connect_body c ++ extra) ++ rest) =
     (MQTT_PARSER_RC_ERROR, q, Some 16%Z, None, rest)) /\
  (exists q, mqtt_parser_execute mqtt_parser_init None
     ((first :: mqtt_encode_remaining_length (Z.of_nat (length body)) ++ body) ++ rest) =
     (MQTT_PARSER_RC_ERROR, q, Some first, None, rest)).
Proof.
  intros Hc Hx Hmax Hfirst Hlen Hmax'. split.
  - destruct (execute_init_packet 16 (connect_body c ++ extra) rest Hmax) as [q Hq].
    assert (Hd : decode_packet 16 (connect_body c ++ extra) = None).
    { unfold decode_packet. rewrite decode_connect_app by done. by destruct extra. }
    rewrite Hd in Hq. eauto.
  - destruct (execute_init_packet first body rest Hmax') as [q Hq].
    assert (Hd : decode_packet first body = None).
    { unfold decode_packet. rewrite decode_id_length by done.
      repeat (apply elem_of_cons in Hfirst as [->|Hfirst]; [done|]). by apply elem_of_nil in Hfirst. }
    rewrite Hd in Hq. eauto.
Qed.

(** A buffer that holds the packet receives it. *)
Lemma mqtt_serialise_exact n p :
  (Z.of_nat (length (packet_body p)) <= MQTT_MAX_REMAINING_LENGTH)%Z ->
  S (length (mqtt_encode_remaining_length (Z.of_nat (length (packet_body p))) ++ packet_body p)) <= n ->
  mqtt_serialise n p = Some (packet_first_byte p ::
    mqtt_encode_remaining_length (Z.of_nat (length (packet_body p))) ++ packet_body p).
Proof.
  intros Hmax Hn. unfold mqtt_serialise. rewrite bool_decide_false by lia.
  by rewrite (proj2 (Nat.ltb_ge _ _)).
Qed.

(** A buffer five bytes longer than the body holds the whole packet. *)
Lemma mqtt_serialise_fits n p :
  (Z.of_nat (length (packet_body p)) <= MQTT_MAX_REMAINING_LENGTH)%Z ->
  length (packet_body p) + 5 <= n ->
  mqtt_serialise n p = Some (packet_first_byte p ::
    mqtt_encode_remaining_length (Z.of_nat (length (packet_body p))) ++ packet_body p).
Proof.
  intros Hmax Hn.
  destruct (mqtt_encode_remaining_length_bounds (Z.of_nat (length (packet_body p))))
    as (Hl & _); [lia|].
  apply mqtt_serialise_exact; [done|]. rewrite length_app. lia.
Qed.

(** [mqtt_serialise] writes at most five bytes more than the body
    (one for the type and flags, at most four for the length) and fails,
    rather than writing past the buffer, when the buffer cannot hold even
    the body: a buffer of [length body + 5] bytes always suffices. *)
Theorem mqtt_serialise_bounds n p :
  (Z.of_nat (length (packet_body p)) <= MQTT_MAX_REMAINING_LENGTH)%Z ->
  (length (packet_body p) + 5 <= n ->
   exists bs, mqtt_serialise n p = Some bs /\ length bs <= length (packet_body p) + 5) /\
  (n <= length (packet_body p) -> mqtt_serialise n p = None).
Proof.
  intros Hmax.
  destruct (mqtt_encode_remaining_length_bounds (Z.of_nat (length (packet_body p))))
    as (Hl & _); [lia|].
  split.
  - intros Hn. rewrite mqtt_serialise_fits by done. eexists. split; [reflexivity|].
    simpl. rewrite length_app. lia.
  - intros Hn. unfold mqtt_serialise. rewrite bool_decide_false by lia.
    rewrite (proj2 (Nat.ltb_lt _ _)); [done|]. simpl. rewrite length_app. lia.
Qed.

(** ** The counters of a reachable parser *)

Lemma header_byte_parser_inv p hdr b :
  parser_inv p -> parser_inv (mqtt_parser_header_byte p hdr b).1.2.
Proof.
  intros [Hb Hs]. pose proof (header_byte_inv p hdr b) as Hh.
  unfold mqtt_parser_header_byte in *. pose proof (land_127_bound b).
  destruct (state p) eqn:E; try (cbn; split; [done|]; rewrite E; exact Hs).
  - destruct Hs as (Hd & _ & _). split; [done|]. cbn. split; [done|]. apply Hh. (unfold header_inv; by rewrite E).
  - destruct Hs as (Hd & Hi). unfold header_inv in Hi. rewrite E in Hi.
    destruct (negb _); [destruct (4 <=? _)%Z|]; cbn in *.
    + split; [done|]. rewrite E. split; [done|]. (unfold header_inv; by rewrite E).
    + split; [done|]. split; [done|]. apply Hh. (unfold header_inv; by rewrite E).
    + split; [done|]. split; [apply Hh; (unfold header_inv; by rewrite E)|].
      destruct Hh as (_ & _ & Hr); [unfold header_inv; by rewrite E|]. cbn. lia.
Qed.

Lemma feed_parser_inv p hdr bs :
  parser_inv p -> parser_inv (mqtt_parser_feed p hdr bs).1.1.2.
Proof.
  revert p hdr. induction bs as [|b bs IH]; intros p hdr Hp; simpl;
    destruct (in_fixed_header (state p)); simpl; try done.
  pose proof (header_byte_parser_inv p hdr b Hp) as Hb.
  destruct (mqtt_parser_header_byte p hdr b) as [[[] p'] hdr']; simpl in *; auto.
Qed.

Lemma body_parser_inv p hdr bs :
  parser_inv p -> state p = MQTT_PARSER_STATE_VARIABLE_HEADER ->
  parser_inv (mqtt_parser_body p hdr bs).1.1.2.
Proof.
  intros [Hb Hs] E. rewrite E in Hs. destruct Hs as (Hh & Hd).
  unfold mqtt_parser_body.
  destruct (Nat.ltb_spec (length bs) (Z.to_nat (remaining_length p - data_length p))) as [Hl|Hl].
  - split; cbn; [rewrite length_app; lia|]. rewrite E. split; [exact Hh|lia].
  - assert (Hp : parser_inv (set_body p (buffer p ++ take (Z.to_nat (remaining_length p - data_length p)) bs)
                                      (remaining_length p))).
    { split; cbn; [rewrite length_app, length_take; lia|]. rewrite E. split; [exact Hh|lia]. }
    destruct hdr as [first|]; [destruct (decode_packet _ _)|]; exact Hp.
Qed.

Lemma execute_parser_inv p hdr bs :
  parser_inv p -> parser_inv (mqtt_parser_execute p hdr bs).1.1.1.2.
Proof.
  intros Hp. pose proof (feed_parser_inv p hdr bs Hp) as Hf. unfold mqtt_parser_execute.
  destruct (mqtt_parser_feed p hdr bs) as [[[[] p1] hdr1] rest]; cbn in Hf |- *; try exact Hf.
  case_bool_decide as E; [|exact Hf].
  pose proof (body_parser_inv p1 hdr1 rest Hf E) as Hb.
  destruct (mqtt_parser_body p1 hdr1 rest) as [[[rc p2] m] rest']. exact Hb.
Qed.

Lemma reachable_parser_inv p hdr : parser_reachable p hdr -> parser_inv p.
Proof.
  induction 1 as [|p hdr bs rc p' hdr' m rest _ IH Hx].
  - split; cbn; lia.
  - pose proof (execute_parser_inv p hdr bs IH) as Hi. by rewrite Hx in Hi.
Qed.

(** C17. The parser is buffer-bounded: in every state it reaches from
    [mqtt_parser_init], over any sequence of buffers, the [buffer] holds
    exactly [data_length] bytes, [data_length] never exceeds
    [remaining_length], which never exceeds [268435455], and the
    [multiplier] stays within [2^28]: the [size_t] counters of
    [mqtt_parser_t] cannot wrap and the body storage is bounded by the
    declared length. *)
Theorem mqtt_parser_reachable_bounded p hdr :
  parser_reachable p hdr ->
  Z.of_nat (length (buffer p)) = data_length p /\
  (0 <= data_length p <= remaining_length p /\ remaining_length p <= MQTT_MAX_REMAINING_LENGTH)%Z /\
  (0 <= multiplier p <= 2 ^ 28)%Z.
Proof.
  intros Hr. destruct (reachable_parser_inv p hdr Hr) as [Hb Hs]. split; [done|].
  unfold header_inv, MQTT_MAX_REMAINING_LENGTH in *.
  destruct (state p); try done.
  - lia.
  - destruct Hs as (Hd & Hdb & Hm & Hrl).
    assert (128 ^ digit_bytes p <= 128 ^ 4)%Z by (apply Z.pow_le_mono_r; lia).
    change (128 ^ 4)%Z with (2 ^ 28)%Z in *. lia.
  - destruct Hs as ((Hdb & Hm & Hrl) & Hd).
    assert (128 ^ digit_bytes p <= 128 ^ 4)%Z by (apply Z.pow_le_mono_r; lia).
    change (128 ^ 4)%Z with (2 ^ 28)%Z in *. lia.
Qed.

(** ** Witnesses *)

(** A PUBLISH of QoS 1 on topic "s/t" with message id 300 and payload "21",
    and a CONNECT with a will and a password. *)
Definition publish_fixture : mqtt_packet :=
  (PPublish false 1 false [115; 47; 116] (Some 300) [50; 49])%Z.

Definition connect_packet_fixture : mqtt_connect :=
  (mk_connect [77; 81; 73; 115; 100; 112] 3 true 60 [99; 49]
    (Some (mk_will 1 false [119] [98; 121])) None (Some [112]))%Z.

Lemma mqtt_packet_roundtrip_witness :
  exists q, mqtt_parser_execute mqtt_parser_init None
    ([50; 9; 0; 3; 115; 47; 116; 1; 44; 50; 49] ++ [7])%Z =
    (MQTT_PARSER_RC_DONE, q, Some (packet_first_byte publish_fixture), Some publish_fixture, [7%Z]).
Proof.
  apply (mqtt_packet_roundtrip 16); [vm_compute; repeat split; congruence | reflexivity].
Defined.

Lemma mqtt_parser_execute_resumable_witness :
  mqtt_parser_execute mqtt_parser_init None ([32; 2; 0] ++ [0])%Z =
  mqtt_parser_execute
    (set_body (set_length mqtt_parser_init MQTT_PARSER_STATE_VARIABLE_HEADER 1 128 2) [0] 1)%Z
    (Some 32%Z) [0%Z].
Proof. apply (mqtt_parser_execute_resumable _ _ _ _ _ _ None []). vm_compute. reflexivity. Defined.

Lemma mqtt_parser_length_mismatch_witness :
  (exists q, mqtt_parser_execute mqtt_parser_init None
     ((16%Z :: mqtt_encode_remaining_length
                 (Z.of_nat (length (connect_body connect_packet_fixture ++ [0%Z])))
          ++ connect_body connect_packet_fixture ++ [0%Z]) ++ []) =
     (MQTT_PARSER_RC_ERROR, q, Some 16%Z, None, [])) /\
  (exists q, mqtt_parser_execute mqtt_parser_init None
     ((64%Z :: mqtt_encode_remaining_length (Z.of_nat (length [1; 2; 3]%Z)) ++ [1; 2; 3]%Z) ++ []) =
     (MQTT_PARSER_RC_ERROR, q, Some 64%Z, None, [])).
Proof.
  apply mqtt_parser_length_mismatch.
  - vm_compute. repeat split; congruence.
  - done.
  - vm_compute. congruence.
  - by apply elem_of_cons; left.
  - done.
  - vm_compute. congruence.
Defined.

Lemma mqtt_parser_reachable_bounded_witness :
  Z.of_nat (length [0%Z]) = 1%Z /\ (0 <= 1 <= 2 /\ 2 <= MQTT_MAX_REMAINING_LENGTH)%Z /\ (0 <= 128 <= 2 ^ 28)%Z.
Proof.
  apply (mqtt_parser_reachable_bounded
           (set_body (set_length mqtt_parser_init MQTT_PARSER_STATE_VARIABLE_HEADER 1 128 2) [0] 1)%Z
           (Some 32%Z)).
  eapply (reach_step mqtt_parser_init None [32; 2; 0]%Z); [constructor | vm_compute; reflexivity].
Defined.

End Packet.
